(** * The Lounge: network model and client manager

    A shallow embedding of the network model, [Network] (validation,
    editing, client projection, channel registry, quit), and of the
    client manager, [ClientManager] (lazy loading and creation of
    accounts over a database), followed by the properties established
    about them. *)

From Stdlib Require Import String Ascii.
From Stdlib Require Import List ZArith NArith Bool Lia.
From Stdlib Require Import DecimalString.
From Stdlib Require Import Sorting.Sorted Sorting.Permutation.
Import ListNotations.

Open Scope string_scope.
Open Scope list_scope.

(* ================================================================= *)
(** ** JavaScript values used by the program *)

Module JS.

(** A JavaScript string is a sequence of UTF-16 code units. *)
Definition codeunit := N.
Definition jstring := list codeunit.

(** Source-text literals (ASCII) as code-unit sequences. *)
Definition lit (s : string) : jstring :=
  map N_of_ascii (list_ascii_of_string s).

Fixpoint eqb (a b : jstring) : bool :=
  match a, b with
  | [], [] => true
  | x :: a', y :: b' => N.eqb x y && eqb a' b'
  | _, _ => false
  end.

(** Numbers: the integers, and NaN (the result of a failed [parseInt]).
    Fractions and infinities do not occur in the modelled paths. *)
Inductive jsnum := Num (z : Z) | NaN.

Inductive jsval :=
| JUndefined
| JNull
| JBool (b : bool)
| JNumber (n : jsnum)
| JString (s : jstring).

(** ToBoolean. *)
Definition truthy (v : jsval) : bool :=
  match v with
  | JUndefined | JNull => false
  | JBool b => b
  | JNumber (Num z) => negb (Z.eqb z 0)
  | JNumber NaN => false
  | JString s => match s with [] => false | _ => true end
  end.

(** [a || b]. *)
Definition or_else (a b : jsval) : jsval := if truthy a then a else b.

Definition num_truthy (n : jsnum) : bool := truthy (JNumber n).

Definition Z_to_jstring (z : Z) : jstring :=
  lit (NilZero.string_of_int (Z.to_int z)).

(** [String(v)]. *)
Definition toString (v : jsval) : jstring :=
  match v with
  | JUndefined => lit "undefined"
  | JNull => lit "null"
  | JBool true => lit "true"
  | JBool false => lit "false"
  | JNumber (Num z) => Z_to_jstring z
  | JNumber NaN => lit "NaN"
  | JString s => s
  end.

(** Strict equality [===] on primitives. *)
Definition strict_eqb (a b : jsval) : bool :=
  match a, b with
  | JUndefined, JUndefined => true
  | JNull, JNull => true
  | JBool x, JBool y => Bool.eqb x y
  | JNumber (Num x), JNumber (Num y) => Z.eqb x y
  | JString x, JString y => eqb x y
  | _, _ => false
  end.

(** The regular-expression class [\s]: WhiteSpace and LineTerminator. *)
Definition isWhiteSpace (c : codeunit) : bool :=
  (N.leb 9 c && N.leb c 13)
  || N.eqb c 32 || N.eqb c 160 || N.eqb c 5760
  || (N.leb 8192 c && N.leb c 8202)
  || N.eqb c 8232 || N.eqb c 8233 || N.eqb c 8239
  || N.eqb c 8287 || N.eqb c 12288 || N.eqb c 65279.

(** The control characters: C0 and DEL. *)
Definition isControl (c : codeunit) : bool := N.ltb c 32 || N.eqb c 127.

Definition isDigit (c : codeunit) : bool := N.leb 48 c && N.leb c 57.

(** The class [a-zA-Z0-9]. *)
Definition isAlnum (c : codeunit) : bool :=
  (N.leb 97 c && N.leb c 122) || (N.leb 65 c && N.leb c 90) || isDigit c.

(** [s.substring(0, n)]. *)
Definition substring0 (n : nat) (s : jstring) : jstring := firstn n s.

(** [s.replace(/[class]/g, "")] and [s.replace(/[class]/g, r)] for a
    one-unit replacement [r]. *)
Definition removeAll (cls : codeunit -> bool) (s : jstring) : jstring :=
  filter (fun c => negb (cls c)) s.

Definition replaceAll (cls : codeunit -> bool) (r : codeunit) (s : jstring)
  : jstring :=
  map (fun c => if cls c then r else c) s.

(** [parseInt(v, 10)]: the argument is converted to a string, leading
    white space is dropped, a sign is read, then the longest run of
    decimal digits; NaN when that run is empty. *)
Fixpoint skipWhile (p : codeunit -> bool) (s : jstring) : jstring :=
  match s with
  | c :: r => if p c then skipWhile p r else s
  | [] => []
  end.

Fixpoint takeWhile (p : codeunit -> bool) (s : jstring) : jstring :=
  match s with
  | c :: r => if p c then c :: takeWhile p r else []
  | [] => []
  end.

Definition digitsValue (ds : jstring) : Z :=
  fold_left (fun acc c => (acc * 10 + (Z.of_N c - 48))%Z) ds 0%Z.

Definition parseInt10 (v : jsval) : jsnum :=
  let s := skipWhile isWhiteSpace (toString v) in
  let '(neg, s) :=
    match s with
    | c :: r => if N.eqb c 45 then (true, r)
                else if N.eqb c 43 then (false, r) else (false, s)
    | [] => (false, s)
    end in
  match takeWhile isDigit s with
  | [] => NaN
  | ds => Num (if neg then - digitsValue ds else digitsValue ds)%Z
  end.

(** [s.replace(/\r\n|\r|\n/g, "\n")]. *)
Fixpoint normalizeNewlines (s : jstring) : jstring :=
  match s with
  | [] => []
  | c :: r =>
      if N.eqb c 13 then
        match r with
        | d :: r' => if N.eqb d 10 then 10%N :: normalizeNewlines r'
                     else 10%N :: normalizeNewlines r
        | [] => [10%N]
        end
      else c :: normalizeNewlines r
  end.

(** [s.split(sep)] for a one-unit separator. *)
Fixpoint split (sep : codeunit) (s : jstring) : list jstring :=
  match s with
  | [] => [[]]
  | c :: r =>
      if N.eqb c sep then [] :: split sep r
      else match split sep r with
           | w :: ws => (c :: w) :: ws
           | [] => [[c]]
           end
  end.

(** lodash [_.escapeRegExp]. *)
Definition isRegExpChar (c : codeunit) : bool :=
  existsb (N.eqb c) (lit "^$\.*+?()[]{}|").

Definition escapeRegExp (s : jstring) : jstring :=
  flat_map (fun c => if isRegExpChar c then [92%N; c] else [c]) s.

(** [a.join(sep)] for a one-unit separator. *)
Fixpoint join (sep : codeunit) (a : list jstring) : jstring :=
  match a with
  | [] => []
  | s :: r =>
      match r with
      | [] => s
      | _ :: _ => s ++ sep :: join sep r
      end
  end.

(** The text a pattern made of plain units and backslash escapes
    matches: a backslash makes the unit after it literal. *)
Fixpoint literalOf (pattern : jstring) : jstring :=
  match pattern with
  | [] => []
  | c :: r =>
      if N.eqb c 92 then
        match r with
        | d :: r' => d :: literalOf r'
        | [] => []
        end
      else c :: literalOf r
  end.

End JS.

Import JS.

(** Abrupt completion: a call either returns or throws. *)
Inductive exn :=
| TypeError
| Error (message : jstring).

Inductive completion (A : Type) :=
| Normal (a : A)
| Throws (e : exn).
Arguments Normal {A} a.
Arguments Throws {A} e.

(** What the JavaScript runtime supplies and the repository does not
    define: Unicode case mapping and locale-aware collation.
    [localeCompare a b] stands for the source's call
    [a.localeCompare(b, {sensitivity: "base"})]. *)
Class Runtime := {
  toLowerCase : jstring -> jstring;
  localeCompare : jstring -> jstring -> Z
}.

(* ================================================================= *)
(** ** Collaborators of the network model *)

(** The channel entity; [models/chan.js] is not among the sources. *)
Module Chan.

(** Modelled from the spec: the kind of an entry, one of lobby, channel,
    private query, or special (system) entry; [Chan.Type] is missing
    from the sources, which name [LOBBY], [CHANNEL] and [QUERY]. *)
Inductive Type_ := LOBBY | CHANNEL | QUERY | SPECIAL.

(** Modelled from the spec: an entry has a kind, a name and an optional
    join key; the constructor of [Chan] is missing from the sources. *)
Record t := mk {
  name : jstring;
  type : Type_;
  key : jstring
}.

Definition set_name (v : jstring) (c : t) : t := mk v (type c) (key c).

Definition Type_eqb (a b : Type_) : bool :=
  match a, b with
  | LOBBY, LOBBY | CHANNEL, CHANNEL | QUERY, QUERY | SPECIAL, SPECIAL => true
  | _, _ => false
  end.

End Chan.

(** The projection every channel performs for itself
    ([Chan#getFilteredClone]); its result type is the channel's own
    whitelisted view. *)
Class ChanProjection := {
  ChanView : Type;
  Chan_getFilteredClone : Chan.t -> jsval -> jsval -> ChanView
}.

Module Msg.

Inductive Type_ := ERROR.

Record t := mk {
  type : Type_;
  text : jstring
}.

End Msg.

(** [Helper.config], the administrator's options read by the model, and
    the nick [Helper.getDefaultNick()] hands out. *)
Module Helper.

Record config := mkConfig {
  lockNetwork : bool;
  public : bool;
  defaults_host : jstring;
  defaults_port : jsnum;
  defaults_tls : bool;
  defaults_rejectUnauthorized : bool;
  leaveMessage : jstring;
  useHexIp : bool;
  getDefaultNick : jstring
}.

End Helper.

(** The STS policy store; [plugins/sts.js] is not among the sources. *)
Module STSPolicies.

(** Modelled from the spec: a policy has a target TLS port, a validity
    duration and an absolute expiry instant; the store maps host names
    to policies. *)
Record policy := mkPolicy {
  port : Z;
  duration : Z;
  expires : Z
}.

Definition store := list (jstring * policy).

Fixpoint lookup (s : store) (host : jstring) : option policy :=
  match s with
  | [] => None
  | (h, p) :: r => if JS.eqb h host then Some p else lookup r host
  end.

Fixpoint remove (s : store) (host : jstring) : store :=
  match s with
  | [] => []
  | (h, p) :: r => if JS.eqb h host then remove r host
                   else (h, p) :: remove r host
  end.

(** Modelled from the spec: [get(host)] yields the policy or nothing,
    ignoring expired entries; a policy whose expiry is in the past is
    treated as absent.  ([plugins/sts.js] is missing.) *)
Definition get (s : store) (now : Z) (host : jstring) : option policy :=
  match lookup s host with
  | Some p => if (expires p <? now)%Z then None else Some p
  | None => None
  end.

(** Modelled from the spec: [set(host, targetPort, duration)] stores or
    overwrites, with expiry = now + duration.  ([plugins/sts.js] is
    missing.) *)
Definition set (s : store) (now : Z) (host : jstring)
           (targetPort duration : Z) : store :=
  (host, mkPolicy targetPort duration (now + duration)%Z) :: remove s host.

(** Modelled from the spec: [refreshExpiration(host)] recomputes the
    expiry of an existing policy from now with its original duration,
    and does nothing when the policy is absent or already expired.
    ([plugins/sts.js] is missing.) *)
Definition refreshExpiration (s : store) (now : Z) (host : jstring)
  : store :=
  match get s now host with
  | Some p => set s now host (port p) (duration p)
  | None => s
  end.

End STSPolicies.

(** The handle of the external protocol engine (irc-framework), as far
    as the model reads and writes it. *)
Module Irc.

Record socket := mkSocket {
  remoteAddress : jstring;
  encrypted : bool;
  authorized : bool
}.

Record transport := mkTransport {
  transport_socket : option socket;
  isConnected : bool
}.

Record connection := mkConnection {
  connected : bool;
  connection_transport : option transport
}.

Record options := mkOptions {
  o_nick : jsval;
  o_host : jstring;
  o_port : jsnum;
  o_password : jstring;
  o_gecos : jstring;
  o_tls : bool;
  o_rejectUnauthorized : bool;
  o_username : jstring
}.

Record user := mkUser {
  u_nick : jsval;
  u_gecos : jstring;
  u_username : jstring
}.

Record t := mk {
  conn : option connection;
  opts : options;
  usr : user;
  cap_setname : bool   (* network.cap.isEnabled("setname") *)
}.

End Irc.

(** Calls the network makes on its collaborators, in program order. *)
Inductive Effect :=
| PushMessage (chan : Chan.t) (msg : Msg.t) (increasesUnread : bool)
| IrcChangeNick (nick : jsval)
| IrcRaw (command : jstring) (arg : jstring)
| IrcQuit (message : jsval)
| ClientEmitNick (network : jstring) (nick : jsval)
| ClientSave.

Record ServerOptions := mkServerOptions {
  CHANTYPES : list jstring;
  PREFIX : list jstring;
  NETWORK : jstring
}.


(* ================================================================= *)
(** ** The network model ([models/network.js]) *)

Module Network.

(** The own properties of a network object: the keys of the
    constructor's default table, [uuid], and [highlightRegex], which
    exists once [setNick] has run.  [nick] holds whatever [edit] stored
    until [validate] turns it into a string; [keepNick] is [null] or a
    string; [port] is a number, possibly NaN.  The constructor unshifts
    the lobby into [channels], so a constructed network has it at
    index 0. *)
Record t := mk {
  name : jstring;
  nick : jsval;
  host : jstring;
  port : jsnum;
  tls : bool;
  userDisconnected : bool;
  rejectUnauthorized : bool;
  password : jstring;
  awayMessage : jstring;
  commands : list jstring;
  username : jstring;
  realname : jstring;
  channels : list Chan.t;
  irc : option Irc.t;
  serverOptions : ServerOptions;
  chanCache : list jstring;
  ignoreList : list jstring;
  keepNick : option jstring;
  uuid : jstring;
  highlightRegex : option jstring
}.

(** Field updates. *)
Definition set_name (v : jstring) (n : t) : t :=
  mk v (nick n) (host n) (port n) (tls n) (userDisconnected n)
     (rejectUnauthorized n) (password n) (awayMessage n) (commands n)
     (username n) (realname n) (channels n) (irc n) (serverOptions n)
     (chanCache n) (ignoreList n) (keepNick n) (uuid n)
     (highlightRegex n).

Definition set_nick (v : jsval) (n : t) : t :=
  mk (name n) v (host n) (port n) (tls n) (userDisconnected n)
     (rejectUnauthorized n) (password n) (awayMessage n) (commands n)
     (username n) (realname n) (channels n) (irc n) (serverOptions n)
     (chanCache n) (ignoreList n) (keepNick n) (uuid n)
     (highlightRegex n).

Definition set_host (v : jstring) (n : t) : t :=
  mk (name n) (nick n) v (port n) (tls n) (userDisconnected n)
     (rejectUnauthorized n) (password n) (awayMessage n) (commands n)
     (username n) (realname n) (channels n) (irc n) (serverOptions n)
     (chanCache n) (ignoreList n) (keepNick n) (uuid n)
     (highlightRegex n).

Definition set_port (v : jsnum) (n : t) : t :=
  mk (name n) (nick n) (host n) v (tls n) (userDisconnected n)
     (rejectUnauthorized n) (password n) (awayMessage n) (commands n)
     (username n) (realname n) (channels n) (irc n) (serverOptions n)
     (chanCache n) (ignoreList n) (keepNick n) (uuid n)
     (highlightRegex n).

Definition set_tls (v : bool) (n : t) : t :=
  mk (name n) (nick n) (host n) (port n) v (userDisconnected n)
     (rejectUnauthorized n) (password n) (awayMessage n) (commands n)
     (username n) (realname n) (channels n) (irc n) (serverOptions n)
     (chanCache n) (ignoreList n) (keepNick n) (uuid n)
     (highlightRegex n).

Definition set_rejectUnauthorized (v : bool) (n : t) : t :=
  mk (name n) (nick n) (host n) (port n) (tls n) (userDisconnected n) v
     (password n) (awayMessage n) (commands n) (username n) (realname n)
     (channels n) (irc n) (serverOptions n) (chanCache n) (ignoreList n)
     (keepNick n) (uuid n) (highlightRegex n).

Definition set_password (v : jstring) (n : t) : t :=
  mk (name n) (nick n) (host n) (port n) (tls n) (userDisconnected n)
     (rejectUnauthorized n) v (awayMessage n) (commands n) (username n)
     (realname n) (channels n) (irc n) (serverOptions n) (chanCache n)
     (ignoreList n) (keepNick n) (uuid n) (highlightRegex n).

Definition set_commands (v : list jstring) (n : t) : t :=
  mk (name n) (nick n) (host n) (port n) (tls n) (userDisconnected n)
     (rejectUnauthorized n) (password n) (awayMessage n) v (username n)
     (realname n) (channels n) (irc n) (serverOptions n) (chanCache n)
     (ignoreList n) (keepNick n) (uuid n) (highlightRegex n).

Definition set_username (v : jstring) (n : t) : t :=
  mk (name n) (nick n) (host n) (port n) (tls n) (userDisconnected n)
     (rejectUnauthorized n) (password n) (awayMessage n) (commands n) v
     (realname n) (channels n) (irc n) (serverOptions n) (chanCache n)
     (ignoreList n) (keepNick n) (uuid n) (highlightRegex n).

Definition set_realname (v : jstring) (n : t) : t :=
  mk (name n) (nick n) (host n) (port n) (tls n) (userDisconnected n)
     (rejectUnauthorized n) (password n) (awayMessage n) (commands n)
     (username n) v (channels n) (irc n) (serverOptions n) (chanCache n)
     (ignoreList n) (keepNick n) (uuid n) (highlightRegex n).

Definition set_channels (v : list Chan.t) (n : t) : t :=
  mk (name n) (nick n) (host n) (port n) (tls n) (userDisconnected n)
     (rejectUnauthorized n) (password n) (awayMessage n) (commands n)
     (username n) (realname n) v (irc n) (serverOptions n) (chanCache n)
     (ignoreList n) (keepNick n) (uuid n) (highlightRegex n).

Definition set_irc (v : option Irc.t) (n : t) : t :=
  mk (name n) (nick n) (host n) (port n) (tls n) (userDisconnected n)
     (rejectUnauthorized n) (password n) (awayMessage n) (commands n)
     (username n) (realname n) (channels n) v (serverOptions n)
     (chanCache n) (ignoreList n) (keepNick n) (uuid n)
     (highlightRegex n).

Definition set_keepNick (v : option jstring) (n : t) : t :=
  mk (name n) (nick n) (host n) (port n) (tls n) (userDisconnected n)
     (rejectUnauthorized n) (password n) (awayMessage n) (commands n)
     (username n) (realname n) (channels n) (irc n) (serverOptions n)
     (chanCache n) (ignoreList n) v (uuid n) (highlightRegex n).

Definition set_highlightRegex (v : option jstring) (n : t) : t :=
  mk (name n) (nick n) (host n) (port n) (tls n) (userDisconnected n)
     (rejectUnauthorized n) (password n) (awayMessage n) (commands n)
     (username n) (realname n) (channels n) (irc n) (serverOptions n)
     (chanCache n) (ignoreList n) (keepNick n) (uuid n) v.

(** [fieldsForClient]: keys sent to the client by default. *)
Definition fieldsForClient (prop : string) : bool :=
  match prop with
  | "uuid" | "name" | "nick" | "serverOptions" => true
  | _ => false
  end.

Definition isChannelOrQuery (c : Chan.t) : bool :=
  Chan.Type_eqb (Chan.type c) Chan.CHANNEL
  || Chan.Type_eqb (Chan.type c) Chan.QUERY.

(** The character classes of [validate]'s two cleaners. *)
Definition nickClass (c : codeunit) : bool :=
  N.eqb c 0 || isWhiteSpace c || N.eqb c 58 || N.eqb c 33 || N.eqb c 64.

Definition stringClass (c : codeunit) : bool :=
  N.eqb c 0 || N.eqb c 13 || N.eqb c 10.

(** [str.replace(/[\x00\s:!@]/g, "_").substring(0, 100)] *)
Definition cleanNick (str : jstring) : jstring :=
  substring0 100 (replaceAll nickClass 95%N str).

(** [str.replace(/[\x00\r\n]/g, "").substring(0, 300)] *)
Definition cleanString (str : jstring) : jstring :=
  substring0 300 (removeAll stringClass str).

(** What [cleanString] guarantees of a field: no NUL, CR or LF, and at
    most 300 code units. *)
Definition sanitized (s : jstring) : Prop :=
  (forall c, In c s -> c <> 0%N /\ c <> 13%N /\ c <> 10%N)
  /\ (length s <= 300)%nat.

(** [s || d] on strings. *)
Definition orDefault (s d : jstring) : jstring :=
  match s with [] => d | _ => s end.

Definition highlightSource (nick : jstring) : jstring :=
  lit "(?:^|[^a-z0-9]|" ++ [3%N] ++ lit "[0-9]{1,2})"
  ++ escapeRegExp nick
  ++ lit "(?:[^a-z0-9]|$)".

Definition setNick (nick : jstring) (n : t) : t :=
  let n := set_nick (JString nick) n in
  let n := set_highlightRegex (Some (highlightSource nick)) n in
  match keepNick n with
  | Some k => if JS.eqb k nick then set_keepNick None n else n
  | None => n
  end.

Definition lockedHostMsg : Msg.t :=
  Msg.mk Msg.ERROR (lit "Hostname you specified is not allowed.").

Definition emptyHostMsg : Msg.t :=
  Msg.mk Msg.ERROR (lit "You must specify a hostname to connect.").

Definition stsMsg (host : jstring) (policyPort : Z) : Msg.t :=
  Msg.mk Msg.ERROR
    (host
     ++ lit " has an active strict transport security policy, will connect to port "
     ++ Z_to_jstring policyPort
     ++ lit " over a secure connection.").

(** [this.channels[0].pushMessage(client, msg, true)]. *)
Definition lobbyPush (n : t) (msg : Msg.t) : completion Effect :=
  match channels n with
  | lobby :: _ => Normal (PushMessage lobby msg true)
  | [] => Throws TypeError
  end.

Section WithRuntime.

Context {R : Runtime}.

(** The normalisation that opens [validate], statement by statement. *)

(** [this.setNick(cleanNick(String(this.nick || Helper.getDefaultNick())))] *)
Definition normalizeNick (cfg : Helper.config) (n : t) : t :=
  setNick
    (cleanNick (toString (or_else (nick n)
                                  (JString (Helper.getDefaultNick cfg)))))
    n.

(** [if (!this.username) this.username = this.nick.replace(/[^a-zA-Z0-9]/g, "")] *)
Definition deriveUsername (n : t) : t :=
  match username n with
  | [] =>
      set_username
        (removeAll (fun c => negb (isAlnum c)) (toString (nick n))) n
  | _ => n
  end.

Definition normalizeUsername (n : t) : t :=
  set_username (orDefault (cleanString (username n)) (lit "thelounge")) n.

Definition normalizeRealname (n : t) : t :=
  set_realname (orDefault (cleanString (realname n))
                          (lit "The Lounge User")) n.

Definition normalizePassword (n : t) : t :=
  set_password (cleanString (password n)) n.

Definition normalizeHost (n : t) : t :=
  set_host (toLowerCase (cleanString (host n))) n.

Definition normalizeName (n : t) : t :=
  set_name (cleanString (name n)) n.

(** [if (!this.port) this.port = this.tls ? 6697 : 6667] *)
Definition defaultPort (n : t) : t :=
  if num_truthy (port n) then n
  else set_port (Num (if tls n then 6697 else 6667)) n.

Definition normalize (cfg : Helper.config) (n : t) : t :=
  let n := normalizeNick cfg n in
  let n := deriveUsername n in
  let n := normalizeUsername n in
  let n := normalizeRealname n in
  let n := normalizePassword n in
  let n := normalizeHost n in
  let n := normalizeName n in
  defaultPort n.

Definition hostNotAllowed (cfg : Helper.config) (n : t) : bool :=
  negb (Helper.public cfg)
  && match host n with [] => false | _ => true end
  && (0 <? length (host n))%nat
  && negb (JS.eqb (host n) (Helper.defaults_host cfg)).

Definition applyLock (cfg : Helper.config) (n : t) : t :=
  let n := set_host (Helper.defaults_host cfg) n in
  let n := set_port (Helper.defaults_port cfg) n in
  let n := set_tls (Helper.defaults_tls cfg) n in
  set_rejectUnauthorized (Helper.defaults_rejectUnauthorized cfg) n.

Definition applySTS (p : STSPolicies.policy) (n : t) : t :=
  let n := set_port (Num (STSPolicies.port p)) n in
  let n := set_tls true n in
  set_rejectUnauthorized true n.

(** The TLS flag the STS check of [validate] reads: the administrator's
    default under a lock, the network's own flag otherwise. *)
Definition tlsWhenPolicyConsulted (cfg : Helper.config) (n : t) : bool :=
  if Helper.lockNetwork cfg then Helper.defaults_tls cfg else tls n.

(** The network as it reaches the empty-host check when the lock does
    not reject it. *)
Definition afterLock (cfg : Helper.config) (n : t) : t :=
  if Helper.lockNetwork cfg then applyLock cfg (normalize cfg n)
  else normalize cfg n.

(** The tail of [validate]: the empty-host check and the STS upgrade. *)
Definition checkHostAndSTS (sts : STSPolicies.store) (now : Z) (n : t)
  : completion (bool * t * list Effect) :=
  if (length (host n) =? 0)%nat then
    match lobbyPush n emptyHostMsg with
    | Normal e => Normal (false, n, [e])
    | Throws x => Throws x
    end
  else
    match STSPolicies.get sts now (host n) with
    | Some p =>
        if negb (tls n) then
          match lobbyPush n (stsMsg (host n) (STSPolicies.port p)) with
          | Normal e => Normal (true, applySTS p n, [e])
          | Throws x => Throws x
          end
        else Normal (true, n, [])
    | None => Normal (true, n, [])
    end.

(** [Network.prototype.validate]: the result flag, the network as
    mutated, and the messages pushed. *)
Definition validate (cfg : Helper.config) (sts : STSPolicies.store) (now : Z)
           (n : t) : completion (bool * t * list Effect) :=
  let n := normalize cfg n in
  if Helper.lockNetwork cfg then
    if hostNotAllowed cfg n then
      match lobbyPush n lockedHostMsg with
      | Normal e => Normal (false, n, [e])
      | Throws x => Throws x
      end
    else checkHostAndSTS sts now (applyLock cfg n)
  else checkHostAndSTS sts now n.

(** The fields of the edit form as they arrive; each may be of any
    primitive type or missing. *)
Record args := mkArgs {
  a_nick : jsval;
  a_host : jsval;
  a_name : jsval;
  a_port : jsval;
  a_tls : jsval;
  a_rejectUnauthorized : jsval;
  a_password : jsval;
  a_username : jsval;
  a_realname : jsval;
  a_commands : jsval
}.

(** [String(v || "")] *)
Definition stringOrEmpty (v : jsval) : jstring :=
  toString (or_else v (JString [])).

Definition splitCommands (v : jsval) : list jstring :=
  filter (fun command => (0 <? length command)%nat)
         (split 10%N (normalizeNewlines (stringOrEmpty v))).

(** The assignments that open [edit]. *)
Definition assignArgs (a : args) (n : t) : t :=
  let n := set_keepNick None n in
  let n := set_nick (a_nick a) n in
  let n := set_host (stringOrEmpty (a_host a)) n in
  let n := set_name (orDefault (stringOrEmpty (a_name a)) (host n)) n in
  let n := set_port (parseInt10 (a_port a)) n in
  let n := set_tls (truthy (a_tls a)) n in
  let n := set_rejectUnauthorized (truthy (a_rejectUnauthorized a)) n in
  let n := set_password (stringOrEmpty (a_password a)) n in
  let n := set_username (stringOrEmpty (a_username a)) n in
  let n := set_realname (stringOrEmpty (a_realname a)) n in
  set_commands (splitCommands (a_commands a)) n.

(** [this.channels[0].name = this.name] *)
Definition syncLobbyName (n : t) : completion t :=
  match channels n with
  | lobby :: rest =>
      Normal (set_channels (Chan.set_name (name n) lobby :: rest) n)
  | [] => Throws TypeError
  end.

Definition isConnected (h : Irc.t) : bool :=
  match Irc.conn h with
  | Some c => Irc.connected c
  | None => false
  end.

(** The body of [if (this.irc) { ... }] in [edit]. *)
Definition syncIrc (cfg : Helper.config) (oldNick : jsval)
           (oldRealname : jstring) (n : t) (h : Irc.t)
  : Irc.t * list Effect :=
  let connected := isConnected h in
  let o := Irc.opts h in
  let u := Irc.usr h in
  let '(o, u, e1) :=
    if negb (strict_eqb (nick n) oldNick) then
      if connected then (o, u, [IrcChangeNick (nick n)])
      else
        (Irc.mkOptions (nick n) (Irc.o_host o) (Irc.o_port o)
           (Irc.o_password o) (Irc.o_gecos o) (Irc.o_tls o)
           (Irc.o_rejectUnauthorized o) (Irc.o_username o),
         Irc.mkUser (nick n) (Irc.u_gecos u) (Irc.u_username u),
         [ClientEmitNick (uuid n) (nick n)])
    else (o, u, []) in
  let e2 :=
    if connected && negb (JS.eqb (realname n) oldRealname)
       && Irc.cap_setname h
    then [IrcRaw (lit "SETNAME") (realname n)] else [] in
  let o :=
    Irc.mkOptions (Irc.o_nick o) (host n) (port n) (password n)
      (realname n) (tls n) (rejectUnauthorized n) (Irc.o_username o) in
  let u := Irc.mkUser (Irc.u_nick u) (realname n) (Irc.u_username u) in
  let '(o, u) :=
    if negb (Helper.useHexIp cfg) then
      (Irc.mkOptions (Irc.o_nick o) (Irc.o_host o) (Irc.o_port o)
         (Irc.o_password o) (Irc.o_gecos o) (Irc.o_tls o)
         (Irc.o_rejectUnauthorized o) (username n),
       Irc.mkUser (Irc.u_nick u) (Irc.u_gecos u) (username n))
    else (o, u) in
  (Irc.mk (Irc.conn h) o u (Irc.cap_setname h), e1 ++ e2).

(** [Network.prototype.edit]: the network as mutated and the calls made
    on the lobby, the engine and the client. *)
Definition edit (cfg : Helper.config) (sts : STSPolicies.store) (now : Z)
           (a : args) (n : t) : completion (t * list Effect) :=
  let oldNick := nick n in
  let oldRealname := realname n in
  match syncLobbyName (assignArgs a n) with
  | Throws x => Throws x
  | Normal n =>
      match validate cfg sts now n with
      | Throws x => Throws x
      | Normal (false, n, es) => Normal (n, es)
      | Normal (true, n, es) =>
          match irc n with
          | Some h =>
              let '(h, es') := syncIrc cfg oldNick oldRealname n h in
              Normal (set_irc (Some h) n, es ++ es' ++ [ClientSave])
          | None => Normal (n, es ++ [ClientSave])
          end
      end
  end.

(** [Network.prototype.getChannel]; [_.find] hands the predicate each
    element with its index. *)
Fixpoint findWithIndex (p : Chan.t -> nat -> bool) (i : nat)
         (l : list Chan.t) : option Chan.t :=
  match l with
  | [] => None
  | that :: r => if p that i then Some that else findWithIndex p (S i) r
  end.

Definition getChannel (n : t) (name : jstring) : option Chan.t :=
  let name := toLowerCase name in
  findWithIndex
    (fun that i => (0 <? i)%nat && JS.eqb (toLowerCase (Chan.name that)) name)
    0 (channels n).

(** [Network.prototype.addChannel]: the loop from index 1, then the
    splice. *)

(** The test that ends the loop at [compareChan]. *)
Definition stopsAt (newChan compareChan : Chan.t) : bool :=
  (localeCompare (Chan.name newChan) (Chan.name compareChan) <=? 0)%Z
  || negb (isChannelOrQuery compareChan).

Fixpoint scanFrom (newChan : Chan.t) (i : nat) (l : list Chan.t)
  : option nat :=
  match l with
  | [] => None
  | compareChan :: r =>
      if stopsAt newChan compareChan then Some i
      else scanFrom newChan (S i) r
  end.

Definition insertionIndex (chans : list Chan.t) (newChan : Chan.t) : nat :=
  if isChannelOrQuery newChan then
    match scanFrom newChan 1 (skipn 1 chans) with
    | Some i => i
    | None => length chans
    end
  else length chans.

(** [array.splice(index, 0, item)] for [index <= array.length]. *)
Definition splice0 (index : nat) (item : Chan.t) (l : list Chan.t)
  : list Chan.t :=
  firstn index l ++ item :: skipn index l.

Definition addChannel (n : t) (newChan : Chan.t) : t * nat :=
  let index := insertionIndex (channels n) newChan in
  (set_channels (splice0 index newChan (channels n)) n, index).

(** Successive calls of [addChannel]. *)
Definition addChannels (n : t) (l : list Chan.t) : t :=
  fold_left (fun n newChan => fst (addChannel n newChan)) l n.

(** The order the registry is kept in, and the shape [addChannel]
    gives it: channels and queries first, other entries after them. *)
Definition sortsAtOrBefore (a b : Chan.t) : Prop :=
  (localeCompare (Chan.name a) (Chan.name b) <= 0)%Z.

Definition channelSubsequence (chans : list Chan.t) : list Chan.t :=
  filter isChannelOrQuery (skipn 1 chans).

Fixpoint channelsLead (l : list Chan.t) : bool :=
  match l with
  | [] => true
  | c :: r =>
      if isChannelOrQuery c then channelsLead r
      else forallb (fun d => negb (isChannelOrQuery d)) r
  end.

End WithRuntime.


(** [Network.prototype.quit]: the policy store afterwards and the calls
    made on the engine. *)
Definition quit (cfg : Helper.config) (now : Z) (quitMessage : jsval)
           (sts : STSPolicies.store) (n : t)
  : STSPolicies.store * list Effect :=
  match irc n with
  | None => (sts, [])
  | Some _ =>
      (STSPolicies.refreshExpiration sts now (host n),
       [IrcQuit (or_else quitMessage (JString (Helper.leaveMessage cfg)))])
  end.

Record status := mkStatus {
  status_connected : bool;
  status_secure : bool
}.

(** [Network.prototype.getNetworkStatus] *)
Definition getNetworkStatus (n : t) : status :=
  let off := mkStatus false false in
  match irc n with
  | Some h =>
      match Irc.conn h with
      | Some c =>
          match Irc.connection_transport c with
          | Some transport =>
              match Irc.transport_socket transport with
              | Some sock =>
                  let isLocalhost :=
                    JS.eqb (Irc.remoteAddress sock) (lit "127.0.0.1") in
                  let isAuthorized :=
                    Irc.encrypted sock && Irc.authorized sock in
                  mkStatus (Irc.isConnected transport)
                           (isAuthorized || isLocalhost)
              | None => off
              end
          | None => off
          end
      | None => off
      end
  | None => off
  end.

(** The argument of the constructor; any of its properties may be
    missing. *)
Record attr := mkAttr {
  attr_name : option jstring;
  attr_nick : option jsval;
  attr_host : option jstring;
  attr_port : option jsnum;
  attr_tls : option bool;
  attr_userDisconnected : option bool;
  attr_rejectUnauthorized : option bool;
  attr_password : option jstring;
  attr_awayMessage : option jstring;
  attr_commands : option (list jstring);
  attr_username : option jstring;
  attr_realname : option jstring;
  attr_channels : option (list Chan.t);
  attr_irc : option (option Irc.t);
  attr_serverOptions : option ServerOptions;
  attr_chanCache : option (list jstring);
  attr_ignoreList : option (list jstring);
  attr_keepNick : option (option jstring);
  attr_uuid : option jstring
}.

(** One key of [_.defaults(this, attr, {...})]: the value given, or the
    default when it is missing. *)
Definition defaultTo {A : Type} (given : option A) (d : A) : A :=
  match given with
  | Some v => v
  | None => d
  end.

Definition set_uuid (v : jstring) (n : t) : t :=
  mk (name n) (nick n) (host n) (port n) (tls n) (userDisconnected n)
     (rejectUnauthorized n) (password n) (awayMessage n) (commands n)
     (username n) (realname n) (channels n) (irc n) (serverOptions n)
     (chanCache n) (ignoreList n) (keepNick n) v (highlightRegex n).

(** [function Network(attr)].  [uuidv4] is the identifier [uuidv4()]
    hands out when it is called; the lobby is built as
    [new Chan({name, type: Chan.Type.LOBBY})], without a key. *)
Definition Network (a : attr) (uuidv4 : jstring) : t :=
  let this :=
    mk (defaultTo (attr_name a) [])
       (defaultTo (attr_nick a) (JString []))
       (defaultTo (attr_host a) [])
       (defaultTo (attr_port a) (Num 6667))
       (defaultTo (attr_tls a) false)
       (defaultTo (attr_userDisconnected a) false)
       (defaultTo (attr_rejectUnauthorized a) false)
       (defaultTo (attr_password a) [])
       (defaultTo (attr_awayMessage a) [])
       (defaultTo (attr_commands a) [])
       (defaultTo (attr_username a) [])
       (defaultTo (attr_realname a) [])
       (defaultTo (attr_channels a) [])
       (defaultTo (attr_irc a) None)
       (defaultTo (attr_serverOptions a)
          (mkServerOptions [lit "#"; lit "&"]
             [lit "!"; lit "@"; lit "%"; lit "+"] []))
       (defaultTo (attr_chanCache a) [])
       (defaultTo (attr_ignoreList a) [])
       (defaultTo (attr_keepNick a) None)
       (defaultTo (attr_uuid a) [])
       None in
  let this :=
    match uuid this with
    | [] => set_uuid uuidv4 this
    | _ => this
    end in
  let this :=
    match name this with
    | [] => set_name (host this) this
    | _ => this
    end in
  set_channels (Chan.mk (name this) Chan.LOBBY [] :: channels this) this.

(** [Network.prototype.export]: the picked fields, and the channels and
    queries reduced to their name with the key (channel) or the type
    (query). *)
Inductive exportedChan :=
| ExportedChannel (name key : jstring)
| ExportedQuery (name : jstring) (type : Chan.Type_)
| ExportedName (name : jstring).

Definition exportChan (chan : Chan.t) : exportedChan :=
  if Chan.Type_eqb (Chan.type chan) Chan.CHANNEL then
    ExportedChannel (Chan.name chan) (Chan.key chan)
  else if Chan.Type_eqb (Chan.type chan) Chan.QUERY then
    ExportedQuery (Chan.name chan) (Chan.type chan)
  else ExportedName (Chan.name chan).

Record exported := mkExported {
  e_uuid : jstring;
  e_awayMessage : jstring;
  e_nick : jsval;
  e_name : jstring;
  e_host : jstring;
  e_port : jsnum;
  e_tls : bool;
  e_userDisconnected : bool;
  e_rejectUnauthorized : bool;
  e_password : jstring;
  e_username : jstring;
  e_realname : jstring;
  e_commands : list jstring;
  e_ignoreList : list jstring;
  e_channels : list exportedChan
}.

Definition export (n : t) : exported :=
  mkExported (uuid n) (awayMessage n) (nick n) (name n) (host n) (port n)
    (tls n) (userDisconnected n) (rejectUnauthorized n) (password n)
    (username n) (realname n) (commands n) (ignoreList n)
    (map exportChan (filter isChannelOrQuery (channels n))).

Section WithChanProjection.

Context {P : ChanProjection}.

(** Property values, of the network and of its clone. *)
Inductive value :=
| VString (s : jstring)
| VVal (v : jsval)
| VNumber (x : jsnum)
| VBool (b : bool)
| VStrings (l : list jstring)
| VChannels (l : list Chan.t)
| VIrc (h : option Irc.t)
| VServerOptions (o : ServerOptions)
| VNullable (k : option jstring)
| VRegExp (source : jstring)
| VViews (l : list ChanView)
| VStatus (s : status).

Definition object := list (string * value).

(** [Object.keys(this)] with the values they index. *)
Definition ownProperties (n : t) : object :=
  [ ("name", VString (name n));
    ("nick", VVal (nick n));
    ("host", VString (host n));
    ("port", VNumber (port n));
    ("tls", VBool (tls n));
    ("userDisconnected", VBool (userDisconnected n));
    ("rejectUnauthorized", VBool (rejectUnauthorized n));
    ("password", VString (password n));
    ("awayMessage", VString (awayMessage n));
    ("commands", VStrings (commands n));
    ("username", VString (username n));
    ("realname", VString (realname n));
    ("channels", VChannels (channels n));
    ("irc", VIrc (irc n));
    ("serverOptions", VServerOptions (serverOptions n));
    ("chanCache", VStrings (chanCache n));
    ("ignoreList", VStrings (ignoreList n));
    ("keepNick", VNullable (keepNick n));
    ("uuid", VString (uuid n)) ]
  ++ match highlightRegex n with
     | Some source => [("highlightRegex", VRegExp source)]
     | None => []
     end.

(** [obj[prop] = v] *)
Fixpoint assign (obj : object) (prop : string) (v : value) : object :=
  match obj with
  | [] => [(prop, v)]
  | (k, w) :: r =>
      if String.eqb k prop then (k, v) :: r else (k, w) :: assign r prop v
  end.

Fixpoint get (obj : object) (prop : string) : option value :=
  match obj with
  | [] => None
  | (k, w) :: r => if String.eqb k prop then Some w else get r prop
  end.

(** [Network.prototype.getFilteredClone] *)
Definition getFilteredClone (n : t) (lastActiveChannel lastMessage : jsval)
  : object :=
  let filteredNetwork :=
    fold_left
      (fun newNetwork '(prop, v) =>
         if String.eqb prop "channels" then
           assign newNetwork prop
             (VViews
                (map (fun channel =>
                        Chan_getFilteredClone channel lastActiveChannel
                                              lastMessage)
                     (channels n)))
         else if fieldsForClient prop then assign newNetwork prop v
         else newNetwork)
      (ownProperties n) [] in
  assign filteredNetwork "status" (VStatus (getNetworkStatus n)).

(** lodash [_.pick(obj, keys)]. *)
Fixpoint pick (obj : object) (keys : list string) : object :=
  match keys with
  | [] => []
  | k :: r =>
      match get obj k with
      | Some v => (k, v) :: pick obj r
      | None => pick obj r
      end
  end.

(** [Network.prototype.exportForEdit]; [displayNetwork] is
    [Helper.config.displayNetwork]. *)
Definition exportForEdit (displayNetwork : bool) (sts : STSPolicies.store)
           (now : Z) (n : t) : object :=
  let fieldsToReturn :=
    if displayNetwork then
      ["uuid"; "nick"; "name"; "host"; "port"; "tls"; "rejectUnauthorized";
       "password"; "username"; "realname"; "commands"]
    else ["name"; "nick"; "username"; "password"; "realname"] in
  let data := pick (ownProperties n) fieldsToReturn in
  assign data "hasSTSPolicy"
    (VBool (match STSPolicies.get sts now (host n) with
            | Some _ => true
            | None => false
            end)).

End WithChanProjection.

End Network.

(* ================================================================= *)
(** ** The client manager ([clientManager.js]) *)

(** Node's [path.basename] (POSIX): trailing separators are dropped and
    what follows the last remaining separator is returned. *)
Module Path.

Definition isSep (c : codeunit) : bool := N.eqb c 47.

Definition basename (path : jstring) : jstring :=
  rev (takeWhile (fun c => negb (isSep c)) (skipWhile isSep (rev path))).

End Path.

(** [JSON.parse] of a stored configuration ([None] when it throws a
    SyntaxError) and [JSON.stringify] of a new user's record. *)
Class Json := {
  ClientConfig : Type;
  JSON_parse : jstring -> option ClientConfig;
  JSON_stringify_user : jsval -> jsval -> jstring
}.

Module ClientManager.

Record row := mkRow {
  row_username : jstring;
  row_config : jstring
}.

(** The requests the manager sends to the database pool.  The driver
    answers through the callback given with the request, in a later
    turn of the event loop, never during the call to [query]. *)
Inductive query :=
| SelectUser (name : jstring)
| InsertUser (name : jstring) (config : jstring).

Inductive response :=
| Failed (err : jstring)
| Rows (rows : list row)
| Inserted.

Definition table := list row.

Definition duplicateEntry : jstring := lit "ER_DUP_ENTRY".

(** Modelled from the spec: the persistence collaborator, which is
    missing from the sources.  [loadOne(name)] yields the stored record
    or nothing; [create(name, blob)] succeeds or reports a duplicate,
    the name being unique. *)
Definition execute (q : query) (tb : table) : response * table :=
  match q with
  | SelectUser name =>
      (Rows (filter (fun r => JS.eqb (row_username r) name) tb), tb)
  | InsertUser name config =>
      if existsb (fun r => JS.eqb (row_username r) name) tb
      then (Failed duplicateEntry, tb)
      else (Inserted, tb ++ [mkRow name config])
  end.

Section WithJson.

Context {J : Json}.

(** A user session, as [new Client(manager, name, config)] builds it. *)
Record Client := mkClient {
  name : jstring;
  config : ClientConfig
}.

(** The manager: its cache of sessions, the requests awaiting their
    callback, and what [log.error] received. *)
Record t := mk {
  clients : list Client;
  pending : list query;
  logged : list jstring
}.

Definition ClientManager : t := mk [] [] [].

Definition databaseQuery (q : query) (m : t) : t :=
  mk (clients m) (pending m ++ [q]) (logged m).

Definition logError (err : jstring) (m : t) : t :=
  mk (clients m) (pending m) (logged m ++ [err]).

Definition pushClient (c : Client) (m : t) : t :=
  mk (clients m ++ [c]) (pending m) (logged m).

(** [ClientManager.prototype.loadUser] *)
Definition loadUser (name_ : jstring) (m : t) : option Client * t :=
  let client := find (fun u => JS.eqb (name u) name_) (clients m) in
  match client with
  | Some _ => (client, m)
  | None => (client, databaseQuery (SelectUser name_) m)
  end.

(** [ClientManager.prototype.findClient] *)
Definition findClient (name_ : jstring) (m : t) : option Client * t :=
  loadUser name_ m.

(** The callback [loadUser] hands to [query]: [rows.forEach] stops at
    the first row whose configuration does not parse. *)
Fixpoint forEachRow (rows : list row) (m : t) : t * option exn :=
  match rows with
  | [] => (m, None)
  | r :: rest =>
      match JSON_parse (row_config r) with
      | Some config_ =>
          forEachRow rest (pushClient (mkClient (row_username r) config_) m)
      | None => (m, Some (Error (lit "SyntaxError")))
      end
  end.

Definition loadUserCallback (resp : response) (m : t) : t * option exn :=
  match resp with
  | Failed err => (logError err m, None)
  | Rows rows => forEachRow rows m
  | Inserted => (m, None)
  end.

(** [ClientManager.prototype.addUser] *)
Definition addUser (name_ : jstring) (password enableLog : jsval) (m : t)
  : completion (bool * t) :=
  if negb (JS.eqb (Path.basename name_) name_) then
    Throws (Error (name_ ++ lit " is an invalid username."))
  else
    let user := JSON_stringify_user (or_else password (JString [])) enableLog in
    Normal (true, databaseQuery (InsertUser name_ user) m).

Definition addUserCallback (resp : response) (m : t) : t * option exn :=
  match resp with
  | Failed err => (logError err m, None)
  | _ => (m, None)
  end.

(** One turn of the event loop: the oldest request is answered by the
    database and its callback runs. *)
Definition turn (w : t * table) : t * table * option exn :=
  let '(m, tb) := w in
  match pending m with
  | [] => (m, tb, None)
  | q :: rest =>
      let '(resp, tb') := execute q tb in
      let m := mk (clients m) rest (logged m) in
      let '(m', e) :=
        match q with
        | SelectUser _ => loadUserCallback resp m
        | InsertUser _ _ => addUserCallback resp m
        end in
      (m', tb', e)
  end.

(** [ClientManager.prototype.getUsers] *)
Definition getUsers (m : t) : list jstring := map name (clients m).

End WithJson.

End ClientManager.

(* ================================================================= *)
(** ** A concrete runtime and sample data, for running the model *)

Module Sample.

(** Case mapping and base-sensitivity collation restricted to ASCII:
    letters are folded to lower case and strings compared unit by
    unit. *)
Definition lowerUnit (c : codeunit) : codeunit :=
  if N.leb 65 c && N.leb c 90 then (c + 32)%N else c.

Fixpoint compareFolded (a b : jstring) : Z :=
  match a, b with
  | [], [] => 0
  | [], _ :: _ => -1
  | _ :: _, [] => 1
  | x :: a', y :: b' =>
      match N.compare (lowerUnit x) (lowerUnit y) with
      | Lt => -1
      | Gt => 1
      | Eq => compareFolded a' b'
      end
  end%Z.

Definition asciiRuntime : Runtime :=
  {| toLowerCase := map lowerUnit; localeCompare := compareFolded |}.

(** Channels project to their name. *)
Definition nameProjection : ChanProjection :=
  {| ChanView := jstring;
     Chan_getFilteredClone := fun c _ _ => Chan.name c |}.

(** Configurations are kept as their text. *)
Definition textJson : Json :=
  {| ClientConfig := jstring;
     JSON_parse := fun s => Some s;
     JSON_stringify_user := fun password log =>
       lit "{password:" ++ toString password ++ lit ",log:"
       ++ toString log ++ lit "}" |}.

Definition chan (name : string) (type : Chan.Type_) : Chan.t :=
  Chan.mk (lit name) type [].

Definition serverOptions : ServerOptions :=
  mkServerOptions [lit "#"; lit "&"] [lit "!"; lit "@"; lit "%"; lit "+"] [].

(** A network as the constructor leaves it, for a given nick and host. *)
Definition network (name nick host : string) (chans : list Chan.t)
  : Network.t :=
  Network.mk (lit name) (JString (lit nick)) (lit host) (Num 6667) false
    false false (lit "hunter2") [] [] [] [] (chan name Chan.LOBBY :: chans)
    None serverOptions [] [lit "*!*@spam.example"] None
    (lit "6f1c2b1e-0000-4000-8000-000000000001") None.

Definition config (lockNetwork public : bool) : Helper.config :=
  Helper.mkConfig lockNetwork public (lit "irc.example.org") (Num 6697) true
    true (lit "The Lounge - https://thelounge.chat") false
    (lit "lounge-user").

Definition form (nick host : string) : Network.args :=
  Network.mkArgs (JString (lit nick)) (JString (lit host)) JUndefined
    (JString (lit "6667")) (JBool false) (JBool false) JUndefined JUndefined
    JUndefined JUndefined.

(** A handle of the engine with an established, verified TLS
    transport. *)
Definition handle : Irc.t :=
  Irc.mk
    (Some (Irc.mkConnection true
             (Some (Irc.mkTransport
                      (Some (Irc.mkSocket (lit "203.0.113.7") true true))
                      true))))
    (Irc.mkOptions (JString (lit "alice")) (lit "irc.example.org")
       (Num 6697) [] (lit "Alice") true true (lit "alice"))
    (Irc.mkUser (JString (lit "alice")) (lit "Alice") (lit "alice"))
    true.

Definition connectedNetwork : Network.t :=
  Network.set_irc (Some handle)
    (network "Example" "alice" "irc.example.org" []).

Definition policies : STSPolicies.store :=
  STSPolicies.set [] 0 (lit "irc.example.org") 6697 3600.

(** What a caller hands the constructor for a new network: name,
    nick and host, everything else left out. *)
Definition attr : Network.attr :=
  Network.mkAttr (Some (lit "Example")) (Some (JString (lit "alice")))
    (Some (lit "irc.example.org")) None None None None None None None None
    None None None None None None None None.

End Sample.

(* ================================================================= *)
(** ** Strings *)

Lemma eqb_refl (a : jstring) : JS.eqb a a = true.
Proof.
  induction a as [|x a IH]; simpl; [reflexivity|].
  now rewrite N.eqb_refl, IH.
Qed.

Lemma eqb_eq (a b : jstring) : JS.eqb a b = true <-> a = b.
Proof.
  split.
  - revert b; induction a as [|x a IH]; intros [|y b]; simpl;
      try discriminate; [reflexivity|].
    intros H. apply andb_true_iff in H as [Hx Hr].
    apply N.eqb_eq in Hx. f_equal; [exact Hx | now apply IH].
  - intros ->. apply eqb_refl.
Qed.

Lemma eqb_neq (a b : jstring) : JS.eqb a b = false <-> a <> b.
Proof.
  rewrite <- eqb_eq. destruct (JS.eqb a b); split; congruence.
Qed.

(* ================================================================= *)
(** ** The client projection *)

Section CloneFacts.

Context {P : ChanProjection}.

Import Network.

Lemma getFilteredClone_shape (n : t) (a b : jsval) :
  getFilteredClone n a b =
  [ ("name", VString (name n));
    ("nick", VVal (nick n));
    ("channels",
     VViews (map (fun channel => Chan_getFilteredClone channel a b)
                 (channels n)));
    ("serverOptions", VServerOptions (serverOptions n));
    ("uuid", VString (uuid n));
    ("status", VStatus (getNetworkStatus n)) ].
Proof.
  unfold getFilteredClone, ownProperties.
  destruct (highlightRegex n); reflexivity.
Qed.

(** C1.  Whatever the network holds and whatever context arguments are
    passed, the filtered clone has exactly the whitelisted fields
    [uuid], [name], [nick], [serverOptions] with the network's values,
    the channels' own projections under [channels], and the computed
    [status]; [password], [ignoreList] and the connection handle [irc]
    are absent; and the clone does not depend on the password. *)
Theorem getFilteredClone_whitelist (n : t) (lastActiveChannel lastMessage : jsval) :
  let clone := getFilteredClone n lastActiveChannel lastMessage in
  (forall prop v, In (prop, v) clone ->
     In prop ["uuid"; "name"; "nick"; "serverOptions"; "channels"; "status"])
  /\ get clone "password" = None
  /\ get clone "ignoreList" = None
  /\ get clone "irc" = None
  /\ get clone "uuid" = Some (VString (uuid n))
  /\ get clone "name" = Some (VString (name n))
  /\ get clone "nick" = Some (VVal (nick n))
  /\ get clone "serverOptions" = Some (VServerOptions (serverOptions n))
  /\ get clone "channels" =
       Some (VViews (map (fun channel =>
                            Chan_getFilteredClone channel lastActiveChannel
                                                  lastMessage)
                         (channels n)))
  /\ get clone "status" = Some (VStatus (getNetworkStatus n))
  /\ (forall secret,
        getFilteredClone (set_password secret n) lastActiveChannel lastMessage
        = clone).
Proof.
  intros clone. subst clone. rewrite getFilteredClone_shape.
  repeat split; try reflexivity.
  - intros prop v H. simpl in H.
    repeat (destruct H as [H | H]; [inversion H; subst; simpl; tauto|]).
    contradiction.
  - intros secret. now rewrite getFilteredClone_shape.
Qed.

End CloneFacts.

(* ================================================================= *)
(** ** Validation *)

Section ValidateFacts.

Context {R : Runtime}.

Import Network.

Lemma firstn_Forall {A} (Q : A -> Prop) (k : nat) (l : list A) :
  Forall Q l -> Forall Q (firstn k l).
Proof.
  intros H. revert k. induction H as [|x l Hx Hl IH]; intros [|k]; simpl;
    constructor; auto.
Qed.

Lemma cleanNick_clean (str : jstring) :
  Forall (fun c => nickClass c = false) (cleanNick str).
Proof.
  unfold cleanNick, substring0, replaceAll. apply firstn_Forall.
  induction str as [|c str IH]; simpl; constructor; [|exact IH].
  destruct (nickClass c) eqn:E; [reflexivity | exact E].
Qed.

Lemma nickClass_false (c : codeunit) :
  nickClass c = false ->
  c <> 0%N /\ isWhiteSpace c = false /\ c <> 58%N /\ c <> 33%N /\ c <> 64%N.
Proof.
  unfold nickClass. intros H.
  repeat (apply orb_false_iff in H as [H ?]).
  repeat split; try (apply N.eqb_neq; assumption); assumption.
Qed.

Lemma cleanNick_length (str : jstring) :
  (length (cleanNick str) <= 100)%nat.
Proof. unfold cleanNick, substring0. apply firstn_le_length. Qed.

(** What [normalize] leaves in each field. *)
Ltac normalize_steps :=
  unfold normalize, defaultPort, normalizeName, normalizeHost,
    normalizePassword, normalizeRealname, normalizeUsername, deriveUsername,
    normalizeNick, setNick;
  cbv zeta;
  repeat match goal with
         | |- context [match ?x with _ => _ end] => destruct x
         end;
  reflexivity.

Lemma normalize_nick cfg n :
  nick (normalize cfg n) =
  JString (cleanNick (toString (or_else (nick n)
                                        (JString (Helper.getDefaultNick cfg))))).
Proof. normalize_steps. Qed.

Lemma normalize_host cfg n :
  host (normalize cfg n) = toLowerCase (cleanString (host n)).
Proof. normalize_steps. Qed.

Lemma normalize_channels cfg n : channels (normalize cfg n) = channels n.
Proof. normalize_steps. Qed.

Lemma normalize_irc cfg n : irc (normalize cfg n) = irc n.
Proof. normalize_steps. Qed.

Lemma normalize_tls cfg n : tls (normalize cfg n) = tls n.
Proof. normalize_steps. Qed.

Lemma normalize_commands cfg n : commands (normalize cfg n) = commands n.
Proof. normalize_steps. Qed.

Lemma length_zero_iff {A} (l : list A) :
  (length l =? 0)%nat = true <-> l = [].
Proof. destruct l; simpl; split; congruence. Qed.

Lemma applyLock_channels cfg m : channels (applyLock cfg m) = channels m.
Proof. reflexivity. Qed.

Lemma checkHostAndSTS_exits sts now k b n' es :
  checkHostAndSTS sts now k = Normal (b, n', es) ->
  (host k = [] /\ b = false /\ n' = k
   /\ exists lobby, hd_error (channels k) = Some lobby
                    /\ es = [PushMessage lobby emptyHostMsg true])
  \/ (host k <> [] /\ b = true
      /\ exists p lobby,
          STSPolicies.get sts now (host k) = Some p
          /\ tls k = false
          /\ n' = applySTS p k
          /\ hd_error (channels k) = Some lobby
          /\ es = [PushMessage lobby
                     (stsMsg (host k) (STSPolicies.port p)) true])
  \/ (host k <> [] /\ b = true /\ n' = k /\ es = []
      /\ (STSPolicies.get sts now (host k) = None \/ tls k = true)).
Proof.
  unfold checkHostAndSTS, lobbyPush.
  destruct (length (host k) =? 0)%nat eqn:Hlen.
  - apply length_zero_iff in Hlen.
    destruct (channels k) as [|lobby rest]; [discriminate|].
    intros H; injection H as <- <- <-. left. repeat split; auto.
    exists lobby; split; reflexivity.
  - assert (Hne : host k <> []).
    { intros E. rewrite E in Hlen. discriminate. }
    destruct (STSPolicies.get sts now (host k)) as [p|].
    + destruct (tls k).
      * intros H; injection H as <- <- <-. right; right. repeat split; auto.
      * unfold negb. destruct (channels k) as [|lobby rest]; [discriminate|].
        intros H; injection H as <- <- <-. right; left.
        repeat split; auto. exists p, lobby. repeat split; auto.
    + intros H; injection H as <- <- <-. right; right. repeat split; auto.
Qed.

(** The exits of [validate], in source order: the lock rejection, the
    empty-host rejection, the STS upgrade, and plain acceptance. *)
Lemma validate_exits cfg sts now n b n' es :
  validate cfg sts now n = Normal (b, n', es) ->
  (Helper.lockNetwork cfg = true
   /\ hostNotAllowed cfg (normalize cfg n) = true
   /\ b = false /\ n' = normalize cfg n
   /\ exists lobby, hd_error (channels n) = Some lobby
                    /\ es = [PushMessage lobby lockedHostMsg true])
  \/ ((Helper.lockNetwork cfg = true ->
       hostNotAllowed cfg (normalize cfg n) = false)
      /\ checkHostAndSTS sts now (afterLock cfg n) = Normal (b, n', es)).
Proof.
  unfold validate, afterLock.
  destruct (Helper.lockNetwork cfg) eqn:Hlock.
  - destruct (hostNotAllowed cfg (normalize cfg n)) eqn:Hbad.
    + unfold lobbyPush. rewrite normalize_channels.
      destruct (channels n) as [|lobby rest] eqn:Hch; [discriminate|].
      intros H; injection H as <- <- <-. left. repeat split; auto.
      exists lobby; split; reflexivity.
    + intros H. right. split; [reflexivity | exact H].
  - intros H. right. split; [discriminate | exact H].
Qed.

Lemma afterLock_channels cfg n : channels (afterLock cfg n) = channels n.
Proof.
  unfold afterLock. destruct (Helper.lockNetwork cfg).
  - rewrite applyLock_channels. apply normalize_channels.
  - apply normalize_channels.
Qed.

Lemma applyLock_nick cfg m : nick (applyLock cfg m) = nick m.
Proof. reflexivity. Qed.

Lemma applyLock_irc cfg m : irc (applyLock cfg m) = irc m.
Proof. reflexivity. Qed.

Lemma applyLock_commands cfg m : commands (applyLock cfg m) = commands m.
Proof. reflexivity. Qed.

Lemma applySTS_nick p m : nick (applySTS p m) = nick m.
Proof. reflexivity. Qed.

Lemma applySTS_host p m : host (applySTS p m) = host m.
Proof. reflexivity. Qed.

Lemma afterLock_nick cfg n : nick (afterLock cfg n) = nick (normalize cfg n).
Proof.
  unfold afterLock. destruct (Helper.lockNetwork cfg);
    [apply applyLock_nick | reflexivity].
Qed.

Lemma afterLock_tls cfg n :
  tls (afterLock cfg n) = tlsWhenPolicyConsulted cfg n.
Proof.
  unfold afterLock, tlsWhenPolicyConsulted.
  destruct (Helper.lockNetwork cfg); [reflexivity | apply normalize_tls].
Qed.

Lemma afterLock_host cfg n :
  host (afterLock cfg n) =
  if Helper.lockNetwork cfg then Helper.defaults_host cfg
  else toLowerCase (cleanString (host n)).
Proof.
  unfold afterLock.
  destruct (Helper.lockNetwork cfg); [reflexivity | apply normalize_host].
Qed.

(** With a lobby in place [validate] returns. *)
Lemma validate_returns cfg sts now n :
  channels n <> [] ->
  exists b n' es, validate cfg sts now n = Normal (b, n', es).
Proof.
  intros Hne.
  assert (Hpush : forall k msg,
             channels k = channels n ->
             exists e, lobbyPush k msg = Normal e).
  { intros k msg Hk. unfold lobbyPush. rewrite Hk.
    destruct (channels n) as [|lobby rest]; [contradiction | eauto]. }
  assert (Htail : forall k,
             channels k = channels n ->
             exists b n' es, checkHostAndSTS sts now k = Normal (b, n', es)).
  { intros k Hk. unfold checkHostAndSTS.
    destruct (length (host k) =? 0)%nat.
    - destruct (Hpush k emptyHostMsg Hk) as [e ->]. eauto.
    - destruct (STSPolicies.get sts now (host k)) as [p|]; [|eauto].
      destruct (negb (tls k)); [|eauto].
      destruct (Hpush k (stsMsg (host k) (STSPolicies.port p)) Hk)
        as [e ->]. eauto. }
  unfold validate. destruct (Helper.lockNetwork cfg).
  - destruct (hostNotAllowed cfg (normalize cfg n)).
    + destruct (Hpush (normalize cfg n) lockedHostMsg
                  (normalize_channels cfg n)) as [e ->]. eauto.
    + apply Htail. rewrite applyLock_channels. apply normalize_channels.
  - apply Htail. apply normalize_channels.
Qed.

(** Every normal exit of [validate] leaves the nick that [normalize]
    produced. *)
Lemma validate_nick cfg sts now n b n' es :
  validate cfg sts now n = Normal (b, n', es) ->
  nick n' = nick (normalize cfg n).
Proof.
  intros H. apply validate_exits in H as [(_ & _ & _ & -> & _) | [_ H]];
    [reflexivity|].
  apply checkHostAndSTS_exits in H
    as [(_ & _ & -> & _) | [(_ & _ & p & l & _ & _ & -> & _)
                           | (_ & _ & -> & _)]];
    try rewrite applySTS_nick; apply afterLock_nick.
Qed.

Lemma applyLock_sets cfg m :
  host (applyLock cfg m) = Helper.defaults_host cfg
  /\ port (applyLock cfg m) = Helper.defaults_port cfg
  /\ tls (applyLock cfg m) = Helper.defaults_tls cfg
  /\ rejectUnauthorized (applyLock cfg m)
     = Helper.defaults_rejectUnauthorized cfg.
Proof. repeat split. Qed.

(** C4 (amended).  Let [validate] succeed while the store holds an
    unexpired policy for the validated host.  The STS check reads the
    TLS flag as it stands after the lock: the network's own flag when
    the deployment is not locked, the administrator's default when it
    is.  If that flag is off, the network ends with TLS on, certificate
    verification on and the policy's port, and exactly the notice of
    the upgrade has been pushed to the lobby.  If that flag is on,
    nothing is pushed and no upgrade takes place; under a lock the
    network then ends with the administrator's host, port and
    certificate flag, whatever its own TLS flag was. *)
Theorem validate_sts_upgrade cfg sts now n n' es p :
  validate cfg sts now n = Normal (true, n', es) ->
  STSPolicies.get sts now (host n') = Some p ->
  ((if Helper.lockNetwork cfg then Helper.defaults_tls cfg else tls n)
   = false ->
   tls n' = true
   /\ rejectUnauthorized n' = true
   /\ port n' = Num (STSPolicies.port p)
   /\ exists lobby,
       hd_error (channels n) = Some lobby
       /\ es = [PushMessage lobby
                  (Msg.mk Msg.ERROR
                     (host n'
                      ++ lit " has an active strict transport security policy, will connect to port "
                      ++ Z_to_jstring (STSPolicies.port p)
                      ++ lit " over a secure connection."))
                  true])
  /\ ((if Helper.lockNetwork cfg then Helper.defaults_tls cfg else tls n)
      = true ->
      es = []
      /\ tls n' = true
      /\ (Helper.lockNetwork cfg = true ->
          host n' = Helper.defaults_host cfg
          /\ port n' = Helper.defaults_port cfg
          /\ rejectUnauthorized n'
             = Helper.defaults_rejectUnauthorized cfg)).
Proof.
  intros H Hget.
  change (if Helper.lockNetwork cfg then Helper.defaults_tls cfg else tls n)
    with (tlsWhenPolicyConsulted cfg n).
  apply validate_exits in H as [(_ & _ & Hb & _) | [_ H]]; [discriminate|].
  apply checkHostAndSTS_exits in H
    as [(_ & Hb & _) | [(_ & _ & q & l & Hq & Htls & -> & Hl & ->)
                       | (_ & _ & -> & -> & Hno)]].
  - discriminate.
  - rewrite applySTS_host in *.
    rewrite Hq in Hget. injection Hget as ->.
    rewrite afterLock_channels in Hl.
    rewrite afterLock_tls in Htls. split.
    + intros _.
      split; [reflexivity|]. split; [reflexivity|]. split; [reflexivity|].
      exists l. split; [exact Hl | reflexivity].
    + intros Hon. congruence.
  - rewrite afterLock_tls in Hno. split.
    + intros Hoff. destruct Hno; congruence.
    + intros Hon. split; [reflexivity|].
      split; [now rewrite afterLock_tls|].
      intros Hlock. unfold afterLock. rewrite Hlock.
      destruct (applyLock_sets cfg (normalize cfg n)) as (Hh & Hp & _ & Hr).
      auto.
Qed.

(** C5 (amended).  [validate] returns (the lobby being in place) and
    leaves as nick the input nick, or the configured default nick when
    the input is empty or missing, in which every NUL, white-space, [:],
    [!] and [@] code unit has been replaced by an underscore and which
    has been cut to 100 code units; every other code unit, control
    characters included, is kept.  So the nick holds none of NUL, white
    space, [:], [!], [@] and has at most 100 code units. *)
Theorem validate_nick_cleaned cfg sts now n :
  channels n <> [] ->
  let raw := if truthy (nick n) then toString (nick n)
             else Helper.getDefaultNick cfg in
  let cleaned :=
    firstn 100 (map (fun c => if nickClass c then 95%N else c) raw) in
  exists b n' es,
    validate cfg sts now n = Normal (b, n', es)
    /\ nick n' = JString cleaned
    /\ (forall c, In c cleaned ->
          c <> 0%N /\ isWhiteSpace c = false
          /\ c <> 58%N /\ c <> 33%N /\ c <> 64%N)
    /\ (length cleaned <= 100)%nat
    /\ (forall c, In c cleaned -> c = 95%N \/ In c raw).
Proof.
  intros Hne raw cleaned.
  destruct (validate_returns cfg sts now n Hne) as (b & n' & es & H).
  exists b, n', es. split; [exact H|].
  assert (Hraw : toString (or_else (nick n)
                                   (JString (Helper.getDefaultNick cfg))) = raw).
  { unfold raw, or_else. destruct (truthy (nick n)); reflexivity. }
  apply validate_nick in H. rewrite normalize_nick, Hraw in H.
  split; [exact H|].
  split.
  { intros c Hc. apply nickClass_false.
    pose proof (cleanNick_clean raw) as Hall.
    rewrite Forall_forall in Hall. now apply Hall. }
  split; [apply cleanNick_length|].
  intros c Hc. unfold cleaned in Hc.
  assert (Hin : In c (map (fun c => if nickClass c then 95%N else c) raw)).
  { revert Hc. generalize (map (fun c => if nickClass c then 95%N else c) raw).
    intros l. generalize 100%nat. induction l as [|x l IH]; intros [|k];
      simpl; try tauto. intros [->|Hc]; [now left | right; eauto]. }
  apply in_map_iff in Hin as (x & Hx & Hin).
  revert Hx. destruct (nickClass x); intros <-; [now left | now right].
Qed.

(** C6 (amended).  [validate] returns (the lobby being in place) and
    leaves as host the input host with NUL, CR and LF removed, cut to
    300 code units and then lowercased, unless the deployment is locked
    to a fixed network and the lock check lets the network through;
    then the host is the administrator's default host. *)
Theorem validate_host cfg sts now n :
  channels n <> [] ->
  let cleaned :=
    toLowerCase (firstn 300 (filter (fun c => negb (stringClass c)) (host n)))
  in
  exists b n' es,
    validate cfg sts now n = Normal (b, n', es)
    /\ host n' =
       if Helper.lockNetwork cfg
          && negb (hostNotAllowed cfg (normalize cfg n))
       then Helper.defaults_host cfg
       else cleaned.
Proof.
  intros Hne cleaned.
  destruct (validate_returns cfg sts now n Hne) as (b & n' & es & H).
  exists b, n', es. split; [exact H|].
  apply validate_exits in H as [(-> & -> & _ & -> & _) | [Hl H]].
  - apply normalize_host.
  - assert (Hh : host n' = host (afterLock cfg n)).
    { apply checkHostAndSTS_exits in H
        as [(_ & _ & -> & _) | [(_ & _ & p & l & _ & _ & -> & _)
                               | (_ & _ & -> & _)]];
        try rewrite applySTS_host; reflexivity. }
    rewrite Hh, afterLock_host.
    destruct (Helper.lockNetwork cfg); [|reflexivity].
    now rewrite Hl.
Qed.

End ValidateFacts.

(* ================================================================= *)
(** ** Editing *)

Section EditFacts.

Context {R : Runtime}.

Import Network.

Lemma syncLobbyName_Normal m n0 :
  syncLobbyName m = Normal n0 ->
  exists lobby rest,
    channels m = lobby :: rest
    /\ n0 = set_channels (Chan.set_name (name m) lobby :: rest) m.
Proof.
  unfold syncLobbyName. destruct (channels m) as [|lobby rest];
    [discriminate|].
  intros H; injection H as <-. now exists lobby, rest.
Qed.

Lemma set_channels_fields l m :
  nick (set_channels l m) = nick m
  /\ host (set_channels l m) = host m
  /\ irc (set_channels l m) = irc m
  /\ commands (set_channels l m) = commands m
  /\ channels (set_channels l m) = l.
Proof. repeat split. Qed.

Lemma assignArgs_fields a n :
  nick (assignArgs a n) = a_nick a
  /\ host (assignArgs a n) = stringOrEmpty (a_host a)
  /\ name (assignArgs a n) =
       orDefault (stringOrEmpty (a_name a)) (stringOrEmpty (a_host a))
  /\ irc (assignArgs a n) = irc n
  /\ commands (assignArgs a n) = splitCommands (a_commands a)
  /\ channels (assignArgs a n) = channels n.
Proof. repeat split. Qed.

(** C2 (amended).  When [validate] fails during [edit], [edit] returns
    at once: the connection handle is untouched and the only call made
    is the error message pushed to the lobby, so nothing reaches the
    engine, nothing is emitted to the client and nothing is saved.  The
    configuration is not restored: the network keeps the submitted
    values as [validate] normalised them (nick, commands and the rest),
    the lobby carries the submitted display name, and after a lock
    rejection the host is the submitted host, not the administrator's. *)
Theorem edit_rejected cfg sts now a n n0 n1 es :
  syncLobbyName (assignArgs a n) = Normal n0 ->
  validate cfg sts now n0 = Normal (false, n1, es) ->
  edit cfg sts now a n = Normal (n1, es)
  /\ irc n1 = irc n
  /\ (exists lobby msg,
        es = [PushMessage lobby msg true]
        /\ hd_error (channels n1) = Some lobby
        /\ Chan.name lobby =
           orDefault (stringOrEmpty (a_name a)) (stringOrEmpty (a_host a)))
  /\ (n1 = normalize cfg n0 \/ n1 = applyLock cfg (normalize cfg n0))
  /\ nick n1 =
     JString (cleanNick (toString (or_else (a_nick a)
                                           (JString (Helper.getDefaultNick cfg)))))
  /\ commands n1 = splitCommands (a_commands a)
  /\ (Helper.lockNetwork cfg = true ->
      hostNotAllowed cfg (normalize cfg n0) = true ->
      host n1 = toLowerCase (cleanString (stringOrEmpty (a_host a)))
      /\ host n1 <> Helper.defaults_host cfg).
Proof.
  intros Hsync Hval.
  split.
  { unfold edit. rewrite Hsync, Hval. reflexivity. }
  destruct (syncLobbyName_Normal _ _ Hsync) as (lobby & rest & Hch & Hn0).
  destruct (assignArgs_fields a n) as (Anick & Ahost & Aname & Airc & Acmd & Ach).
  destruct (set_channels_fields
              (Chan.set_name (name (assignArgs a n)) lobby :: rest)
              (assignArgs a n)) as (Snick & Shost & Sirc & Scmd & Sch).
  rewrite <- Hn0 in Snick, Shost, Sirc, Scmd, Sch.
  assert (Hnick : nick n1 = nick (normalize cfg n0))
    by (eapply validate_nick; eauto).
  assert (Hshape : n1 = normalize cfg n0 \/ n1 = applyLock cfg (normalize cfg n0)).
  { apply validate_exits in Hval as [(_ & _ & _ & -> & _) | [_ H]];
      [now left|].
    apply checkHostAndSTS_exits in H
      as [(_ & _ & -> & _) | [(_ & Hb & _) | (_ & Hb & _)]];
      try discriminate.
    unfold afterLock. destruct (Helper.lockNetwork cfg); auto. }
  assert (Hirc : irc n1 = irc n).
  { destruct Hshape as [-> | ->]; [|rewrite applyLock_irc];
      rewrite normalize_irc; congruence. }
  assert (Hchn : channels n1 = channels n0).
  { destruct Hshape as [-> | ->]; [|rewrite applyLock_channels];
      apply normalize_channels. }
  split; [exact Hirc|].
  split.
  { assert (Hhd : hd_error (channels n0)
                  = Some (Chan.set_name (name (assignArgs a n)) lobby))
      by (rewrite Sch; reflexivity).
    exists (Chan.set_name (name (assignArgs a n)) lobby).
    apply validate_exits in Hval as [(_ & _ & _ & _ & l & Hl & ->) | [_ H]].
    - rewrite Hhd in Hl. injection Hl as <-.
      exists lockedHostMsg. rewrite Hchn. repeat split; auto.
    - apply checkHostAndSTS_exits in H
        as [(_ & _ & _ & l & Hl & ->) | [(_ & Hb & _) | (_ & Hb & _)]];
        try discriminate.
      rewrite afterLock_channels, Hhd in Hl. injection Hl as <-.
      exists emptyHostMsg. rewrite Hchn. repeat split; auto. }
  split; [exact Hshape|].
  split.
  { rewrite Hnick, normalize_nick, Snick, Anick. reflexivity. }
  split.
  { destruct Hshape as [-> | ->]; [|rewrite applyLock_commands];
      rewrite normalize_commands; congruence. }
  intros Hlock Hbad.
  assert (Hn1 : n1 = normalize cfg n0).
  { apply validate_exits in Hval as [(_ & _ & _ & -> & _) | [Hok _]];
      [reflexivity|].
    rewrite (Hok Hlock) in Hbad. discriminate. }
  assert (Hhost : host n1 = toLowerCase (cleanString (stringOrEmpty (a_host a)))).
  { rewrite Hn1, normalize_host, Shost, Ahost. reflexivity. }
  split; [exact Hhost|].
  rewrite Hn1. revert Hbad. unfold hostNotAllowed.
  destruct (JS.eqb (host (normalize cfg n0)) (Helper.defaults_host cfg)) eqn:E.
  - rewrite andb_false_r. discriminate.
  - intros _. now apply eqb_neq.
Qed.

End EditFacts.

(* ================================================================= *)
(** ** The channel registry *)

Section RegistryFacts.

Context {R : Runtime}.

Import Network.

Lemma scanFrom_Some newChan l : forall i j,
  scanFrom newChan i l = Some j ->
  exists pre c post,
    l = pre ++ c :: post
    /\ j = (i + length pre)%nat
    /\ Forall (fun d => stopsAt newChan d = false) pre
    /\ stopsAt newChan c = true.
Proof.
  induction l as [|c l IH]; intros i j; simpl; [discriminate|].
  destruct (stopsAt newChan c) eqn:E.
  - intros H; injection H as <-. exists [], c, l. simpl.
    repeat split; auto.
  - intros H. apply IH in H as (pre & d & post & -> & -> & Hpre & Hd).
    exists (c :: pre), d, post. simpl. repeat split; auto; lia.
Qed.

Lemma scanFrom_None newChan l : forall i,
  scanFrom newChan i l = None ->
  Forall (fun d => stopsAt newChan d = false) l.
Proof.
  induction l as [|c l IH]; intros i; simpl; [constructor|].
  destruct (stopsAt newChan c) eqn:E; [discriminate|].
  intros H. constructor; eauto.
Qed.

(** The two ways a channel or query is placed: before the first entry
    that ends the loop, or after all entries when none does. *)
Lemma addChannel_placement lobby rest newChan :
  isChannelOrQuery newChan = true ->
  (exists pre c post,
      rest = pre ++ c :: post
      /\ Forall (fun d => stopsAt newChan d = false) pre
      /\ stopsAt newChan c = true
      /\ insertionIndex (lobby :: rest) newChan = S (length pre)
      /\ splice0 (insertionIndex (lobby :: rest) newChan) newChan
                 (lobby :: rest)
         = lobby :: pre ++ newChan :: c :: post)
  \/ (Forall (fun d => stopsAt newChan d = false) rest
      /\ insertionIndex (lobby :: rest) newChan = S (length rest)
      /\ splice0 (insertionIndex (lobby :: rest) newChan) newChan
                 (lobby :: rest)
         = lobby :: rest ++ [newChan]).
Proof.
  intros Hcq. unfold insertionIndex. rewrite Hcq. simpl skipn.
  destruct (scanFrom newChan 1 rest) as [j|] eqn:E.
  - apply scanFrom_Some in E as (pre & c & post & -> & -> & Hpre & Hc).
    left. exists pre, c, post. repeat split; auto.
    unfold splice0. simpl. f_equal.
    rewrite firstn_app, firstn_all, Nat.sub_diag, skipn_app, skipn_all,
      Nat.sub_diag. simpl. now rewrite app_nil_r.
  - apply scanFrom_None in E. right. repeat split; auto.
    unfold splice0. simpl. f_equal.
    now rewrite firstn_all, skipn_all.
Qed.

Lemma stopsAt_false newChan d :
  stopsAt newChan d = false ->
  isChannelOrQuery d = true
  /\ (0 < localeCompare (Chan.name newChan) (Chan.name d))%Z.
Proof.
  unfold stopsAt. intros H. apply orb_false_iff in H as [Hc Hk].
  apply negb_false_iff in Hk. apply Z.leb_gt in Hc. now split.
Qed.

Lemma filter_all (l : list Chan.t) :
  Forall (fun d => isChannelOrQuery d = true) l ->
  filter isChannelOrQuery l = l.
Proof.
  induction 1 as [|d l Hd _ IH]; simpl; [reflexivity|].
  now rewrite Hd, IH.
Qed.

Lemma filter_none (l : list Chan.t) :
  forallb (fun d => negb (isChannelOrQuery d)) l = true ->
  filter isChannelOrQuery l = [].
Proof.
  induction l as [|d l IH]; simpl; [reflexivity|].
  intros H. apply andb_true_iff in H as [Hd Hl].
  apply negb_true_iff in Hd. rewrite Hd. auto.
Qed.

Lemma channelsLead_app pre l :
  Forall (fun d => isChannelOrQuery d = true) pre ->
  channelsLead (pre ++ l) = channelsLead l.
Proof.
  induction 1 as [|d pre Hd _ IH]; simpl; [reflexivity|].
  now rewrite Hd.
Qed.

Lemma channelsLead_snoc l x :
  channelsLead l = true ->
  isChannelOrQuery x = false ->
  channelsLead (l ++ [x]) = true.
Proof.
  intros Hl Hx. induction l as [|d l IH]; simpl in *.
  - now rewrite Hx.
  - destruct (isChannelOrQuery d); [auto|].
    rewrite forallb_app, Hl. simpl. now rewrite Hx.
Qed.

Lemma Sorted_insert (Q : Chan.t -> Chan.t -> Prop) pre x tail :
  Sorted Q (pre ++ tail) ->
  Forall (fun d => Q d x) pre ->
  HdRel Q x tail ->
  Sorted Q (pre ++ x :: tail).
Proof.
  intros Hs Hpre Hx. induction Hpre as [|d pre Hd Hpre IH]; simpl in *.
  - now constructor.
  - inversion Hs as [|? ? Hs' Hhd]; subst. constructor; [auto|].
    destruct pre as [|e pre]; simpl in *.
    + now constructor.
    + inversion Hhd; subst. now constructor.
Qed.

Lemma addChannel_channels n newChan :
  channels (fst (addChannel n newChan))
  = splice0 (insertionIndex (channels n) newChan) newChan (channels n)
  /\ snd (addChannel n newChan) = insertionIndex (channels n) newChan.
Proof. split; reflexivity. Qed.

(** The three shapes of an insertion into [lobby :: rest]. *)
Lemma addChannel_shapes n lobby rest newChan :
  channels n = lobby :: rest ->
  (isChannelOrQuery newChan = true
   /\ exists pre c post,
       rest = pre ++ c :: post
       /\ Forall (fun d => stopsAt newChan d = false) pre
       /\ stopsAt newChan c = true
       /\ snd (addChannel n newChan) = S (length pre)
       /\ channels (fst (addChannel n newChan))
          = lobby :: pre ++ newChan :: c :: post)
  \/ (isChannelOrQuery newChan = true
      /\ Forall (fun d => stopsAt newChan d = false) rest
      /\ snd (addChannel n newChan) = S (length rest)
      /\ channels (fst (addChannel n newChan)) = lobby :: rest ++ [newChan])
  \/ (isChannelOrQuery newChan = false
      /\ snd (addChannel n newChan) = S (length rest)
      /\ channels (fst (addChannel n newChan)) = lobby :: rest ++ [newChan]).
Proof.
  intros Hch. destruct (addChannel_channels n newChan) as [-> ->].
  rewrite Hch. destruct (isChannelOrQuery newChan) eqn:Hcq.
  - destruct (addChannel_placement lobby rest newChan Hcq)
      as [(pre & c & post & H1 & H2 & H3 & H4 & H5) | (H1 & H2 & H3)].
    + left. split; [reflexivity|]. exists pre, c, post. auto.
    + right; left. auto.
  - right; right. split; [reflexivity|].
    unfold insertionIndex. rewrite Hcq. split; [reflexivity|].
    unfold splice0. simpl. f_equal. now rewrite firstn_all, skipn_all.
Qed.

Lemma nth_error_snoc (l : list Chan.t) x :
  nth_error (l ++ [x]) (length l) = Some x.
Proof.
  rewrite nth_error_app2 by lia. now rewrite Nat.sub_diag.
Qed.

Lemma nth_error_middle (pre : list Chan.t) x tail :
  nth_error (pre ++ x :: tail) (length pre) = Some x.
Proof.
  rewrite nth_error_app2 by lia. now rewrite Nat.sub_diag.
Qed.

(** One insertion keeps a registry sorted, as long as its channels
    and queries come before every other entry. *)
Lemma addChannel_preserves_order n lobby rest newChan :
  (forall a b, (0 < localeCompare a b)%Z -> (localeCompare b a <= 0)%Z) ->
  channels n = lobby :: rest ->
  channelsLead rest = true ->
  Sorted sortsAtOrBefore (channelSubsequence (channels n)) ->
  Sorted sortsAtOrBefore
    (channelSubsequence (channels (fst (addChannel n newChan))))
  /\ channelsLead (skipn 1 (channels (fst (addChannel n newChan)))) = true.
Proof.
  intros Htotal Hch Hlead Hsorted.
  pose proof (addChannel_shapes n lobby rest newChan Hch) as Hshape.
  unfold channelSubsequence in *. rewrite Hch in Hsorted.
  simpl skipn in Hsorted.
  assert (Hbefore : forall l,
             Forall (fun d => stopsAt newChan d = false) l ->
             Forall (fun d => isChannelOrQuery d = true) l
             /\ Forall (fun d => sortsAtOrBefore d newChan) l).
  { intros l Hl. split; eapply Forall_impl; try exact Hl;
      intros d Hd; apply stopsAt_false in Hd as [Hd1 Hd2]; auto.
    now apply Htotal. }
  destruct Hshape as [(Hcq & pre & c & post & -> & Hpre & Hc & _ & ->)
                     | [(Hcq & Hall & _ & ->) | (Hk & _ & ->)]];
    simpl skipn.
  - destruct (Hbefore pre Hpre) as [Hpcq Hple].
    rewrite channelsLead_app in Hlead by exact Hpcq.
    rewrite filter_app, (filter_all pre Hpcq) in Hsorted |- *.
    split.
    + simpl filter at 1. rewrite Hcq.
      apply Sorted_insert; [exact Hsorted | exact Hple |].
      simpl in Hlead |- *.
      destruct (isChannelOrQuery c) eqn:Hccq.
      * constructor. unfold stopsAt in Hc. rewrite Hccq in Hc.
        simpl in Hc. rewrite orb_false_r in Hc. now apply Z.leb_le.
      * rewrite (filter_none post Hlead). constructor.
    + rewrite channelsLead_app by exact Hpcq. simpl. now rewrite Hcq.
  - destruct (Hbefore rest Hall) as [Hpcq Hple].
    rewrite filter_app, (filter_all rest Hpcq) in *. simpl. rewrite Hcq.
    split.
    + apply Sorted_insert; [now rewrite app_nil_r | exact Hple
                            | constructor].
    + rewrite channelsLead_app by exact Hpcq. simpl. now rewrite Hcq.
  - rewrite filter_app. simpl. rewrite Hk, app_nil_r.
    split; [exact Hsorted | now apply channelsLead_snoc].
Qed.

(** A registry grown from the lobby by [addChannel] alone is sorted and
    keeps the lobby first. *)
Lemma addChannels_sorted lobby :
  (forall a b, (0 < localeCompare a b)%Z -> (localeCompare b a <= 0)%Z) ->
  forall l n,
    hd_error (channels n) = Some lobby ->
    channelsLead (skipn 1 (channels n)) = true ->
    Sorted sortsAtOrBefore (channelSubsequence (channels n)) ->
    hd_error (channels (addChannels n l)) = Some lobby
    /\ channelsLead (skipn 1 (channels (addChannels n l))) = true
    /\ Sorted sortsAtOrBefore (channelSubsequence (channels (addChannels n l))).
Proof.
  intros Htotal. induction l as [|c l IH]; intros n Hhd Hlead Hsorted.
  - unfold addChannels. simpl. auto.
  - change (addChannels n (c :: l))
      with (addChannels (fst (addChannel n c)) l).
    destruct (channels n) as [|lobby' rest] eqn:Hch; [discriminate|].
    injection Hhd as ->. simpl in Hlead.
    destruct (addChannel_preserves_order n lobby rest c Htotal Hch Hlead)
      as [Hs Hl]; [now rewrite Hch|].
    apply IH; [|exact Hl | exact Hs].
    destruct (addChannel_shapes n lobby rest c Hch)
      as [(_ & pre & d & post & _ & _ & _ & _ & ->)
         | [(_ & _ & _ & ->) | (_ & _ & ->)]]; reflexivity.
Qed.

(** C7 (amended).  For a registry [lobby :: rest], [addChannel] splices
    the new entity in at the index it returns, which is at least 1, so
    the lobby stays first.  An entity that is neither channel nor query
    goes to the end.  A channel or query goes to the first index from 1
    on whose occupant sorts at or after it under the collation, or is
    not itself a channel or query, and to the end when there is none.
    Provided no channel or query follows an entry of another kind, a
    sorted channel/query subsequence stays sorted, and that proviso
    holds again afterwards.  Inserting "mango" into
    [lobby, "alpha", "zulu"] gives [lobby, "alpha", "mango", "zulu"]. *)
Theorem addChannel_sorted_insert n lobby rest newChan :
  channels n = lobby :: rest ->
  let n' := fst (addChannel n newChan) in
  let index := snd (addChannel n newChan) in
  (1 <= index <= length (channels n))%nat
  /\ channels n'
     = firstn index (channels n) ++ newChan :: skipn index (channels n)
  /\ nth_error (channels n') index = Some newChan
  /\ hd_error (channels n') = Some lobby
  /\ (isChannelOrQuery newChan = false -> index = length (channels n))
  /\ (isChannelOrQuery newChan = true ->
      (forall j c, (1 <= j < index)%nat ->
                   nth_error (channels n) j = Some c ->
                   stopsAt newChan c = false)
      /\ (forall c, nth_error (channels n) index = Some c ->
                    stopsAt newChan c = true))
  /\ ((forall a b, (0 < localeCompare a b)%Z -> (localeCompare b a <= 0)%Z) ->
      channelsLead rest = true ->
      Sorted sortsAtOrBefore (channelSubsequence (channels n)) ->
      Sorted sortsAtOrBefore (channelSubsequence (channels n'))
      /\ channelsLead (skipn 1 (channels n')) = true)
  /\ ((0 < localeCompare (lit "mango") (lit "alpha"))%Z ->
      (localeCompare (lit "mango") (lit "zulu") <= 0)%Z ->
      rest = [Sample.chan "alpha" Chan.CHANNEL;
              Sample.chan "zulu" Chan.CHANNEL] ->
      newChan = Sample.chan "mango" Chan.CHANNEL ->
      channels n' = [lobby; Sample.chan "alpha" Chan.CHANNEL;
                     Sample.chan "mango" Chan.CHANNEL;
                     Sample.chan "zulu" Chan.CHANNEL]
      /\ index = 2%nat).
Proof.
  intros Hch n' index.
  destruct (addChannel_channels n newChan) as [Hsplice Hindex].
  fold n' in Hsplice. fold index in Hindex.
  pose proof (addChannel_shapes n lobby rest newChan Hch) as Hshape.
  fold n' index in Hshape.
  assert (Hrange : (1 <= index <= length (channels n))%nat).
  { rewrite Hch. simpl.
    destruct Hshape as [(_ & pre & c & post & -> & _ & _ & -> & _)
                       | [(_ & _ & -> & _) | (_ & -> & _)]];
      try rewrite length_app; simpl; lia. }
  split; [exact Hrange|].
  split; [rewrite Hsplice, <- Hindex; reflexivity|].
  split.
  { destruct Hshape as [(_ & pre & c & post & -> & _ & _ & -> & ->)
                       | [(_ & _ & -> & ->) | (_ & -> & ->)]]; simpl.
    - apply nth_error_middle.
    - apply nth_error_snoc.
    - apply nth_error_snoc. }
  split.
  { destruct Hshape as [(_ & pre & c & post & _ & _ & _ & _ & ->)
                       | [(_ & _ & _ & ->) | (_ & _ & ->)]]; reflexivity. }
  split.
  { intros Hk. rewrite Hch.
    destruct Hshape as [(Hcq & _) | [(Hcq & _) | (_ & -> & _)]];
      [congruence | congruence | reflexivity]. }
  split.
  { intros Hcq. rewrite Hch.
    destruct Hshape as [(_ & pre & c & post & -> & Hpre & Hc & -> & _)
                       | [(_ & Hall & -> & _) | (Hk & _)]];
      [| | congruence].
    - split.
      + intros [|j] d Hj; [lia|]. simpl. intros Hd.
        rewrite nth_error_app1 in Hd by lia.
        apply nth_error_In in Hd.
        rewrite Forall_forall in Hpre. auto.
      + intros d. simpl. rewrite nth_error_middle. congruence.
    - split.
      + intros [|j] d Hj; [lia|]. simpl. intros Hd.
        apply nth_error_In in Hd.
        rewrite Forall_forall in Hall. auto.
      + intros d. simpl. intros Hd.
        assert (nth_error rest (length rest) <> None) by congruence.
        apply nth_error_Some in H. lia. }
  split.
  { intros Htotal Hlead Hsorted.
    exact (addChannel_preserves_order n lobby rest newChan Htotal Hch Hlead
             Hsorted). }
  intros Hma Hmz -> ->.
  assert (Ha : stopsAt (Sample.chan "mango" Chan.CHANNEL)
                       (Sample.chan "alpha" Chan.CHANNEL) = false).
  { unfold stopsAt. apply orb_false_iff. split; [|reflexivity].
    apply Z.leb_gt. exact Hma. }
  assert (Hz : stopsAt (Sample.chan "mango" Chan.CHANNEL)
                       (Sample.chan "zulu" Chan.CHANNEL) = true).
  { unfold stopsAt. apply orb_true_iff. left. apply Z.leb_le. exact Hmz. }
  assert (Hi : index = 2%nat).
  { rewrite Hindex, Hch. unfold insertionIndex.
    change (isChannelOrQuery (Sample.chan "mango" Chan.CHANNEL)) with true.
    cbv iota. simpl skipn. simpl scanFrom. now rewrite Ha, Hz. }
  split; [|exact Hi].
  rewrite Hsplice, <- Hindex, Hi, Hch. reflexivity.
Qed.

Lemma findWithIndex_from (q : Chan.t -> bool) l : forall i,
  (1 <= i)%nat ->
  findWithIndex (fun that k => (0 <? k)%nat && q that) i l = find q l.
Proof.
  induction l as [|c l IH]; intros i Hi; simpl; [reflexivity|].
  destruct i as [|i]; [lia|]. simpl.
  destruct (q c); [reflexivity|]. apply IH. lia.
Qed.

(** C10.  [getChannel] returns the first entry after index 0 whose
    name equals the requested one up to case, and nothing when there is
    none; the entry at index 0 is never examined, so asking for the
    lobby's own name finds nothing unless a later entry carries it. *)
Theorem getChannel_skips_lobby n name_ :
  let matches := fun that =>
    JS.eqb (toLowerCase (Chan.name that)) (toLowerCase name_) in
  getChannel n name_ = find matches (skipn 1 (channels n))
  /\ (forall c, getChannel n name_ = Some c ->
        toLowerCase (Chan.name c) = toLowerCase name_
        /\ exists i, (1 <= i)%nat /\ nth_error (channels n) i = Some c
             /\ forall j d, (1 <= j < i)%nat ->
                            nth_error (channels n) j = Some d ->
                            toLowerCase (Chan.name d) <> toLowerCase name_)
  /\ (getChannel n name_ = None <->
      forall i c, (1 <= i)%nat -> nth_error (channels n) i = Some c ->
                  toLowerCase (Chan.name c) <> toLowerCase name_)
  /\ (forall lobby rest,
        channels n = lobby :: rest ->
        name_ = Chan.name lobby ->
        (forall c, In c rest ->
                   toLowerCase (Chan.name c) <> toLowerCase (Chan.name lobby)) ->
        getChannel n name_ = None).
Proof.
  intros matches.
  assert (Hfind : getChannel n name_ = find matches (skipn 1 (channels n))).
  { unfold getChannel. destruct (channels n) as [|lobby rest]; simpl;
      [reflexivity|].
    now apply (findWithIndex_from matches). }
  split; [exact Hfind|]. rewrite Hfind.
  assert (Hfirst : forall l c,
             find matches l = Some c ->
             exists i, nth_error l i = Some c /\ matches c = true
               /\ forall j d, (j < i)%nat -> nth_error l j = Some d ->
                              matches d = false).
  { induction l as [|x l IH]; simpl; [discriminate|]. intros c.
    destruct (matches x) eqn:E.
    - intros H; injection H as <-. exists 0%nat. repeat split; auto.
      intros j d Hj. lia.
    - intros H. apply IH in H as (i & Hi & Hm & Hlt). exists (S i).
      repeat split; auto. intros [|j] d Hj; simpl.
      + intros H; injection H as <-. exact E.
      + apply Hlt. lia. }
  assert (Hskip : forall i, nth_error (skipn 1 (channels n)) i
                            = nth_error (channels n) (S i)).
  { intros i. destruct (channels n); simpl; [now destruct i | reflexivity]. }
  split; [|split].
  - intros c Hc. apply Hfirst in Hc as (i & Hi & Hm & Hlt).
    split; [now apply eqb_eq|].
    exists (S i). rewrite Hskip in Hi. repeat split; auto; try lia.
    intros [|j] d Hj; [lia|]. rewrite <- Hskip. intros Hd.
    apply eqb_neq. apply (Hlt j d); [lia | exact Hd].
  - split.
    + intros Hnone [|i] c Hi; [lia|]. rewrite <- Hskip. intros Hc.
      apply nth_error_In in Hc. apply eqb_neq.
      exact (find_none _ _ Hnone c Hc).
    + intros Hall. destruct (find matches (skipn 1 (channels n))) as [c|] eqn:E;
        [|reflexivity].
      apply Hfirst in E as (i & Hi & Hm & _). rewrite Hskip in Hi.
      apply eqb_eq in Hm. exfalso. apply (Hall (S i) c); [lia | exact Hi | exact Hm].
  - intros lobby rest Hch -> Hrest. rewrite Hch. simpl.
    destruct (find matches rest) as [c|] eqn:E; [|reflexivity].
    apply find_some in E as [Hin Hm]. apply eqb_eq in Hm.
    exfalso. exact (Hrest c Hin Hm).
Qed.

End RegistryFacts.

(* ================================================================= *)
(** ** Quitting *)

Section QuitFacts.

Import Network.

Lemma lookup_set s now host targetPort duration :
  STSPolicies.lookup (STSPolicies.set s now host targetPort duration) host
  = Some (STSPolicies.mkPolicy targetPort duration (now + duration)%Z).
Proof. unfold STSPolicies.set. simpl. now rewrite eqb_refl. Qed.

(** C9.  Without a connection handle [quit] does nothing.  With one, it
    refreshes the STS policy of the network's host, after which an
    unexpired policy for that host keeps its port and duration and
    expires no earlier than now plus that duration, and it sends one
    quit to the engine, carrying the given message, or the
    administrator's leave message when none is given. *)
Theorem quit_refreshes_and_sends cfg now quitMessage sts n :
  let sts' := fst (quit cfg now quitMessage sts n) in
  let calls := snd (quit cfg now quitMessage sts n) in
  (irc n = None -> sts' = sts /\ calls = [])
  /\ (irc n <> None ->
      sts' = STSPolicies.refreshExpiration sts now (host n)
      /\ calls = [IrcQuit (if truthy quitMessage then quitMessage
                           else JString (Helper.leaveMessage cfg))]
      /\ forall p,
          STSPolicies.get sts now (host n) = Some p ->
          exists p',
            STSPolicies.lookup sts' (host n) = Some p'
            /\ STSPolicies.port p' = STSPolicies.port p
            /\ STSPolicies.duration p' = STSPolicies.duration p
            /\ (now + STSPolicies.duration p <= STSPolicies.expires p')%Z).
Proof.
  intros sts' calls. subst sts' calls. unfold quit.
  destruct (irc n) as [h|]; simpl.
  - split; [discriminate|]. intros _.
    split; [reflexivity|]. split; [reflexivity|].
    intros p Hp. unfold STSPolicies.refreshExpiration. rewrite Hp.
    rewrite lookup_set. eexists. split; [reflexivity|]. simpl.
    repeat split. lia.
  - split; [auto | congruence].
Qed.

End QuitFacts.

(* ================================================================= *)
(** ** The client manager *)

Section ManagerFacts.

Context {J : Json}.

Import ClientManager.

Lemma skipWhile_none (q : codeunit -> bool) l :
  Forall (fun c => q c = false) l -> skipWhile q l = l.
Proof. intros H. destruct H as [|c l Hc _]; simpl; [|rewrite Hc]; reflexivity. Qed.

Lemma takeWhile_all (q : codeunit -> bool) l :
  Forall (fun c => q c = true) l -> takeWhile q l = l.
Proof.
  induction 1 as [|c l Hc _ IH]; simpl; [reflexivity|]. now rewrite Hc, IH.
Qed.

Lemma takeWhile_Forall (q : codeunit -> bool) l :
  Forall (fun c => q c = true) (takeWhile q l).
Proof.
  induction l as [|c l IH]; simpl; [constructor|].
  destruct (q c) eqn:E; constructor; auto.
Qed.

(** A name is its own base name exactly when it has no separator. *)
Lemma basename_fixed (s : jstring) :
  Path.basename s = s <-> ~ In 47%N s.
Proof.
  unfold Path.basename. split.
  - intros H Hin. rewrite <- H in Hin. apply in_rev in Hin.
    try rewrite rev_involutive in Hin.
    pose proof (takeWhile_Forall (fun c => negb (Path.isSep c))
                  (skipWhile Path.isSep (rev s))) as Hall.
    rewrite Forall_forall in Hall. apply Hall in Hin. discriminate.
  - intros Hno.
    assert (Hall : Forall (fun c => Path.isSep c = false) (rev s)).
    { apply Forall_forall. intros c Hc. apply in_rev in Hc.
      unfold Path.isSep. apply N.eqb_neq. intros ->. contradiction. }
    rewrite skipWhile_none by exact Hall.
    rewrite takeWhile_all; [apply rev_involutive|].
    eapply Forall_impl; [|exact Hall]. simpl. intros c ->. reflexivity.
Qed.

(** C8 (amended).  [addUser] throws an [Error] naming the user when the
    name is not its own base name, that is when it contains a path
    separator, and then sends nothing to the database; otherwise it
    sends one insert for the name and returns [true] at once.  The
    insert overwrites nothing: when the name is taken, the database
    leaves its table as it was and reports the conflict, which the
    callback writes to the log. *)
Theorem addUser_outcomes name_ password enableLog m :
  (Path.basename name_ <> name_ ->
   addUser name_ password enableLog m
   = Throws (Error (name_ ++ lit " is an invalid username.")))
  /\ (Path.basename name_ = name_ ->
      addUser name_ password enableLog m
      = Normal (true,
                databaseQuery
                  (InsertUser name_
                     (JSON_stringify_user
                        (if truthy password then password else JString [])
                        enableLog))
                  m))
  /\ (Path.basename name_ = name_ <-> ~ In 47%N name_)
  /\ (forall tb config_ m',
        existsb (fun r => JS.eqb (row_username r) name_) tb = true ->
        execute (InsertUser name_ config_) tb = (Failed duplicateEntry, tb)
        /\ addUserCallback (Failed duplicateEntry) m'
           = (logError duplicateEntry m', None)).
Proof.
  split; [|split; [|split]].
  - intros Hne. unfold addUser. apply eqb_neq in Hne. now rewrite Hne.
  - intros He. unfold addUser. apply eqb_eq in He. now rewrite He.
  - apply basename_fixed.
  - intros tb config_ m' Hdup. unfold execute. rewrite Hdup. now split.
Qed.

Lemma loadUser_cache name_ m :
  loadUser name_ m
  = (find (fun u => JS.eqb (name u) name_) (clients m),
     match find (fun u => JS.eqb (name u) name_) (clients m) with
     | Some _ => m
     | None => databaseQuery (SelectUser name_) m
     end).
Proof.
  unfold loadUser.
  now destruct (find (fun u => JS.eqb (name u) name_) (clients m)).
Qed.

End ManagerFacts.

(** C3.  [loadUser], and [findClient] with it, returns what the cache
    holds for the name and nothing else: on a hit nothing is asked of
    the database; on a miss the select is sent and absent is returned,
    whether or not the account is stored.  With "bob" stored and an
    empty cache, the first call returns absent; the session is built
    and cached when the answer arrives, and only a later call returns
    it. *)
Theorem loadUser_returns_cache_lookup :
  (forall (J : Json) name_ m,
      ClientManager.findClient name_ m = ClientManager.loadUser name_ m
      /\ fst (ClientManager.loadUser name_ m)
         = find (fun u => JS.eqb (ClientManager.name u) name_)
                (ClientManager.clients m)
      /\ snd (ClientManager.loadUser name_ m)
         = match fst (ClientManager.loadUser name_ m) with
           | Some _ => m
           | None =>
               ClientManager.databaseQuery (ClientManager.SelectUser name_) m
           end)
  /\ (let J := Sample.textJson in
      let bob := lit "bob" in
      let session := ClientManager.mkClient (J := J) bob (lit "{}") in
      let tb := [ClientManager.mkRow bob (lit "{}")] in
      let first :=
        ClientManager.loadUser bob (ClientManager.ClientManager (J := J)) in
      let later := ClientManager.turn (snd first, tb) in
      fst first = None
      /\ later = (ClientManager.mk [session] [] [], tb, None)
      /\ fst (ClientManager.loadUser bob (fst (fst later))) = Some session).
Proof.
  split.
  - intros J name_ m. unfold ClientManager.findClient.
    rewrite loadUser_cache. simpl. repeat split.
  - repeat split.
Qed.

(* ================================================================= *)
(** ** Validation on concrete networks *)

(** An STS policy for the network's host turns TLS on. *)
Lemma validate_sts_upgrade_witness :
  exists n' es,
    Network.validate (R := Sample.asciiRuntime) (Sample.config false false)
      Sample.policies 10
      (Sample.network "Example" "alice" "irc.example.org" [])
    = Normal (true, n', es)
    /\ Network.tls (Sample.network "Example" "alice" "irc.example.org" [])
       = false
    /\ Network.tls n' = true
    /\ Network.rejectUnauthorized n' = true
    /\ Network.port n' = Num 6697
    /\ es = [PushMessage (Sample.chan "Example" Chan.LOBBY)
               (Msg.mk Msg.ERROR
                  (lit "irc.example.org has an active strict transport security policy, will connect to port 6697 over a secure connection."))
               true].
Proof.
  eexists. eexists.
  match goal with
  | |- ?A /\ _ => assert (H : A) by (vm_compute; reflexivity)
  end.
  split; [exact H|]. split; [reflexivity|].
  destruct (validate_sts_upgrade (R := Sample.asciiRuntime)
              (Sample.config false false) _ _ _ _ _
              (STSPolicies.mkPolicy 6697 3600 3600) H eq_refl)
    as [Hup _].
  destruct (Hup eq_refl) as (Ht & Hr & Hp & lobby & Hl & He).
  split; [exact Ht|]. split; [exact Hr|]. split; [exact Hp|].
  injection Hl as <-. exact He.
Defined.

(** C4, as first stated, fails under a lock: the network's own TLS flag
    is off and the store holds a policy for the validated host, but the
    lock has put the administrator's TLS default, which is on, in its
    place before the policy is consulted.  [validate] succeeds without
    an upgrade: certificate verification stays off, the port is the
    administrator's and not the policy's, and no notice is pushed. *)
Lemma validate_sts_skipped_under_lock :
  exists n' es p,
    Network.validate (R := Sample.asciiRuntime)
      (Helper.mkConfig true false (lit "irc.example.org") (Num 7000) true
         false (lit "The Lounge - https://thelounge.chat") false
         (lit "lounge-user"))
      Sample.policies 10
      (Sample.network "Example" "alice" "irc.example.org" [])
    = Normal (true, n', es)
    /\ Network.tls (Sample.network "Example" "alice" "irc.example.org" [])
       = false
    /\ STSPolicies.get Sample.policies 10 (Network.host n') = Some p
    /\ STSPolicies.port p = 6697%Z
    /\ Network.rejectUnauthorized n' = false
    /\ Network.port n' = Num 7000
    /\ es = [].
Proof.
  eexists. eexists. eexists.
  split; [vm_compute; reflexivity|].
  split; [reflexivity|].
  split; [vm_compute; reflexivity|].
  repeat split.
Qed.

(** A nick with a space and an exclamation mark. *)
Lemma validate_nick_cleaned_witness :
  exists b n' es,
    Network.validate (R := Sample.asciiRuntime) (Sample.config false false)
      [] 0 (Sample.network "Example" "al ice!" "irc.example.org" [])
    = Normal (b, n', es)
    /\ Network.nick n' = JString (lit "al_ice_").
Proof.
  destruct (validate_nick_cleaned (R := Sample.asciiRuntime)
              (Sample.config false false) [] 0
              (Sample.network "Example" "al ice!" "irc.example.org" []))
    as (b & n' & es & Hv & Hn & _).
  - discriminate.
  - exists b, n', es. split; [exact Hv | exact Hn].
Defined.

(** C5, as first stated, fails: U+0001 is a control character, it is
    not in the class [validate] replaces, and it stays in the nick. *)
Lemma validate_nick_keeps_control_character :
  exists n' es c,
    Network.validate (R := Sample.asciiRuntime) (Sample.config false false)
      [] 0
      (Network.set_nick (JString [1%N; 97%N])
         (Sample.network "Example" "a" "irc.example.org" []))
    = Normal (true, n', es)
    /\ Network.nick n' = JString [1%N; 97%N]
    /\ In c [1%N; 97%N]
    /\ isControl c = true.
Proof.
  eexists. eexists. exists 1%N.
  split; [vm_compute; reflexivity|].
  split; [reflexivity|]. split; [now left | reflexivity].
Qed.

(** An unlocked deployment: the host is cleaned and lowercased. *)
Lemma validate_host_witness :
  exists b n' es,
    Network.validate (R := Sample.asciiRuntime) (Sample.config false false)
      [] 0 (Sample.network "Example" "alice" "IRC.Example.ORG" [])
    = Normal (b, n', es)
    /\ Network.host n' = lit "irc.example.org".
Proof.
  destruct (validate_host (R := Sample.asciiRuntime)
              (Sample.config false false) [] 0
              (Sample.network "Example" "alice" "IRC.Example.ORG" []))
    as (b & n' & es & Hv & Hh).
  - discriminate.
  - exists b, n', es. split; [exact Hv | exact Hh].
Defined.

(** C6, as first stated, fails: under a lock in public mode any
    submitted host is accepted and replaced by the administrator's. *)
Lemma validate_host_replaced_under_lock :
  exists n' es,
    Network.validate (R := Sample.asciiRuntime) (Sample.config true true)
      [] 0 (Sample.network "Example" "alice" "Other.Net" [])
    = Normal (true, n', es)
    /\ Network.host n' = lit "irc.example.org"
    /\ toLowerCase (Runtime := Sample.asciiRuntime)
         (firstn 300
            (filter (fun c => negb (isControl c || N.eqb c 10 || N.eqb c 13))
               (Network.host
                  (Sample.network "Example" "alice" "Other.Net" []))))
       = lit "other.net"
    /\ Network.host n' <> lit "other.net".
Proof.
  eexists. eexists.
  split; [vm_compute; reflexivity|].
  split; [reflexivity|]. split; [reflexivity|]. discriminate.
Qed.

(* ================================================================= *)
(** ** Editing on a concrete network *)

(** C2, as first stated, fails: under a lock with public mode off, an
    edit submitting another host is rejected by [validate], and the
    network is left with the submitted host, nick and (empty) password
    in place of those it had. *)
Lemma edit_rejected_overwrites_configuration :
  exists n0 n1 es,
    Network.syncLobbyName
      (Network.assignArgs (Sample.form "mallory" "Evil.example.com")
         (Sample.network "Example" "alice" "irc.example.org" []))
    = Normal n0
    /\ Network.validate (R := Sample.asciiRuntime) (Sample.config true false)
         [] 0 n0
       = Normal (false, n1, es)
    /\ Network.edit (R := Sample.asciiRuntime) (Sample.config true false)
         [] 0 (Sample.form "mallory" "Evil.example.com")
         (Sample.network "Example" "alice" "irc.example.org" [])
       = Normal (n1, es)
    /\ Network.host (Sample.network "Example" "alice" "irc.example.org" [])
       = lit "irc.example.org"
    /\ Network.host n1 = lit "evil.example.com"
    /\ Network.nick n1 = JString (lit "mallory")
    /\ Network.password (Sample.network "Example" "alice" "irc.example.org" [])
       = lit "hunter2"
    /\ Network.password n1 = []
    /\ option_map Chan.name (hd_error (Network.channels n1))
       = Some (lit "Evil.example.com").
Proof.
  eexists. eexists. eexists.
  split; [vm_compute; reflexivity|].
  split; [vm_compute; reflexivity|].
  split; [vm_compute; reflexivity|].
  repeat split.
Qed.

Lemma edit_rejected_witness :
  exists n1 es,
    Network.edit (R := Sample.asciiRuntime) (Sample.config true false)
      [] 0 (Sample.form "mallory" "Evil.example.com")
      (Sample.network "Example" "alice" "irc.example.org" [])
    = Normal (n1, es)
    /\ Network.irc n1 = None
    /\ Network.host n1 = lit "evil.example.com".
Proof.
  eexists. eexists.
  assert (H0 : Network.syncLobbyName
                 (Network.assignArgs (Sample.form "mallory" "Evil.example.com")
                    (Sample.network "Example" "alice" "irc.example.org" []))
               = Normal _) by (vm_compute; reflexivity).
  match type of H0 with
  | _ = Normal ?n0 =>
      assert (H1 : Network.validate (R := Sample.asciiRuntime)
                     (Sample.config true false) [] 0 n0
                   = Normal (false, _, _))
        by (vm_compute; reflexivity)
  end.
  destruct (edit_rejected _ _ _ _ _ _ _ _ H0 H1)
    as (He & Hirc & _ & _ & _ & _ & Hhost).
  split; [exact He|]. split; [exact Hirc|].
  exact (proj1 (Hhost eq_refl eq_refl)).
Defined.

(* ================================================================= *)
(** ** The registry, quitting and the manager on concrete data *)

Lemma compareFolded_total (a : jstring) : forall b,
  (0 < Sample.compareFolded a b)%Z -> (Sample.compareFolded b a <= 0)%Z.
Proof.
  induction a as [|x a IH]; intros [|y b]; simpl; try lia.
  rewrite (N.compare_antisym (Sample.lowerUnit x) (Sample.lowerUnit y)).
  destruct (Sample.lowerUnit x ?= Sample.lowerUnit y)%N; simpl;
    try lia. apply IH.
Qed.

Lemma addChannel_sorted_insert_witness :
  Network.channels
    (fst (Network.addChannel (R := Sample.asciiRuntime)
            (Sample.network "Example" "alice" "irc.example.org"
               [Sample.chan "alpha" Chan.CHANNEL;
                Sample.chan "zulu" Chan.CHANNEL])
            (Sample.chan "mango" Chan.CHANNEL)))
  = [Sample.chan "Example" Chan.LOBBY; Sample.chan "alpha" Chan.CHANNEL;
     Sample.chan "mango" Chan.CHANNEL; Sample.chan "zulu" Chan.CHANNEL]
  /\ Sorted (Network.sortsAtOrBefore (R := Sample.asciiRuntime))
       (Network.channelSubsequence
          (Network.channels
             (fst (Network.addChannel (R := Sample.asciiRuntime)
                     (Sample.network "Example" "alice" "irc.example.org"
                        [Sample.chan "alpha" Chan.CHANNEL;
                         Sample.chan "zulu" Chan.CHANNEL])
                     (Sample.chan "mango" Chan.CHANNEL))))).
Proof.
  destruct (addChannel_sorted_insert (R := Sample.asciiRuntime)
              (Sample.network "Example" "alice" "irc.example.org"
                 [Sample.chan "alpha" Chan.CHANNEL;
                  Sample.chan "zulu" Chan.CHANNEL])
              (Sample.chan "Example" Chan.LOBBY)
              [Sample.chan "alpha" Chan.CHANNEL;
               Sample.chan "zulu" Chan.CHANNEL]
              (Sample.chan "mango" Chan.CHANNEL) eq_refl)
    as (_ & _ & _ & _ & _ & _ & Hsorted & Hexample).
  split.
  - apply Hexample; [reflexivity | vm_compute; discriminate
                     | reflexivity | reflexivity].
  - apply Hsorted.
    + intros a b. apply compareFolded_total.
    + reflexivity.
    + repeat constructor. vm_compute. discriminate.
Defined.

(** C7, as first stated, fails: with a channel after a special entry
    the loop stops at the special entry, and a sorted channel/query
    subsequence is left unsorted. *)
Lemma addChannel_unsorted_after_special :
  Sorted (Network.sortsAtOrBefore (R := Sample.asciiRuntime))
    (Network.channelSubsequence
       (Network.channels
          (Sample.network "Example" "alice" "irc.example.org"
             [Sample.chan "#alpha" Chan.CHANNEL;
              Sample.chan "Channel List" Chan.SPECIAL;
              Sample.chan "#charlie" Chan.CHANNEL])))
  /\ Network.addChannel (R := Sample.asciiRuntime)
       (Sample.network "Example" "alice" "irc.example.org"
          [Sample.chan "#alpha" Chan.CHANNEL;
           Sample.chan "Channel List" Chan.SPECIAL;
           Sample.chan "#charlie" Chan.CHANNEL])
       (Sample.chan "#delta" Chan.CHANNEL)
     = (Sample.network "Example" "alice" "irc.example.org"
          [Sample.chan "#alpha" Chan.CHANNEL;
           Sample.chan "#delta" Chan.CHANNEL;
           Sample.chan "Channel List" Chan.SPECIAL;
           Sample.chan "#charlie" Chan.CHANNEL], 2%nat)
  /\ ~ Sorted (Network.sortsAtOrBefore (R := Sample.asciiRuntime))
         (Network.channelSubsequence
            (Network.channels
               (fst (Network.addChannel (R := Sample.asciiRuntime)
                       (Sample.network "Example" "alice" "irc.example.org"
                          [Sample.chan "#alpha" Chan.CHANNEL;
                           Sample.chan "Channel List" Chan.SPECIAL;
                           Sample.chan "#charlie" Chan.CHANNEL])
                       (Sample.chan "#delta" Chan.CHANNEL))))).
Proof.
  split; [|split].
  - repeat constructor. vm_compute. discriminate.
  - reflexivity.
  - intros H. vm_compute in H.
    inversion H as [|? ? H1 _]; subst.
    inversion H1 as [|? ? _ H2]; subst.
    inversion H2 as [|? ? H3]; subst.
    vm_compute in H3. now apply H3.
Qed.

Lemma getChannel_skips_lobby_witness :
  Network.getChannel (R := Sample.asciiRuntime)
    (Sample.network "Example" "alice" "irc.example.org"
       [Sample.chan "#rocq" Chan.CHANNEL])
    (lit "Example")
  = None.
Proof.
  destruct (getChannel_skips_lobby (R := Sample.asciiRuntime)
              (Sample.network "Example" "alice" "irc.example.org"
                 [Sample.chan "#rocq" Chan.CHANNEL])
              (lit "Example")) as (_ & _ & _ & Hlobby).
  apply (Hlobby (Sample.chan "Example" Chan.LOBBY)
                [Sample.chan "#rocq" Chan.CHANNEL] eq_refl eq_refl).
  intros c [<- | []]. vm_compute. discriminate.
Defined.

Lemma quit_refreshes_and_sends_witness :
  snd (Network.quit (Sample.config false false) 100 JUndefined
         Sample.policies Sample.connectedNetwork)
  = [IrcQuit (JString (lit "The Lounge - https://thelounge.chat"))]
  /\ exists p',
      STSPolicies.lookup
        (fst (Network.quit (Sample.config false false) 100 JUndefined
                Sample.policies Sample.connectedNetwork))
        (lit "irc.example.org")
      = Some p'
      /\ (100 + 3600 <= STSPolicies.expires p')%Z.
Proof.
  destruct (quit_refreshes_and_sends (Sample.config false false) 100
              JUndefined Sample.policies Sample.connectedNetwork)
    as [_ Hconnected].
  destruct Hconnected as (Hsts & Hcalls & Hpolicy); [discriminate|].
  split; [exact Hcalls|].
  destruct (Hpolicy (STSPolicies.mkPolicy 6697 3600 3600) eq_refl)
    as (p' & Hp' & _ & _ & Hexp).
  exists p'. split; [exact Hp' | exact Hexp].
Defined.

Lemma addUser_outcomes_witness :
  ClientManager.addUser (J := Sample.textJson) (lit "../etc/passwd")
    (JString (lit "x")) (JBool true) ClientManager.ClientManager
  = Throws (Error (lit "../etc/passwd is an invalid username."))
  /\ fst (ClientManager.execute
            (ClientManager.InsertUser (lit "bob") (lit "{}"))
            [ClientManager.mkRow (lit "bob") (lit "{old}")])
     = ClientManager.Failed ClientManager.duplicateEntry.
Proof.
  destruct (addUser_outcomes (J := Sample.textJson) (lit "../etc/passwd")
              (JString (lit "x")) (JBool true) ClientManager.ClientManager)
    as (Hthrow & _ & _ & _).
  destruct (addUser_outcomes (J := Sample.textJson) (lit "bob")
              (JString (lit "x")) (JBool true) ClientManager.ClientManager)
    as (_ & _ & _ & Hdup).
  split.
  - apply Hthrow. vm_compute. discriminate.
  - destruct (Hdup [ClientManager.mkRow (lit "bob") (lit "{old}")]
                   (lit "{}") ClientManager.ClientManager eq_refl)
      as [-> _]. reflexivity.
Defined.

(** C8, as first stated, fails: a name with a separator makes
    [addUser] throw, and a name already taken still yields [true]; the
    conflict only reaches the log, in a later turn. *)
Lemma addUser_throws_and_reports_success :
  ClientManager.addUser (J := Sample.textJson) (lit "../etc/passwd")
    (JString (lit "x")) (JBool true) ClientManager.ClientManager
  = Throws (Error (lit "../etc/passwd is an invalid username."))
  /\ exists m,
      ClientManager.addUser (J := Sample.textJson) (lit "bob")
        (JString (lit "x")) (JBool true) ClientManager.ClientManager
      = Normal (true, m)
      /\ ClientManager.turn
           (m, [ClientManager.mkRow (lit "bob") (lit "{old}")])
         = (ClientManager.mk [] [] [ClientManager.duplicateEntry],
            [ClientManager.mkRow (lit "bob") (lit "{old}")], None).
Proof.
  split; [reflexivity|]. eexists. split; reflexivity.
Qed.

(* ================================================================= *)
(** ** Further properties: the cleaners of [validate] *)

Section CleanerFacts.

Import Network.

Lemma filter_id {A} (q : A -> bool) (l : list A) :
  Forall (fun x => q x = true) l -> filter q l = l.
Proof.
  induction 1 as [|x l Hx _ IH]; simpl; [reflexivity|]. now rewrite Hx, IH.
Qed.

Lemma stringClass_false (c : codeunit) :
  stringClass c = false <-> c <> 0%N /\ c <> 13%N /\ c <> 10%N.
Proof.
  unfold stringClass. rewrite !orb_false_iff, !N.eqb_neq. tauto.
Qed.

Lemma cleanString_sanitized (str : jstring) : sanitized (cleanString str).
Proof.
  unfold sanitized, cleanString, substring0, removeAll. split.
  - intros c Hc. apply stringClass_false.
    assert (Hin : In c (filter (fun c => negb (stringClass c)) str)).
    { revert Hc. generalize (filter (fun c => negb (stringClass c)) str).
      intros l. generalize 300%nat. induction l as [|x l IH]; intros [|k];
        simpl; try tauto. intros [->|Hc]; [now left | right; eauto]. }
    apply filter_In in Hin as [_ Hin]. now apply negb_true_iff.
  - apply firstn_le_length.
Qed.

(** X1.  [cleanString] leaves no NUL, CR or LF and at most 300 code
    units; every unit of its result is a unit of its input; it returns
    a string that already has that form unchanged, so cleaning twice
    is cleaning once. *)
Theorem cleanString_idempotent (str : jstring) :
  sanitized (cleanString str)
  /\ cleanString (cleanString str) = cleanString str
  /\ (sanitized str -> cleanString str = str)
  /\ (forall c, In c (cleanString str) -> In c str).
Proof.
  split; [apply cleanString_sanitized|].
  assert (Hfix : forall s, sanitized s -> cleanString s = s).
  { intros s [Hc Hl]. unfold cleanString, substring0, removeAll.
    rewrite filter_id.
    - apply firstn_all2. exact Hl.
    - apply Forall_forall. intros c Hin. apply negb_true_iff.
      apply stringClass_false. now apply Hc. }
  split; [apply Hfix, cleanString_sanitized|].
  split; [apply Hfix|].
  intros c Hc. unfold cleanString, substring0, removeAll in Hc.
  assert (Hin : In c (filter (fun c => negb (stringClass c)) str)).
  { revert Hc. generalize (filter (fun c => negb (stringClass c)) str).
    intros l. generalize 300%nat. induction l as [|x l IH]; intros [|k];
      simpl; try tauto. intros [->|Hc]; [now left | right; eauto]. }
  now apply filter_In in Hin as [Hin _].
Qed.

Lemma nickClass_underscore : nickClass 95%N = false.
Proof. reflexivity. Qed.

(** X2.  [cleanNick] keeps the length up to 100 code units and touches
    only the units of its class: unit [i] of the result is an
    underscore where the input has NUL, white space, [:], [!] or [@],
    and the input's unit otherwise.  Cleaning twice is cleaning once. *)
Theorem cleanNick_idempotent (str : jstring) :
  length (cleanNick str) = Nat.min 100 (length str)
  /\ (forall i c, (i < 100)%nat -> nth_error str i = Some c ->
        nth_error (cleanNick str) i
        = Some (if nickClass c then 95%N else c))
  /\ cleanNick (cleanNick str) = cleanNick str.
Proof.
  unfold cleanNick, substring0, replaceAll.
  split; [now rewrite length_firstn, length_map|].
  split.
  - intros i c Hi Hc. rewrite nth_error_firstn.
    destruct (Nat.ltb_spec i 100) as [_|Hge]; [|lia].
    rewrite nth_error_map, Hc. reflexivity.
  - set (f := fun c => if nickClass c then 95%N else c).
    assert (Hff : forall l, map f (map f l) = map f l).
    { intros l. rewrite map_map. apply map_ext. intros c. unfold f.
      destruct (nickClass c) eqn:E; [now rewrite nickClass_underscore
                                    | now rewrite E]. }
    rewrite <- firstn_map, Hff, firstn_firstn, Nat.min_id. reflexivity.
Qed.

End CleanerFacts.

(* ================================================================= *)
(** ** Further properties: the verdict of [validate] *)

Section VerdictFacts.

Context {R : Runtime}.

Import Network.

Ltac normalize_field n :=
  destruct n;
  unfold normalize, defaultPort, normalizeName, normalizeHost,
    normalizePassword, normalizeRealname, normalizeUsername, deriveUsername,
    normalizeNick, setNick;
  repeat (simpl;
          match goal with
          | |- context [match ?x with _ => _ end] =>
              lazymatch x with
              | context [match _ with _ => _ end] => fail
              | _ => destruct x
              end
          end);
  reflexivity.

Lemma normalize_username cfg n :
  username (normalize cfg n)
  = orDefault
      (cleanString
         match username n with
         | [] =>
             removeAll (fun c => negb (isAlnum c))
               (cleanNick
                  (toString (or_else (nick n)
                                     (JString (Helper.getDefaultNick cfg)))))
         | _ :: _ => username n
         end)
      (lit "thelounge").
Proof. normalize_field n. Qed.

Lemma normalize_realname cfg n :
  realname (normalize cfg n)
  = orDefault (cleanString (realname n)) (lit "The Lounge User").
Proof. normalize_field n. Qed.

Lemma normalize_password cfg n :
  password (normalize cfg n) = cleanString (password n).
Proof. normalize_field n. Qed.

Lemma normalize_display_name cfg n :
  name (normalize cfg n) = cleanString (name n).
Proof. normalize_field n. Qed.

Lemma normalize_port cfg n :
  port (normalize cfg n)
  = if num_truthy (port n) then port n
    else Num (if tls n then 6697 else 6667).
Proof. normalize_field n. Qed.

Lemma normalize_uuid cfg n : uuid (normalize cfg n) = uuid n.
Proof. normalize_field n. Qed.

Lemma normalize_handle cfg n : irc (normalize cfg n) = irc n.
Proof. normalize_field n. Qed.

Lemma applyLock_keeps cfg m :
  username (applyLock cfg m) = username m
  /\ realname (applyLock cfg m) = realname m
  /\ password (applyLock cfg m) = password m
  /\ name (applyLock cfg m) = name m
  /\ uuid (applyLock cfg m) = uuid m
  /\ irc (applyLock cfg m) = irc m.
Proof. repeat split. Qed.

Lemma applySTS_keeps p m :
  username (applySTS p m) = username m
  /\ realname (applySTS p m) = realname m
  /\ password (applySTS p m) = password m
  /\ name (applySTS p m) = name m
  /\ uuid (applySTS p m) = uuid m
  /\ irc (applySTS p m) = irc m
  /\ host (applySTS p m) = host m.
Proof. repeat split. Qed.

(** The fields only [normalize] writes. *)
Lemma validate_keeps cfg sts now n b n' es :
  validate cfg sts now n = Normal (b, n', es) ->
  username n' = username (normalize cfg n)
  /\ realname n' = realname (normalize cfg n)
  /\ password n' = password (normalize cfg n)
  /\ name n' = name (normalize cfg n)
  /\ uuid n' = uuid n
  /\ irc n' = irc n.
Proof.
  intros H.
  assert (Hk : forall k,
             username k = username (normalize cfg n)
             /\ realname k = realname (normalize cfg n)
             /\ password k = password (normalize cfg n)
             /\ name k = name (normalize cfg n)
             /\ uuid k = uuid (normalize cfg n)
             /\ irc k = irc (normalize cfg n) ->
             username k = username (normalize cfg n)
             /\ realname k = realname (normalize cfg n)
             /\ password k = password (normalize cfg n)
             /\ name k = name (normalize cfg n)
             /\ uuid k = uuid n
             /\ irc k = irc n).
  { intros k (H1 & H2 & H3 & H4 & H5 & H6).
    rewrite normalize_uuid in H5. rewrite normalize_handle in H6. tauto. }
  assert (Hlock : username (afterLock cfg n) = username (normalize cfg n)
                  /\ realname (afterLock cfg n) = realname (normalize cfg n)
                  /\ password (afterLock cfg n) = password (normalize cfg n)
                  /\ name (afterLock cfg n) = name (normalize cfg n)
                  /\ uuid (afterLock cfg n) = uuid (normalize cfg n)
                  /\ irc (afterLock cfg n) = irc (normalize cfg n)).
  { unfold afterLock. destruct (Helper.lockNetwork cfg);
      [apply applyLock_keeps | repeat split]. }
  apply Hk.
  apply validate_exits in H as [(_ & _ & _ & -> & _) | [_ H]];
    [repeat split|].
  apply checkHostAndSTS_exits in H
    as [(_ & _ & -> & _) | [(_ & _ & p & l & _ & _ & -> & _)
                           | (_ & _ & -> & _)]]; exact Hlock.
Qed.

Lemma orDefault_nonempty (s d : jstring) : d <> [] -> orDefault s d <> [].
Proof. destruct s; simpl; [auto | discriminate]. Qed.

Lemma orDefault_sanitized (s d : jstring) :
  sanitized s -> sanitized d -> sanitized (orDefault s d).
Proof. destruct s; simpl; auto. Qed.

Lemma literal_sanitized (s : jstring) :
  forallb (fun c => negb (stringClass c)) s = true ->
  (length s <=? 300)%nat = true ->
  sanitized s.
Proof.
  intros Hc Hl. split.
  - intros c Hin. rewrite forallb_forall in Hc.
    apply stringClass_false. apply negb_true_iff. now apply Hc.
  - now apply Nat.leb_le.
Qed.

(** X3.  [validate] returns (the lobby being in place) with a username
    and a real name that are never empty, and with username, real
    name, password and display name free of NUL, CR and LF and at most
    300 code units long.  A username left empty is made of the
    letters and digits of the cleaned nick, or is "thelounge" when the
    nick has none. *)
Theorem validate_identity_fields cfg sts now n :
  channels n <> [] ->
  exists b n' es,
    validate cfg sts now n = Normal (b, n', es)
    /\ username n' <> [] /\ realname n' <> []
    /\ sanitized (username n') /\ sanitized (realname n')
    /\ sanitized (password n') /\ sanitized (name n')
    /\ password n' = cleanString (password n)
    /\ (username n = [] ->
        forall s, nick n' = JString s ->
        username n'
        = orDefault (cleanString (filter isAlnum s)) (lit "thelounge")).
Proof.
  intros Hne.
  destruct (validate_returns cfg sts now n Hne) as (b & n' & es & H).
  exists b, n', es. split; [exact H|].
  destruct (validate_keeps _ _ _ _ _ _ _ H) as (Hu & Hr & Hp & Hn & _ & _).
  pose proof (validate_nick _ _ _ _ _ _ _ H) as Hnick.
  rewrite normalize_nick in Hnick.
  rewrite Hu, Hr, Hp, Hn, normalize_username, normalize_realname,
    normalize_password, normalize_display_name.
  split; [apply orDefault_nonempty; discriminate|].
  split; [apply orDefault_nonempty; discriminate|].
  split.
  { apply orDefault_sanitized; [apply cleanString_sanitized|].
    now apply literal_sanitized. }
  split.
  { apply orDefault_sanitized; [apply cleanString_sanitized|].
    now apply literal_sanitized. }
  split; [apply cleanString_sanitized|].
  split; [apply cleanString_sanitized|].
  split; [reflexivity|].
  intros He s Hs. rewrite He. rewrite Hs in Hnick. injection Hnick as ->.
  unfold removeAll. do 2 f_equal. apply filter_ext. intros c.
  apply negb_involutive.
Qed.

Lemma hostNotAllowed_normalize cfg n :
  hostNotAllowed cfg (normalize cfg n) = true
  <-> Helper.public cfg = false
      /\ toLowerCase (cleanString (host n)) <> []
      /\ toLowerCase (cleanString (host n)) <> Helper.defaults_host cfg.
Proof.
  unfold hostNotAllowed. rewrite normalize_host.
  generalize (toLowerCase (cleanString (host n))). intros h.
  destruct (JS.eqb h (Helper.defaults_host cfg)) eqn:E;
    [apply eqb_eq in E | apply eqb_neq in E];
    destruct (Helper.public cfg); destruct h as [|c h];
    cbn [negb andb length Nat.ltb Nat.leb];
    split; try discriminate; try tauto;
    try (intros (_ & H1 & H2); congruence).
  - intros (H & _). discriminate.
  - intros _. repeat split; try discriminate; exact E.
Qed.

Lemma messages_differ : lockedHostMsg <> emptyHostMsg.
Proof. intros H. vm_compute in H. discriminate. Qed.

(** X4.  [validate] returns (the lobby being in place) and accepts
    exactly these networks, [h] being the host cleaned and lowercased:
    without a lock, those with [h] not empty; under a lock, those with
    [h] empty or equal to the administrator's host, or any in public
    mode, provided the administrator's host is not empty.  A rejection
    pushes exactly one error to the lobby, "not allowed" precisely when
    the lock refuses the host and "must specify" otherwise; an
    acceptance pushes nothing, or the one notice of an STS upgrade. *)
Theorem validate_verdict cfg sts now n :
  channels n <> [] ->
  let h := toLowerCase (cleanString (host n)) in
  let refused :=
    Helper.lockNetwork cfg = true /\ Helper.public cfg = false
    /\ h <> [] /\ h <> Helper.defaults_host cfg in
  exists b n' es lobby,
    validate cfg sts now n = Normal (b, n', es)
    /\ hd_error (channels n) = Some lobby
    /\ (b = true <->
        ~ refused
        /\ (if Helper.lockNetwork cfg then Helper.defaults_host cfg else h)
           <> [])
    /\ (refused -> b = false /\ es = [PushMessage lobby lockedHostMsg true])
    /\ (~ refused -> b = false ->
        es = [PushMessage lobby emptyHostMsg true])
    /\ (b = true ->
        es = []
        \/ exists p,
            STSPolicies.get sts now (host n') = Some p
            /\ es = [PushMessage lobby
                       (stsMsg (host n') (STSPolicies.port p)) true]).
Proof.
  intros Hne h refused.
  destruct (validate_returns cfg sts now n Hne) as (b & n' & es & H).
  destruct (channels n) as [|lobby rest] eqn:Hch; [contradiction|].
  exists b, n', es, lobby. split; [exact H|]. split; [reflexivity|].
  assert (Hrefused : refused <->
                     Helper.lockNetwork cfg = true
                     /\ hostNotAllowed cfg (normalize cfg n) = true).
  { unfold refused. rewrite hostNotAllowed_normalize. fold h. tauto. }
  apply validate_exits in H as [(Hl & Hbad & -> & -> & l & Hhd & ->) | [Hok H]].
  - rewrite Hch in Hhd. injection Hhd as <-.
    assert (Hr : refused) by (apply Hrefused; auto).
    split; [split; [discriminate | tauto]|].
    split; [auto|]. split; [tauto | discriminate].
  - assert (Hnr : ~ refused).
    { rewrite Hrefused. intros [Hl Hbad]. rewrite (Hok Hl) in Hbad.
      discriminate. }
    assert (Hhost : host (afterLock cfg n)
                    = if Helper.lockNetwork cfg then Helper.defaults_host cfg
                      else h) by apply afterLock_host.
    rewrite <- Hhost.
    apply checkHostAndSTS_exits in H
      as [(He & -> & -> & l & Hhd & ->)
         | [(Hn0 & -> & p & l & Hp & _ & -> & Hhd & ->)
           | (Hn0 & -> & -> & -> & _)]].
    + rewrite afterLock_channels, Hch in Hhd. injection Hhd as <-.
      split; [split; [discriminate | tauto]|].
      split; [tauto|]. split; [auto | discriminate].
    + rewrite afterLock_channels, Hch in Hhd. injection Hhd as <-.
      split; [tauto|]. split; [tauto|]. split; [discriminate|].
      intros _. right. exists p.
      destruct (applySTS_keeps p (afterLock cfg n))
        as (_ & _ & _ & _ & _ & _ & ->). auto.
    + split; [tauto|]. split; [tauto|]. split; [discriminate | auto].
Qed.

(** X5.  Without a lock, [validate] never leaves the port NaN: a port
    that is missing, zero or NaN becomes 6697 when TLS is on and 6667
    when it is off, any other port is kept, and only an STS upgrade
    replaces it, by the policy's port. *)
Theorem validate_port cfg sts now n b n' es :
  Helper.lockNetwork cfg = false ->
  validate cfg sts now n = Normal (b, n', es) ->
  let chosen := if num_truthy (port n) then port n
                else Num (if tls n then 6697 else 6667) in
  port n' <> NaN
  /\ num_truthy chosen = true
  /\ (port n' = chosen
      \/ exists p, b = true /\ tls n = false
           /\ STSPolicies.get sts now (host n') = Some p
           /\ port n' = Num (STSPolicies.port p)).
Proof.
  intros Hl H chosen.
  assert (Hchosen : num_truthy chosen = true).
  { unfold chosen. destruct (num_truthy (port n)) eqn:E; [exact E|].
    now destruct (tls n). }
  assert (Hnan : chosen <> NaN).
  { intros E. rewrite E in Hchosen. discriminate. }
  assert (Hk : afterLock cfg n = normalize cfg n)
    by (unfold afterLock; now rewrite Hl).
  apply validate_exits in H as [(Hl' & _) | [_ H]]; [congruence|].
  rewrite Hk in H.
  apply checkHostAndSTS_exits in H
    as [(_ & _ & -> & _) | [(_ & -> & p & l & Hp & Ht & -> & _)
                           | (_ & _ & -> & _)]].
  - rewrite normalize_port. fold chosen. auto.
  - split; [discriminate|]. split; [exact Hchosen|]. right. exists p.
    rewrite normalize_tls in Ht.
    destruct (applySTS_keeps p (normalize cfg n))
      as (_ & _ & _ & _ & _ & _ & ->). auto.
  - rewrite normalize_port. fold chosen. auto.
Qed.

End VerdictFacts.

(* ================================================================= *)
(** ** Further properties: an accepted edit *)

Section AcceptedEditFacts.

Context {R : Runtime}.

Import Network.

Lemma syncLobbyName_keeps m n0 :
  syncLobbyName m = Normal n0 ->
  irc n0 = irc m /\ nick n0 = nick m /\ realname n0 = realname m
  /\ uuid n0 = uuid m.
Proof.
  unfold syncLobbyName. destruct (channels m) as [|lobby rest];
    [discriminate|].
  intros H; injection H as <-. repeat split.
Qed.

Lemma assignArgs_keeps a n :
  irc (assignArgs a n) = irc n /\ uuid (assignArgs a n) = uuid n.
Proof. split; reflexivity. Qed.

(** What [edit] comes to once [validate] has accepted. *)
Lemma edit_accepted cfg sts now a n n0 n1 es :
  syncLobbyName (assignArgs a n) = Normal n0 ->
  validate cfg sts now n0 = Normal (true, n1, es) ->
  irc n1 = irc n
  /\ uuid n1 = uuid n
  /\ edit cfg sts now a n
     = match irc n with
       | Some h =>
           Normal (set_irc (Some (fst (syncIrc cfg (nick n) (realname n) n1 h)))
                     n1,
                   es ++ snd (syncIrc cfg (nick n) (realname n) n1 h)
                      ++ [ClientSave])
       | None => Normal (n1, es ++ [ClientSave])
       end.
Proof.
  intros Hsync Hval.
  destruct (syncLobbyName_keeps _ _ Hsync) as (Hi0 & _ & _ & Hu0).
  destruct (assignArgs_keeps a n) as (Hi & Hu).
  destruct (validate_keeps _ _ _ _ _ _ _ Hval) as (_ & _ & _ & _ & Hu1 & Hi1).
  assert (Hirc : irc n1 = irc n) by congruence.
  split; [exact Hirc|]. split; [congruence|].
  unfold edit. rewrite Hsync, Hval. cbv beta iota. rewrite Hirc.
  destruct (irc n) as [h|]; [|reflexivity].
  destruct (syncIrc cfg (nick n) (realname n) n1 h) as [h' calls].
  reflexivity.
Qed.

(** X6.  When [validate] accepts an edit, the last call [edit] makes is
    the save.  With a connection handle, the handle then carries the
    network's validated host, port, password, real name (as gecos, in
    the options and in the user), TLS flag and certificate flag, so the
    next reconnect uses them; its connection is not touched; its
    username follows the network's unless usernames are derived from
    the client's address ([useHexIp]), in which case it is left as it
    was.  Without a handle, only the save is added. *)
Theorem edit_accepted_syncs_handle cfg sts now a n n0 n1 es :
  syncLobbyName (assignArgs a n) = Normal n0 ->
  validate cfg sts now n0 = Normal (true, n1, es) ->
  (irc n = None -> edit cfg sts now a n = Normal (n1, es ++ [ClientSave]))
  /\ (forall h,
        irc n = Some h ->
        exists h' calls,
          edit cfg sts now a n
          = Normal (set_irc (Some h') n1, es ++ calls ++ [ClientSave])
          /\ ~ In ClientSave calls
          /\ Irc.conn h' = Irc.conn h
          /\ Irc.cap_setname h' = Irc.cap_setname h
          /\ Irc.o_host (Irc.opts h') = host n1
          /\ Irc.o_port (Irc.opts h') = port n1
          /\ Irc.o_password (Irc.opts h') = password n1
          /\ Irc.o_gecos (Irc.opts h') = realname n1
          /\ Irc.u_gecos (Irc.usr h') = realname n1
          /\ Irc.o_tls (Irc.opts h') = tls n1
          /\ Irc.o_rejectUnauthorized (Irc.opts h') = rejectUnauthorized n1
          /\ (Helper.useHexIp cfg = false ->
              Irc.o_username (Irc.opts h') = username n1
              /\ Irc.u_username (Irc.usr h') = username n1)
          /\ (Helper.useHexIp cfg = true ->
              Irc.o_username (Irc.opts h') = Irc.o_username (Irc.opts h)
              /\ Irc.u_username (Irc.usr h') = Irc.u_username (Irc.usr h))).
Proof.
  intros Hsync Hval.
  destruct (edit_accepted _ _ _ _ _ _ _ _ Hsync Hval) as (_ & _ & He).
  split.
  - intros Hn. rewrite Hn in He. exact He.
  - intros h Hh. rewrite Hh in He.
    exists (fst (syncIrc cfg (nick n) (realname n) n1 h)),
           (snd (syncIrc cfg (nick n) (realname n) n1 h)).
    split; [exact He|]. clear He.
    unfold syncIrc.
    destruct (negb (strict_eqb (nick n1) (nick n)));
      destruct (isConnected h);
      destruct (negb (JS.eqb (realname n1) (realname n)));
      destruct (Irc.cap_setname h) eqn:Hcap;
      destruct (Helper.useHexIp cfg);
      cbn [andb negb fst snd app Irc.conn Irc.opts Irc.usr Irc.cap_setname
           Irc.o_host Irc.o_port Irc.o_password Irc.o_gecos Irc.o_tls
           Irc.o_rejectUnauthorized Irc.o_username Irc.u_gecos
           Irc.u_username Irc.o_nick Irc.u_nick];
      (split; [intros Hin; simpl in Hin;
               repeat (destruct Hin as [Hin|Hin]; [discriminate|]);
               exact Hin|]);
      repeat split; try discriminate; try congruence.
Qed.

(** X7.  On an accepted edit with a connection handle, the calls
    between the validation messages and the save are these and no
    others.  If the nick differs from the one before the edit: the new
    nick is sent to the engine when the connection is up, and the
    handle's own nick waits for the server; when it is down, the
    handle's nick (options and user) is set and the client is told.
    If the real name differs, the connection is up and the server has
    enabled [setname]: a SETNAME with the new real name.  So nothing is
    sent to the engine while the connection is down. *)
Theorem edit_accepted_calls cfg sts now a n n0 n1 es h :
  syncLobbyName (assignArgs a n) = Normal n0 ->
  validate cfg sts now n0 = Normal (true, n1, es) ->
  irc n = Some h ->
  let nickChanged := negb (strict_eqb (nick n1) (nick n)) in
  let nameChanged := negb (JS.eqb (realname n1) (realname n)) in
  let connected := isConnected h in
  exists h',
    edit cfg sts now a n
    = Normal (set_irc (Some h') n1,
              es
              ++ (if nickChanged then
                    if connected then [IrcChangeNick (nick n1)]
                    else [ClientEmitNick (uuid n) (nick n1)]
                  else [])
              ++ (if connected && nameChanged && Irc.cap_setname h
                  then [IrcRaw (lit "SETNAME") (realname n1)] else [])
              ++ [ClientSave])
    /\ Irc.o_nick (Irc.opts h')
       = (if nickChanged && negb connected then nick n1
          else Irc.o_nick (Irc.opts h))
    /\ Irc.u_nick (Irc.usr h')
       = (if nickChanged && negb connected then nick n1
          else Irc.u_nick (Irc.usr h)).
Proof.
  intros Hsync Hval Hh nickChanged nameChanged connected.
  destruct (edit_accepted _ _ _ _ _ _ _ _ Hsync Hval) as (_ & Hu & He).
  rewrite Hh in He.
  exists (fst (syncIrc cfg (nick n) (realname n) n1 h)).
  split.
  - assert (Hcalls :
              snd (syncIrc cfg (nick n) (realname n) n1 h)
              = (if nickChanged then
                   if connected then [IrcChangeNick (nick n1)]
                   else [ClientEmitNick (uuid n) (nick n1)]
                 else [])
                ++ (if connected && nameChanged && Irc.cap_setname h
                    then [IrcRaw (lit "SETNAME") (realname n1)] else [])).
    { unfold syncIrc. fold nickChanged nameChanged connected. rewrite Hu.
      destruct nickChanged; destruct connected; destruct nameChanged;
        destruct (Irc.cap_setname h); destruct (Helper.useHexIp cfg);
        reflexivity. }
    rewrite He, Hcalls, <- app_assoc. reflexivity.
  - unfold syncIrc. fold nickChanged nameChanged connected.
    destruct nickChanged; destruct connected; destruct nameChanged;
      destruct (Irc.cap_setname h); destruct (Helper.useHexIp cfg);
      split; reflexivity.
Qed.

End AcceptedEditFacts.

(* ================================================================= *)
(** ** Further properties: the commands of an edit *)

Section CommandFacts.

Context {R : Runtime}.

Import Network.

Lemma normalizeNewlines_no_cr (s : jstring) :
  ~ In 13%N (normalizeNewlines s)
  /\ forall c, ~ In 13%N (normalizeNewlines (c :: s)).
Proof.
  induction s as [|a s [IH1 IH2]].
  - split; [simpl; tauto|]. intros c. simpl.
    destruct (N.eqb c 13) eqn:E; simpl; [intros [H|[]]; discriminate|].
    apply N.eqb_neq in E. intros [H|[]]. congruence.
  - split; [apply IH2|]. intros c.
    change (normalizeNewlines (c :: a :: s))
      with (if N.eqb c 13
            then if N.eqb a 10 then 10%N :: normalizeNewlines s
                 else 10%N :: normalizeNewlines (a :: s)
            else c :: normalizeNewlines (a :: s)).
    destruct (N.eqb c 13) eqn:E.
    + destruct (N.eqb a 10); intros [H|H]; try discriminate;
        [now apply IH1 | now apply (IH2 a)].
    + apply N.eqb_neq in E. intros [H|H]; [congruence | now apply (IH2 a)].
Qed.

Lemma normalizeNewlines_units (s : jstring) :
  (forall c, In c (normalizeNewlines s) -> c = 10%N \/ In c s)
  /\ forall a c, In c (normalizeNewlines (a :: s)) ->
                 c = 10%N \/ c = a \/ In c s.
Proof.
  induction s as [|b s [IH1 IH2]].
  - split; [simpl; tauto|]. intros a c. simpl.
    destruct (N.eqb a 13); simpl; intros [H|[]]; auto.
  - split.
    + intros c Hc. apply IH2 in Hc as [H|[H|H]]; subst; simpl; auto.
    + intros a c.
      change (normalizeNewlines (a :: b :: s))
        with (if N.eqb a 13
              then if N.eqb b 10 then 10%N :: normalizeNewlines s
                   else 10%N :: normalizeNewlines (b :: s)
              else a :: normalizeNewlines (b :: s)).
      destruct (N.eqb a 13).
      * destruct (N.eqb b 10); intros [H|H]; auto.
        -- apply IH1 in H as [H|H]; simpl; auto.
        -- apply IH2 in H as [H|[H|H]]; subst; simpl; auto.
      * intros [H|H]; auto.
        apply IH2 in H as [H|[H|H]]; subst; simpl; auto.
Qed.

Lemma normalizeNewlines_fixed (s : jstring) :
  ~ In 13%N s -> normalizeNewlines s = s.
Proof.
  induction s as [|c s IH]; [reflexivity|]. intros Hno.
  change (normalizeNewlines (c :: s))
    with (if N.eqb c 13
          then match s with
               | d :: r' => if N.eqb d 10 then 10%N :: normalizeNewlines r'
                            else 10%N :: normalizeNewlines s
               | [] => [10%N]
               end
          else c :: normalizeNewlines s).
  destruct (N.eqb c 13) eqn:E.
  - apply N.eqb_eq in E. subst. exfalso. apply Hno. now left.
  - f_equal. apply IH. intros H. apply Hno. now right.
Qed.

Lemma split_pieces (sep : codeunit) (s : jstring) :
  split sep s <> []
  /\ forall w, In w (split sep s) ->
               ~ In sep w /\ forall c, In c w -> In c s.
Proof.
  induction s as [|c s [IHne IH]]; simpl.
  - split; [discriminate|]. intros w [<-|[]]. split; [tauto | tauto].
  - destruct (N.eqb c sep) eqn:E.
    + split; [discriminate|]. intros w [<-|Hw].
      * split; simpl; tauto.
      * destruct (IH w Hw) as [H1 H2]. split; [exact H1 | auto].
    + apply N.eqb_neq in E.
      destruct (split sep s) as [|w0 ws]; [contradiction|].
      split; [discriminate|]. intros w [<-|Hw].
      * destruct (IH w0 (or_introl eq_refl)) as [H1 H2]. split.
        -- intros [H|H]; [congruence | tauto].
        -- intros d [<-|Hd]; [now left | right; auto].
      * destruct (IH w (or_intror Hw)) as [H1 H2]. split; [exact H1 | auto].
Qed.

Lemma split_join (sep : codeunit) (w : jstring) (ws : list jstring) :
  Forall (fun x => ~ In sep x) (w :: ws) ->
  split sep (join sep (w :: ws)) = w :: ws.
Proof.
  revert w. induction ws as [|v ws IH]; intros w Hall.
  - simpl. inversion Hall as [|? ? Hw _]; subst. clear Hall.
    induction w as [|c w IHw]; simpl; [reflexivity|].
    destruct (N.eqb c sep) eqn:E.
    + apply N.eqb_eq in E. subst. exfalso. apply Hw. now left.
    + rewrite IHw; [reflexivity|]. intros H. apply Hw. now right.
  - inversion Hall as [|? ? Hw Hrest]; subst.
    change (join sep (w :: v :: ws)) with (w ++ sep :: join sep (v :: ws)).
    specialize (IH v Hrest). clear Hall.
    generalize dependent (join sep (v :: ws)). intros tail IH.
    induction w as [|c w IHw]; simpl.
    + rewrite N.eqb_refl. now rewrite IH.
    + destruct (N.eqb c sep) eqn:E.
      * apply N.eqb_eq in E. subst. exfalso. apply Hw. now left.
      * rewrite IHw; [reflexivity|]. intros H. apply Hw. now right.
Qed.

Lemma join_units (sep : codeunit) (ws : list jstring) :
  forall c, In c (join sep ws) -> c = sep \/ exists w, In w ws /\ In c w.
Proof.
  induction ws as [|w ws IH]; intros c; [simpl; tauto|].
  destruct ws as [|v ws].
  - simpl. intros Hc. right. exists w. auto.
  - change (join sep (w :: v :: ws)) with (w ++ sep :: join sep (v :: ws)).
    intros Hc. apply in_app_or in Hc as [Hc|[Hc|Hc]].
    + right. exists w. split; [now left | exact Hc].
    + now left.
    + apply IH in Hc as [Hc|(x & Hx & Hc)]; [now left|].
      right. exists x. split; [now right | exact Hc].
Qed.

Lemma normalizeNewlines_plain (command rest : jstring) :
  ~ In 13%N command ->
  normalizeNewlines (command ++ rest) = command ++ normalizeNewlines rest.
Proof.
  induction command as [|c command IH]; intros Hno; [reflexivity|].
  change ((c :: command) ++ rest) with (c :: (command ++ rest)).
  change (normalizeNewlines (c :: (command ++ rest)))
    with (if N.eqb c 13
          then match command ++ rest with
               | d :: r' => if N.eqb d 10 then 10%N :: normalizeNewlines r'
                            else 10%N :: normalizeNewlines (command ++ rest)
               | [] => [10%N]
               end
          else c :: normalizeNewlines (command ++ rest)).
  destruct (N.eqb c 13) eqn:E.
  - apply N.eqb_eq in E. subst. exfalso. apply Hno. now left.
  - rewrite IH; [reflexivity|]. intros H. apply Hno. now right.
Qed.

Lemma split_plain (sep : codeunit) (command rest : jstring) :
  ~ In sep command ->
  split sep (command ++ sep :: rest) = command :: split sep rest.
Proof.
  induction command as [|c command IH]; intros Hno; simpl.
  - now rewrite N.eqb_refl.
  - destruct (N.eqb c sep) eqn:E.
    + apply N.eqb_eq in E. subst. exfalso. apply Hno. now left.
    + rewrite IH; [reflexivity|]. intros H. apply Hno. now right.
Qed.

Lemma split_last (sep : codeunit) (command : jstring) :
  ~ In sep command -> split sep command = [command].
Proof.
  induction command as [|c command IH]; intros Hno; simpl; [reflexivity|].
  destruct (N.eqb c sep) eqn:E.
  - apply N.eqb_eq in E. subst. exfalso. apply Hno. now left.
  - rewrite IH; [reflexivity|]. intros H. apply Hno. now right.
Qed.

(** Past a line ending, whichever of the three it is, the text is
    split as if it began there. *)
Lemma lineEnding_splits (ending rest : jstring) :
  In ending [[13%N; 10%N]; [13%N]; [10%N]] ->
  exists tail,
    normalizeNewlines (ending ++ rest) = 10%N :: tail
    /\ filter (fun command => (0 <? length command)%nat) (split 10%N tail)
       = filter (fun command => (0 <? length command)%nat)
                (split 10%N (normalizeNewlines rest)).
Proof.
  intros [<-|[<-|[<-|[]]]].
  - exists (normalizeNewlines rest). split; reflexivity.
  - destruct rest as [|d r].
    + exists []. split; reflexivity.
    + change (normalizeNewlines ([13%N] ++ d :: r))
        with (if N.eqb d 10 then 10%N :: normalizeNewlines r
              else 10%N :: normalizeNewlines (d :: r)).
      destruct (N.eqb d 10) eqn:E.
      * apply N.eqb_eq in E. subst d. exists (normalizeNewlines r).
        split; [reflexivity|].
        change (normalizeNewlines (10%N :: r))
          with (10%N :: normalizeNewlines r).
        reflexivity.
      * exists (normalizeNewlines (d :: r)). split; reflexivity.
  - exists (normalizeNewlines rest). split; reflexivity.
Qed.

Lemma lines_split (lines : list (jstring * jstring)) (last : jstring) :
  Forall (fun line =>
            ~ In 10%N (fst line) /\ ~ In 13%N (fst line)
            /\ In (snd line) [[13%N; 10%N]; [13%N]; [10%N]]) lines ->
  ~ In 10%N last -> ~ In 13%N last ->
  filter (fun command => (0 <? length command)%nat)
    (split 10%N
       (normalizeNewlines
          (flat_map (fun line => fst line ++ snd line) lines ++ last)))
  = filter (fun command => (0 <? length command)%nat)
      (map fst lines ++ [last]).
Proof.
  intros Hall Hlf Hcr.
  induction Hall as [|[command ending] lines (Hc10 & Hc13 & He) _ IH].
  - simpl flat_map. simpl map. simpl app.
    rewrite (normalizeNewlines_fixed _ Hcr), (split_last _ _ Hlf).
    reflexivity.
  - cbn [fst snd] in Hc10, Hc13, He. cbn [flat_map map fst snd].
    rewrite <- !app_assoc.
    rewrite (normalizeNewlines_plain _ _ Hc13).
    match goal with
    | |- context [normalizeNewlines (ending ++ ?rest)] =>
        destruct (lineEnding_splits ending rest He) as (tail & -> & Htail)
    end.
    rewrite (split_plain _ _ _ Hc10).
    rewrite <- app_comm_cons.
    cbn [filter]. rewrite Htail, IH. reflexivity.
Qed.

(** X8.  The commands [edit] stores are the lines of the submitted
    text, where a line ends at CR LF, at CR or at LF, with the empty
    lines dropped: for a text made of lines without CR and LF, each
    followed by one of the three line endings, and a last line without
    ending, the stored commands are the non-empty lines in order.  So
    the stored commands are never empty and hold neither CR nor LF,
    every code unit of a command comes from the submitted text, and
    commands of that form joined by LF are stored as they are. *)
Theorem splitCommands_lines :
  (forall lines last,
      Forall (fun line =>
                ~ In 10%N (fst line) /\ ~ In 13%N (fst line)
                /\ In (snd line) [[13%N; 10%N]; [13%N]; [10%N]]) lines ->
      ~ In 10%N last -> ~ In 13%N last ->
      splitCommands
        (JString (flat_map (fun line => fst line ++ snd line) lines ++ last))
      = filter (fun command => (0 <? length command)%nat)
               (map fst lines ++ [last]))
  /\ (forall v command,
        In command (splitCommands v) ->
        command <> [] /\ ~ In 10%N command /\ ~ In 13%N command
        /\ forall c, In c command -> In c (stringOrEmpty v))
  /\ (forall commands_,
        Forall (fun command =>
                  command <> [] /\ ~ In 10%N command /\ ~ In 13%N command)
               commands_ ->
        splitCommands (JString (join 10%N commands_)) = commands_)
  /\ (forall a n, commands (assignArgs a n) = splitCommands (a_commands a)).
Proof.
  assert (Hstr : forall s, stringOrEmpty (JString s) = s).
  { intros s. unfold stringOrEmpty, or_else. simpl.
    destruct s; reflexivity. }
  split; [|split; [|split; [|reflexivity]]].
  - intros lines last Hall Hlf Hcr. unfold splitCommands.
    rewrite Hstr. now apply lines_split.
  - intros v command Hin. unfold splitCommands in Hin.
    apply filter_In in Hin as [Hin Hlen].
    destruct (split_pieces 10%N (normalizeNewlines (stringOrEmpty v)))
      as [_ Hp].
    destruct (Hp command Hin) as [Hnl Hsub].
    split; [destruct command; [discriminate | discriminate]|].
    split; [exact Hnl|]. split.
    + intros H13. apply Hsub in H13.
      now apply (proj1 (normalizeNewlines_no_cr (stringOrEmpty v))).
    + intros c Hc. pose proof (Hsub c Hc) as Hc'.
      apply (proj1 (normalizeNewlines_units (stringOrEmpty v))) in Hc'
        as [E|Hc']; [|exact Hc'].
      subst c. contradiction.
  - intros cmds Hall. unfold splitCommands. rewrite Hstr.
    assert (Hno : ~ In 13%N (join 10%N cmds)).
    { intros H. apply join_units in H as [H|(w & Hw & H)]; [discriminate|].
      rewrite Forall_forall in Hall. now apply (Hall w Hw). }
    rewrite (normalizeNewlines_fixed _ Hno).
    destruct cmds as [|w ws]; [reflexivity|].
    rewrite split_join.
    + apply filter_id. eapply Forall_impl; [|exact Hall]. simpl.
      intros x (Hx & _). destruct x; [contradiction | reflexivity].
    + eapply Forall_impl; [|exact Hall]. simpl. tauto.
Qed.

End CommandFacts.

(* ================================================================= *)
(** ** Further properties: adding a channel, then looking it up *)

Section LookupFacts.

Context {R : Runtime}.

Import Network.

Lemma getChannel_find n name_ :
  getChannel n name_
  = find (fun that => JS.eqb (toLowerCase (Chan.name that))
                             (toLowerCase name_))
         (skipn 1 (channels n)).
Proof.
  unfold getChannel. destruct (channels n) as [|lobby rest]; simpl;
    [reflexivity|].
  now apply (findWithIndex_from
               (fun that => JS.eqb (toLowerCase (Chan.name that))
                                   (toLowerCase name_))).
Qed.

Lemma find_insert_other {A} (q : A -> bool) (pre post : list A) (x : A) :
  q x = false -> find q (pre ++ x :: post) = find q (pre ++ post).
Proof.
  intros Hx. induction pre as [|y pre IH]; simpl.
  - now rewrite Hx.
  - destruct (q y); [reflexivity | exact IH].
Qed.

Lemma find_insert_hit {A} (q : A -> bool) (pre post : list A) (x : A) :
  q x = true ->
  exists y, find q (pre ++ x :: post) = Some y /\ q y = true.
Proof.
  intros Hx. induction pre as [|y pre IH]; simpl.
  - rewrite Hx. eauto.
  - destruct (q y) eqn:E; [eauto | exact IH].
Qed.

Lemma find_insert_keeps {A} (q : A -> bool) (pre post : list A) (x : A) :
  find q (pre ++ post) <> None -> find q (pre ++ x :: post) <> None.
Proof.
  induction pre as [|y pre IH]; simpl.
  - destruct (q x); [discriminate | auto].
  - destruct (q y); [discriminate | exact IH].
Qed.

(** The registry after [addChannel], as the old entries around the new
    one. *)
Lemma addChannel_around n lobby rest newChan :
  channels n = lobby :: rest ->
  exists pre post,
    rest = pre ++ post
    /\ channels (fst (addChannel n newChan))
       = lobby :: pre ++ newChan :: post.
Proof.
  intros Hch.
  destruct (addChannel_shapes n lobby rest newChan Hch)
    as [(_ & pre & d & post & -> & _ & _ & _ & ->)
       | [(_ & _ & _ & ->) | (_ & _ & ->)]].
  - exists pre, (d :: post). auto.
  - exists rest, []. now rewrite app_nil_r.
  - exists rest, []. now rewrite app_nil_r.
Qed.

(** X9.  In a network with its lobby in place, an entity just added by
    [addChannel] is found by [getChannel] under its name, in any
    letter case: the lookup yields an entry of that name (the new one,
    or an older namesake placed before it).  Lookups of other names
    give what they gave before, and no name that resolved before stops
    resolving. *)
Theorem addChannel_then_getChannel n lobby rest newChan :
  channels n = lobby :: rest ->
  let n' := fst (addChannel n newChan) in
  (forall name_,
      toLowerCase name_ = toLowerCase (Chan.name newChan) ->
      exists found,
        getChannel n' name_ = Some found
        /\ toLowerCase (Chan.name found) = toLowerCase (Chan.name newChan))
  /\ (forall name_,
        toLowerCase name_ <> toLowerCase (Chan.name newChan) ->
        getChannel n' name_ = getChannel n name_)
  /\ (forall name_, getChannel n name_ <> None -> getChannel n' name_ <> None).
Proof.
  intros Hch n'.
  destruct (addChannel_around n lobby rest newChan Hch)
    as (pre & post & Hrest & Hn').
  fold n' in Hn'.
  assert (Hold : forall name_,
             getChannel n name_
             = find (fun that => JS.eqb (toLowerCase (Chan.name that))
                                        (toLowerCase name_))
                    (pre ++ post)).
  { intros name_. rewrite getChannel_find, Hch, Hrest. reflexivity. }
  assert (Hnew : forall name_,
             getChannel n' name_
             = find (fun that => JS.eqb (toLowerCase (Chan.name that))
                                        (toLowerCase name_))
                    (pre ++ newChan :: post)).
  { intros name_. rewrite getChannel_find, Hn'. reflexivity. }
  split; [|split].
  - intros name_ Hname. rewrite Hnew.
    destruct (find_insert_hit
                (fun that => JS.eqb (toLowerCase (Chan.name that))
                                    (toLowerCase name_))
                pre post newChan) as (y & Hy & Hq).
    + apply eqb_eq. now symmetry.
    + exists y. split; [exact Hy|]. apply eqb_eq in Hq. congruence.
  - intros name_ Hname. rewrite Hnew, Hold. apply find_insert_other.
    apply eqb_neq. congruence.
  - intros name_. rewrite Hnew, Hold. apply find_insert_keeps.
Qed.

End LookupFacts.

(* ================================================================= *)
(** ** Further properties: construction, growth and export *)

Section ConstructionFacts.

Context {R : Runtime}.

Import Network.

Lemma Network_channels a uuidv4 :
  channels (Network a uuidv4)
  = Chan.mk (name (Network a uuidv4)) Chan.LOBBY []
    :: defaultTo (attr_channels a) [].
Proof.
  unfold Network. destruct a. simpl.
  destruct attr_uuid0 as [[|? ?]|]; destruct attr_name0 as [[|? ?]|];
    reflexivity.
Qed.

(** X10.  A constructed network has the lobby at index 0, named after
    the network and followed by exactly the channels given; its name
    is the name given or, when that is missing or empty, the host; its
    identifier is the one given or, when that is missing or empty, a
    fresh one; no connection handle and no highlight pattern exist
    yet.  [getChannel] on it searches the channels given and never
    meets the lobby. *)
Theorem Network_constructed a uuidv4 :
  let n := Network a uuidv4 in
  channels n
  = Chan.mk (name n) Chan.LOBBY [] :: defaultTo (attr_channels a) []
  /\ name n = match attr_name a with
              | Some (c :: s) => c :: s
              | _ => defaultTo (attr_host a) []
              end
  /\ host n = defaultTo (attr_host a) []
  /\ uuid n = match attr_uuid a with
              | Some (c :: s) => c :: s
              | _ => uuidv4
              end
  /\ irc n = defaultTo (attr_irc a) None
  /\ highlightRegex n = None
  /\ (forall name_,
        getChannel n name_
        = find (fun that => JS.eqb (toLowerCase (Chan.name that))
                                   (toLowerCase name_))
               (defaultTo (attr_channels a) [])).
Proof.
  intros n.
  assert (Hch : channels n
                = Chan.mk (name n) Chan.LOBBY []
                  :: defaultTo (attr_channels a) [])
    by apply Network_channels.
  split; [exact Hch|].
  split.
  { unfold n, Network. destruct a. simpl.
    destruct attr_uuid0 as [[|? ?]|]; destruct attr_name0 as [[|? ?]|];
      reflexivity. }
  split.
  { unfold n, Network. destruct a. simpl.
    destruct attr_uuid0 as [[|? ?]|]; destruct attr_name0 as [[|? ?]|];
      reflexivity. }
  split.
  { unfold n, Network. destruct a. simpl.
    destruct attr_uuid0 as [[|? ?]|]; destruct attr_name0 as [[|? ?]|];
      reflexivity. }
  split.
  { unfold n, Network. destruct a. simpl.
    destruct attr_uuid0 as [[|? ?]|]; destruct attr_name0 as [[|? ?]|];
      reflexivity. }
  split.
  { unfold n, Network. destruct a. simpl.
    destruct attr_uuid0 as [[|? ?]|]; destruct attr_name0 as [[|? ?]|];
      reflexivity. }
  intros name_. rewrite getChannel_find, Hch. reflexivity.
Qed.

Lemma addChannels_permutation lobby : forall l n rest,
  channels n = lobby :: rest ->
  exists rest',
    channels (addChannels n l) = lobby :: rest'
    /\ Permutation rest' (rest ++ l).
Proof.
  induction l as [|c l IH]; intros n rest Hch.
  - exists rest. split; [exact Hch | now rewrite app_nil_r].
  - change (addChannels n (c :: l))
      with (addChannels (fst (addChannel n c)) l).
    destruct (addChannel_around n lobby rest c Hch)
      as (pre & post & -> & Hn').
    destruct (IH _ _ Hn') as (rest' & Hr & Hp).
    exists rest'. split; [exact Hr|].
    eapply Permutation_trans; [exact Hp|].
    rewrite <- !app_assoc. simpl.
    apply Permutation_app_head. apply Permutation_middle.
Qed.

(** X11.  Take a network constructed with channels and queries in
    sorted order, followed at most by entries of other kinds (or with
    no channels at all), and add entities to it by [addChannel] in any
    number and order.  Then the lobby is still first, the entries
    after it are the given and added ones, each exactly once, the
    channels and queries come before all other entries, and they are
    sorted by name under the collation. *)
Theorem constructed_registry_stays_sorted a uuidv4 added :
  (forall x y, (0 < localeCompare x y)%Z -> (localeCompare y x <= 0)%Z) ->
  channelsLead (defaultTo (attr_channels a) []) = true ->
  Sorted sortsAtOrBefore
    (filter isChannelOrQuery (defaultTo (attr_channels a) [])) ->
  let n := addChannels (Network a uuidv4) added in
  exists rest,
    channels n = Chan.mk (name (Network a uuidv4)) Chan.LOBBY [] :: rest
    /\ Permutation rest (defaultTo (attr_channels a) [] ++ added)
    /\ channelsLead rest = true
    /\ Sorted sortsAtOrBefore (filter isChannelOrQuery rest).
Proof.
  intros Htotal Hlead Hsorted n.
  pose proof (Network_channels a uuidv4) as Hch.
  destruct (addChannels_permutation _ added _ _ Hch) as (rest & Hr & Hp).
  fold n in Hr. exists rest. split; [exact Hr|]. split; [exact Hp|].
  destruct (addChannels_sorted
              (Chan.mk (name (Network a uuidv4)) Chan.LOBBY []) Htotal added
              (Network a uuidv4)) as (_ & Hl & Hs).
  - now rewrite Hch.
  - now rewrite Hch.
  - unfold channelSubsequence. now rewrite Hch.
  - fold n in Hl, Hs. unfold channelSubsequence in Hs.
    rewrite Hr in Hl, Hs. auto.
Qed.

Lemma export_fields n l :
  export (set_channels l n)
  = mkExported (uuid n) (awayMessage n) (nick n) (name n) (host n) (port n)
      (tls n) (userDisconnected n) (rejectUnauthorized n) (password n)
      (username n) (realname n) (commands n) (ignoreList n)
      (map exportChan (filter isChannelOrQuery l)).
Proof. reflexivity. Qed.

Lemma addChannel_set_channels n newChan :
  fst (addChannel n newChan)
  = set_channels (channels (fst (addChannel n newChan))) n.
Proof. reflexivity. Qed.

(** X12.  [export] keeps the channels and queries, in registry order,
    each as its name with the key (channel) or the type (query); the
    lobby and the entries of other kinds are never exported.  So adding
    a special entry does not change what is saved, and adding a
    channel or query adds one entry to the exported list, leaving the
    others and every other exported field as they were. *)
Theorem export_channels_only n lobby rest newChan :
  channels n = lobby :: rest ->
  Chan.type lobby = Chan.LOBBY ->
  let n' := fst (addChannel n newChan) in
  e_channels (export n) = map exportChan (filter isChannelOrQuery rest)
  /\ (forall x, In x (e_channels (export n)) ->
        exists c, In c rest
          /\ ((Chan.type c = Chan.CHANNEL
               /\ x = ExportedChannel (Chan.name c) (Chan.key c))
              \/ (Chan.type c = Chan.QUERY
                  /\ x = ExportedQuery (Chan.name c) Chan.QUERY)))
  /\ (isChannelOrQuery newChan = false -> export n' = export n)
  /\ (isChannelOrQuery newChan = true ->
      exists before after,
        e_channels (export n) = before ++ after
        /\ e_channels (export n') = before ++ exportChan newChan :: after).
Proof.
  intros Hch Hlobby n'.
  assert (Hl : isChannelOrQuery lobby = false).
  { unfold isChannelOrQuery. now rewrite Hlobby. }
  assert (He : e_channels (export n)
               = map exportChan (filter isChannelOrQuery rest)).
  { unfold export. simpl. rewrite Hch. simpl. now rewrite Hl. }
  split; [exact He|]. split.
  { rewrite He. intros x Hx. apply in_map_iff in Hx as (c & <- & Hc).
    apply filter_In in Hc as [Hin Hcq]. exists c. split; [exact Hin|].
    unfold exportChan. unfold isChannelOrQuery in Hcq.
    destruct (Chan.type c) eqn:Ht; simpl in *; try discriminate; auto. }
  destruct (addChannel_around n lobby rest newChan Hch)
    as (pre & post & Hrest & Hn').
  fold n' in Hn'.
  assert (Hn2 : n' = set_channels (channels n') n)
    by apply addChannel_set_channels.
  clearbody n'.
  assert (Hex : export n'
                = mkExported (uuid n) (awayMessage n) (nick n) (name n)
                    (host n) (port n) (tls n) (userDisconnected n)
                    (rejectUnauthorized n) (password n) (username n)
                    (realname n) (commands n) (ignoreList n)
                    (map exportChan
                       (filter isChannelOrQuery (pre ++ newChan :: post)))).
  { rewrite Hn2 at 1. rewrite export_fields, Hn'. simpl filter.
    now rewrite Hl. }
  assert (Hold : export n
                 = mkExported (uuid n) (awayMessage n) (nick n) (name n)
                     (host n) (port n) (tls n) (userDisconnected n)
                     (rejectUnauthorized n) (password n) (username n)
                     (realname n) (commands n) (ignoreList n)
                     (map exportChan
                        (filter isChannelOrQuery (pre ++ post)))).
  { unfold export. rewrite Hch, Hrest. simpl filter. now rewrite Hl. }
  split.
  - intros Hk. rewrite Hex, Hold, !filter_app. simpl filter.
    now rewrite Hk.
  - intros Hk.
    exists (map exportChan (filter isChannelOrQuery pre)),
           (map exportChan (filter isChannelOrQuery post)).
    rewrite Hex, Hold. cbn [e_channels].
    rewrite !filter_app, !map_app. simpl filter. rewrite Hk.
    split; reflexivity.
Qed.

End ConstructionFacts.

(* ================================================================= *)
(** ** Further properties: the edit form and the connection status *)

Section ProjectionFacts.

Context {P : ChanProjection}.

Import Network.

Lemma exportForEdit_shape displayNetwork sts now n :
  exportForEdit displayNetwork sts now n
  = (if displayNetwork then
       [ ("uuid", VString (uuid n));
         ("nick", VVal (nick n));
         ("name", VString (name n));
         ("host", VString (host n));
         ("port", VNumber (port n));
         ("tls", VBool (tls n));
         ("rejectUnauthorized", VBool (rejectUnauthorized n));
         ("password", VString (password n));
         ("username", VString (username n));
         ("realname", VString (realname n));
         ("commands", VStrings (commands n)) ]
     else
       [ ("name", VString (name n));
         ("nick", VVal (nick n));
         ("username", VString (username n));
         ("password", VString (password n));
         ("realname", VString (realname n)) ])
    ++ [("hasSTSPolicy",
         VBool (match STSPolicies.get sts now (host n) with
                | Some _ => true
                | None => false
                end))].
Proof.
  unfold exportForEdit, ownProperties.
  destruct displayNetwork; destruct (highlightRegex n); reflexivity.
Qed.

(** X13.  [exportForEdit] always hands out name, nick, username,
    password and real name with the network's values, and the flag
    [hasSTSPolicy], which is true exactly when the store holds an
    unexpired policy for the host.  When networks are hidden
    ([displayNetwork] off) it hands out nothing else: host, port, TLS
    and certificate flags, commands and identifier are withheld.  The
    connection handle, the ignore list and the channels are never part
    of it. *)
Theorem exportForEdit_fields displayNetwork sts now n :
  let data := exportForEdit displayNetwork sts now n in
  get data "name" = Some (VString (name n))
  /\ get data "nick" = Some (VVal (nick n))
  /\ get data "username" = Some (VString (username n))
  /\ get data "password" = Some (VString (password n))
  /\ get data "realname" = Some (VString (realname n))
  /\ (get data "hasSTSPolicy" = Some (VBool true)
      <-> STSPolicies.get sts now (host n) <> None)
  /\ (get data "hasSTSPolicy" = Some (VBool false)
      <-> STSPolicies.get sts now (host n) = None)
  /\ get data "irc" = None
  /\ get data "ignoreList" = None
  /\ get data "channels" = None
  /\ (displayNetwork = false ->
      forall prop v, In (prop, v) data ->
        In prop ["name"; "nick"; "username"; "password"; "realname";
                 "hasSTSPolicy"])
  /\ (displayNetwork = true ->
      get data "host" = Some (VString (host n))
      /\ get data "port" = Some (VNumber (port n))
      /\ get data "tls" = Some (VBool (tls n))
      /\ get data "rejectUnauthorized" = Some (VBool (rejectUnauthorized n))
      /\ get data "commands" = Some (VStrings (commands n))
      /\ get data "uuid" = Some (VString (uuid n))).
Proof.
  intros data. subst data. rewrite exportForEdit_shape.
  destruct (STSPolicies.get sts now (host n)) as [p|];
    destruct displayNetwork;
    repeat match goal with
           | |- _ /\ _ => split
           | |- _ <-> _ => split
           end;
    try reflexivity; try discriminate; try congruence;
    try (intros; exfalso; congruence).
  all: try (intros _ prop v H; simpl in H;
            repeat (destruct H as [H | H];
                    [inversion H; subst; simpl; tauto|]);
            contradiction).
  all: intros _; repeat split.
Qed.

(** X14.  The status reports [secure] exactly when a socket exists
    under handle, connection and transport and either it is encrypted
    with an authorized peer or its remote address is 127.0.0.1, and
    [connected] exactly when such a socket exists and the transport
    says it is connected.  It reads the handle only: two networks with
    the same handle have the same status, whatever their own TLS
    settings. *)
Theorem getNetworkStatus_reads_socket n :
  (status_secure (getNetworkStatus n) = true <->
   exists h c transport sock,
     irc n = Some h /\ Irc.conn h = Some c
     /\ Irc.connection_transport c = Some transport
     /\ Irc.transport_socket transport = Some sock
     /\ ((Irc.encrypted sock = true /\ Irc.authorized sock = true)
         \/ Irc.remoteAddress sock = lit "127.0.0.1"))
  /\ (status_connected (getNetworkStatus n) = true <->
      exists h c transport sock,
        irc n = Some h /\ Irc.conn h = Some c
        /\ Irc.connection_transport c = Some transport
        /\ Irc.transport_socket transport = Some sock
        /\ Irc.isConnected transport = true)
  /\ (forall m, irc m = irc n -> getNetworkStatus m = getNetworkStatus n).
Proof.
  split; [|split].
  - unfold getNetworkStatus. split.
    + destruct (irc n) as [h|]; [|discriminate].
      destruct (Irc.conn h) as [c|] eqn:Hc; [|discriminate].
      destruct (Irc.connection_transport c) as [tr|] eqn:Ht; [|discriminate].
      destruct (Irc.transport_socket tr) as [sock|] eqn:Hs; [|discriminate].
      simpl. intros H. exists h, c, tr, sock. repeat split; auto.
      apply orb_true_iff in H as [H|H].
      * left. now apply andb_true_iff.
      * right. now apply eqb_eq.
    + intros (h & c & tr & sock & -> & -> & -> & -> & H). simpl.
      apply orb_true_iff. destruct H as [[H1 H2]|H].
      * left. now rewrite H1, H2.
      * right. rewrite H. apply eqb_refl.
  - unfold getNetworkStatus. split.
    + destruct (irc n) as [h|]; [|discriminate].
      destruct (Irc.conn h) as [c|] eqn:Hc; [|discriminate].
      destruct (Irc.connection_transport c) as [tr|] eqn:Ht; [|discriminate].
      destruct (Irc.transport_socket tr) as [sock|] eqn:Hs; [|discriminate].
      simpl. intros H. exists h, c, tr, sock. repeat split; auto.
    + intros (h & c & tr & sock & -> & -> & -> & -> & H). exact H.
  - intros m Hm. unfold getNetworkStatus. now rewrite Hm.
Qed.

End ProjectionFacts.

(* ================================================================= *)
(** ** Further properties: the manager's cache and the event loop *)

Section CacheFacts.

Context {J : Json}.

Import ClientManager.

Lemma find_app_miss {A} (q : A -> bool) (l : list A) (x : A) :
  find q l = None -> q x = true -> find q (l ++ [x]) = Some x.
Proof.
  induction l as [|y l IH]; simpl; intros Hl Hx.
  - now rewrite Hx.
  - destruct (q y); [discriminate | auto].
Qed.

Lemma forEachRow_all rows : forall m,
  Forall (fun r => JSON_parse (row_config r) <> None) rows ->
  exists sessions,
    forEachRow rows m = (mk (clients m ++ sessions) (pending m) (logged m),
                         None)
    /\ map name sessions = map row_username rows
    /\ Forall2 (fun r c => JSON_parse (row_config r) = Some (config c))
               rows sessions.
Proof.
  induction rows as [|r rows IH]; intros m Hall.
  - exists []. simpl. rewrite app_nil_r. now destruct m.
  - inversion Hall as [|? ? Hr Hrest]; subst. simpl.
    destruct (JSON_parse (row_config r)) as [c|] eqn:E; [|contradiction].
    destruct (IH (pushClient (mkClient (row_username r) c) m) Hrest)
      as (sessions & Hf & Hn & Hc).
    exists (mkClient (row_username r) c :: sessions).
    rewrite Hf. simpl. rewrite <- app_assoc. simpl.
    split; [reflexivity|]. split; [now f_equal|]. now constructor.
Qed.

(** The answer to a select that found one parsable row. *)
Lemma select_answer name_ m tb r config_ :
  pending m = [] ->
  filter (fun r => JS.eqb (row_username r) name_) tb = [r] ->
  JSON_parse (row_config r) = Some config_ ->
  turn (snd (loadUser name_ m), tb)
  = (match find (fun u => JS.eqb (name u) name_) (clients m) with
     | Some _ => m
     | None => mk (clients m ++ [mkClient name_ config_]) [] (logged m)
     end, tb, None).
Proof.
  intros Hp Hf Hc. unfold loadUser.
  destruct (find (fun u => JS.eqb (name u) name_) (clients m)).
  - simpl. rewrite Hp. reflexivity.
  - simpl. rewrite Hp. simpl. rewrite Hf. simpl. rewrite Hc.
    assert (Hr : row_username r = name_).
    { assert (Hin : In r (filter (fun r => JS.eqb (row_username r) name_) tb))
        by (rewrite Hf; now left).
      apply filter_In in Hin as [_ Hin]. now apply eqb_eq. }
    rewrite Hr. reflexivity.
Qed.

(** X15.  When no request is pending, the name is not cached, and the
    table holds one row for it whose configuration parses, [loadUser]
    returns absent and sends the select; the turn that answers it
    caches one session with that name and that configuration, changes
    neither table nor log, and leaves nothing pending; from then on
    [loadUser] returns that session and sends nothing more. *)
Theorem loadUser_after_answer name_ m tb r config_ :
  pending m = [] ->
  find (fun u => JS.eqb (name u) name_) (clients m) = None ->
  filter (fun r => JS.eqb (row_username r) name_) tb = [r] ->
  JSON_parse (row_config r) = Some config_ ->
  let m' := mk (clients m ++ [mkClient name_ config_]) [] (logged m) in
  fst (loadUser name_ m) = None
  /\ turn (snd (loadUser name_ m), tb) = (m', tb, None)
  /\ loadUser name_ m' = (Some (mkClient name_ config_), m')
  /\ getUsers m' = getUsers m ++ [name_].
Proof.
  intros Hp Hmiss Hf Hc m'.
  split; [rewrite loadUser_cache; simpl; exact Hmiss|].
  split; [rewrite (select_answer name_ m tb r config_ Hp Hf Hc), Hmiss;
          reflexivity|].
  split.
  - rewrite loadUser_cache. unfold m'. cbn [clients].
    rewrite (find_app_miss _ _ (mkClient name_ config_) Hmiss);
      [reflexivity|]. simpl. apply eqb_refl.
  - unfold getUsers, m'. cbn [clients]. now rewrite map_app.
Qed.

(** X16.  An account that [addUser] creates can be loaded.  For a name
    without separator that the table does not hold yet, with nothing
    pending and nothing cached: [addUser] returns [true]; the turn that
    runs its insert appends the row, holding the serialised password
    and log flag, to the table; and, when that text parses, a lookup
    answered afterwards caches a session of that name with the parsed
    configuration. *)
Theorem addUser_then_loadUser name_ password enableLog m tb config_ :
  Path.basename name_ = name_ ->
  existsb (fun r => JS.eqb (row_username r) name_) tb = false ->
  pending m = [] ->
  find (fun u => JS.eqb (name u) name_) (clients m) = None ->
  let text :=
    JSON_stringify_user (if truthy password then password else JString [])
                        enableLog in
  JSON_parse text = Some config_ ->
  exists m1,
    addUser name_ password enableLog m = Normal (true, m1)
    /\ turn (m1, tb) = (m, tb ++ [mkRow name_ text], None)
    /\ fst (loadUser name_ m) = None
    /\ turn (snd (loadUser name_ m), tb ++ [mkRow name_ text])
       = (mk (clients m ++ [mkClient name_ config_]) [] (logged m),
          tb ++ [mkRow name_ text], None).
Proof.
  intros Hb Hnew Hp Hmiss text Hparse.
  exists (databaseQuery (InsertUser name_ text) m).
  split.
  { unfold addUser. apply eqb_eq in Hb. rewrite Hb. reflexivity. }
  split.
  { unfold turn, databaseQuery. cbn [pending clients logged].
    rewrite Hp. simpl. rewrite Hnew. simpl. rewrite <- Hp. now destruct m. }
  split; [rewrite loadUser_cache; simpl; exact Hmiss|].
  rewrite (select_answer name_ m _ (mkRow name_ text) config_ Hp);
    [now rewrite Hmiss | | exact Hparse].
  rewrite filter_app. simpl. rewrite eqb_refl.
  assert (Hnone : filter (fun r => JS.eqb (row_username r) name_) tb = []).
  { clear -Hnew. induction tb as [|r tb IH]; simpl in *; [reflexivity|].
    apply orb_false_iff in Hnew as [Hr Ht]. rewrite Hr. auto. }
  now rewrite Hnone.
Qed.

(** X17.  Each lookup of a name that is not cached sends its own
    select.  When two lookups of a stored name are made before the
    first answer arrives, both answers build a session: the cache ends
    with two sessions of that name, and [getUsers] lists the name
    twice. *)
Theorem loadUser_twice_caches_twice name_ m tb r config_ :
  pending m = [] ->
  find (fun u => JS.eqb (name u) name_) (clients m) = None ->
  filter (fun r => JS.eqb (row_username r) name_) tb = [r] ->
  JSON_parse (row_config r) = Some config_ ->
  let m2 := snd (loadUser name_ (snd (loadUser name_ m))) in
  pending m2 = [SelectUser name_; SelectUser name_]
  /\ exists m3 m4,
      turn (m2, tb) = (m3, tb, None)
      /\ turn (m3, tb) = (m4, tb, None)
      /\ clients m4
         = clients m ++ [mkClient name_ config_; mkClient name_ config_]
      /\ pending m4 = []
      /\ getUsers m4 = getUsers m ++ [name_; name_].
Proof.
  intros Hp Hmiss Hf Hc m2.
  assert (Hr : row_username r = name_).
  { assert (Hin : In r (filter (fun r => JS.eqb (row_username r) name_) tb))
      by (rewrite Hf; now left).
    apply filter_In in Hin as [_ Hin]. now apply eqb_eq. }
  assert (Hm2 : m2 = mk (clients m) [SelectUser name_; SelectUser name_]
                        (logged m)).
  { unfold m2. rewrite !loadUser_cache. cbn [snd fst].
    rewrite Hmiss. unfold databaseQuery. cbn [clients pending logged].
    rewrite Hmiss. cbn [clients pending logged]. now rewrite Hp. }
  split; [now rewrite Hm2|].
  exists (mk (clients m ++ [mkClient name_ config_]) [SelectUser name_]
             (logged m)),
         (mk (clients m ++ [mkClient name_ config_; mkClient name_ config_])
             [] (logged m)).
  split.
  { rewrite Hm2. unfold turn. cbn [pending clients logged execute].
    rewrite Hf. simpl. now rewrite Hc, Hr. }
  split.
  { unfold turn. cbn [pending clients logged execute].
    rewrite Hf. simpl. rewrite Hc, Hr. unfold pushClient.
    cbn [clients pending logged]. now rewrite <- app_assoc. }
  split; [reflexivity|]. split; [reflexivity|].
  unfold getUsers. cbn [clients]. now rewrite map_app.
Qed.

(** X18.  The callback of a select caches one session per row of the
    answer, in order, named after the row, as long as the
    configurations parse; at the first row whose configuration does
    not parse it throws, the sessions of the rows before it stay
    cached and the rows after it are dropped.  An answer that is an
    error is written to the log and changes nothing else. *)
Theorem loadUserCallback_rows m :
  (forall rows,
      Forall (fun r => JSON_parse (row_config r) <> None) rows ->
      exists sessions,
        loadUserCallback (Rows rows) m
        = (mk (clients m ++ sessions) (pending m) (logged m), None)
        /\ map name sessions = map row_username rows)
  /\ (forall good bad rest,
        Forall (fun r => JSON_parse (row_config r) <> None) good ->
        JSON_parse (row_config bad) = None ->
        exists sessions,
          loadUserCallback (Rows (good ++ bad :: rest)) m
          = (mk (clients m ++ sessions) (pending m) (logged m),
             Some (Error (lit "SyntaxError")))
          /\ map name sessions = map row_username good)
  /\ (forall err,
        loadUserCallback (Failed err) m
        = (mk (clients m) (pending m) (logged m ++ [err]), None)).
Proof.
  split; [|split].
  - intros rows Hall. destruct (forEachRow_all rows m Hall)
      as (sessions & Hf & Hn & _).
    exists sessions. split; [exact Hf | exact Hn].
  - intros good bad rest Hall Hbad. simpl.
    revert m. induction good as [|r good IH]; intros m.
    + exists []. simpl. rewrite Hbad, app_nil_r.
      split; [now destruct m | reflexivity].
    + inversion Hall as [|? ? Hr Hrest]; subst. simpl.
      destruct (JSON_parse (row_config r)) as [c|] eqn:E; [|contradiction].
      destruct (IH Hrest (pushClient (mkClient (row_username r) c) m))
        as (sessions & Hf & Hn).
      exists (mkClient (row_username r) c :: sessions).
      rewrite Hf. simpl. rewrite <- app_assoc. simpl.
      split; [reflexivity | now f_equal].
  - reflexivity.
Qed.

End CacheFacts.

(* ================================================================= *)
(** ** Further properties: the nick and what [validate] leaves alone *)

Section NickFacts.

Context {R : Runtime}.

Import Network.

Lemma literalOf_escapeRegExp (s : jstring) : literalOf (escapeRegExp s) = s.
Proof.
  induction s as [|c s IH]; [reflexivity|].
  unfold escapeRegExp. simpl flat_map. fold (escapeRegExp s).
  destruct (isRegExpChar c) eqn:E.
  - simpl. now rewrite IH.
  - assert (Hc : N.eqb c 92 = false).
    { destruct (N.eqb c 92) eqn:E'; [|reflexivity].
      apply N.eqb_eq in E'. subst. discriminate. }
    simpl. now rewrite Hc, IH.
Qed.

Lemma escapeRegExp_plain (s : jstring) :
  Forall (fun c => isRegExpChar c = false) s -> escapeRegExp s = s.
Proof.
  induction 1 as [|c s Hc _ IH]; [reflexivity|].
  unfold escapeRegExp. simpl. rewrite Hc. simpl. f_equal. exact IH.
Qed.

(** X19.  [setNick] stores the nick, forgets the deferred nick exactly
    when it equals the new one, and rebuilds the highlight pattern
    around the escaped nick.  Escaping only puts a backslash before
    each regular-expression metacharacter: read as a pattern, the
    escaped text matches the nick literally, and a nick without
    metacharacters is left as it is.  Nothing else of the network
    changes. *)
Theorem setNick_pattern nick_ n :
  let n' := setNick nick_ n in
  nick n' = JString nick_
  /\ keepNick n'
     = match keepNick n with
       | Some k => if JS.eqb k nick_ then None else Some k
       | None => None
       end
  /\ highlightRegex n'
     = Some (lit "(?:^|[^a-z0-9]|" ++ [3%N] ++ lit "[0-9]{1,2})"
             ++ escapeRegExp nick_ ++ lit "(?:[^a-z0-9]|$)")
  /\ literalOf (escapeRegExp nick_) = nick_
  /\ (Forall (fun c => isRegExpChar c = false) nick_ ->
      escapeRegExp nick_ = nick_)
  /\ host n' = host n /\ name n' = name n /\ username n' = username n
  /\ channels n' = channels n /\ irc n' = irc n /\ uuid n' = uuid n.
Proof.
  intros n'. subst n'.
  split; [|split; [|split; [|split; [apply literalOf_escapeRegExp|
                                     split; [apply escapeRegExp_plain|]]]]];
    destruct n as [nm nk ho po tl ud ru pw aw cm un rn ch ir so cc il kn uu hr];
    unfold setNick; simpl; destruct kn as [k|];
    try destruct (JS.eqb k nick_); repeat split.
Qed.

Ltac normalize_all n :=
  destruct n;
  unfold normalize, defaultPort, normalizeName, normalizeHost,
    normalizePassword, normalizeRealname, normalizeUsername, deriveUsername,
    normalizeNick, setNick;
  repeat (simpl;
          match goal with
          | |- context [match ?x with _ => _ end] =>
              lazymatch x with
              | context [match _ with _ => _ end] => fail
              | _ => destruct x
              end
          end);
  repeat split.

Lemma normalize_untouched cfg n :
  channels (normalize cfg n) = channels n
  /\ irc (normalize cfg n) = irc n
  /\ uuid (normalize cfg n) = uuid n
  /\ commands (normalize cfg n) = commands n
  /\ ignoreList (normalize cfg n) = ignoreList n
  /\ awayMessage (normalize cfg n) = awayMessage n
  /\ userDisconnected (normalize cfg n) = userDisconnected n
  /\ serverOptions (normalize cfg n) = serverOptions n
  /\ chanCache (normalize cfg n) = chanCache n.
Proof. normalize_all n. Qed.

Lemma applyLock_untouched cfg m :
  channels (applyLock cfg m) = channels m
  /\ irc (applyLock cfg m) = irc m
  /\ uuid (applyLock cfg m) = uuid m
  /\ commands (applyLock cfg m) = commands m
  /\ ignoreList (applyLock cfg m) = ignoreList m
  /\ awayMessage (applyLock cfg m) = awayMessage m
  /\ userDisconnected (applyLock cfg m) = userDisconnected m
  /\ serverOptions (applyLock cfg m) = serverOptions m
  /\ chanCache (applyLock cfg m) = chanCache m.
Proof. repeat split. Qed.

(** X20.  Whether it accepts or rejects, [validate] leaves the channel
    registry, the connection handle, the identifier, the commands, the
    ignore list, the away message, the user-disconnected flag, the
    server options and the channel cache exactly as they were. *)
Theorem validate_leaves_registry cfg sts now n b n' es :
  validate cfg sts now n = Normal (b, n', es) ->
  channels n' = channels n
  /\ irc n' = irc n
  /\ uuid n' = uuid n
  /\ commands n' = commands n
  /\ ignoreList n' = ignoreList n
  /\ awayMessage n' = awayMessage n
  /\ userDisconnected n' = userDisconnected n
  /\ serverOptions n' = serverOptions n
  /\ chanCache n' = chanCache n.
Proof.
  intros H.
  destruct (normalize_untouched cfg n)
    as (N1 & N2 & N3 & N4 & N5 & N6 & N7 & N8 & N9).
  assert (Hlock : channels (afterLock cfg n) = channels n
                  /\ irc (afterLock cfg n) = irc n
                  /\ uuid (afterLock cfg n) = uuid n
                  /\ commands (afterLock cfg n) = commands n
                  /\ ignoreList (afterLock cfg n) = ignoreList n
                  /\ awayMessage (afterLock cfg n) = awayMessage n
                  /\ userDisconnected (afterLock cfg n) = userDisconnected n
                  /\ serverOptions (afterLock cfg n) = serverOptions n
                  /\ chanCache (afterLock cfg n) = chanCache n).
  { unfold afterLock. destruct (Helper.lockNetwork cfg); [|tauto].
    destruct (applyLock_untouched cfg (normalize cfg n))
      as (-> & -> & -> & -> & -> & -> & -> & -> & ->). tauto. }
  apply validate_exits in H as [(_ & _ & _ & -> & _) | [_ H]]; [tauto|].
  apply checkHostAndSTS_exits in H
    as [(_ & _ & -> & _) | [(_ & _ & p & l & _ & _ & -> & _)
                           | (_ & _ & -> & _)]]; exact Hlock.
Qed.

End NickFacts.

(* ================================================================= *)
(** ** The further properties on concrete data *)

Lemma cleanString_idempotent_witness :
  Network.cleanString (lit "irc.example.org") = lit "irc.example.org".
Proof.
  apply (proj1 (proj2 (proj2 (cleanString_idempotent _)))).
  apply literal_sanitized; reflexivity.
Defined.

Lemma cleanNick_idempotent_witness :
  nth_error (Network.cleanNick (lit "a b")) 1 = Some 95%N.
Proof.
  apply (proj1 (proj2 (cleanNick_idempotent (lit "a b"))) 1%nat 32%N);
    [lia | reflexivity].
Defined.

Lemma validate_identity_fields_witness :
  exists b n' es,
    Network.validate (R := Sample.asciiRuntime) (Sample.config false false)
      [] 0 (Sample.network "Example" "al ice!" "irc.example.org" [])
    = Normal (b, n', es)
    /\ Network.username n' <> []
    /\ Network.realname n' <> [].
Proof.
  destruct (validate_identity_fields (R := Sample.asciiRuntime)
              (Sample.config false false) [] 0
              (Sample.network "Example" "al ice!" "irc.example.org" []))
    as (b & n' & es & Hv & Hu & Hr & _).
  - discriminate.
  - exists b, n', es. auto.
Defined.

Lemma validate_verdict_witness :
  exists b n' es lobby,
    Network.validate (R := Sample.asciiRuntime) (Sample.config true false)
      [] 0 (Sample.network "Example" "alice" "evil.example.com" [])
    = Normal (b, n', es)
    /\ b = false
    /\ es = [PushMessage lobby Network.lockedHostMsg true].
Proof.
  destruct (validate_verdict (R := Sample.asciiRuntime)
              (Sample.config true false) [] 0
              (Sample.network "Example" "alice" "evil.example.com" []))
    as (b & n' & es & lobby & Hv & _ & _ & Hrefused & _).
  - discriminate.
  - exists b, n', es, lobby. split; [exact Hv|]. apply Hrefused.
    split; [reflexivity|]. split; [reflexivity|].
    split; vm_compute; discriminate.
Defined.

Lemma validate_port_witness :
  exists b n' es,
    Network.validate (R := Sample.asciiRuntime) (Sample.config false false)
      [] 0
      (Network.set_port NaN
         (Sample.network "Example" "alice" "irc.example.org" []))
    = Normal (b, n', es)
    /\ Network.port n' = Num 6667.
Proof.
  eexists. eexists. eexists.
  match goal with
  | |- ?A /\ _ => assert (H : A) by (vm_compute; reflexivity)
  end.
  split; [exact H|].
  destruct (validate_port (R := Sample.asciiRuntime)
              (Sample.config false false) _ _ _ _ _ _ eq_refl H)
    as (_ & _ & [Hp | (p & _ & _ & Hget & _)]).
  - exact Hp.
  - discriminate.
Defined.

Lemma edit_accepted_syncs_handle_witness :
  exists n1 es h' calls,
    Network.edit (R := Sample.asciiRuntime) (Sample.config false false)
      [] 0 (Sample.form "mallory" "IRC.Example.net") Sample.connectedNetwork
    = Normal (Network.set_irc (Some h') n1, es ++ calls ++ [ClientSave])
    /\ Irc.o_host (Irc.opts h') = lit "irc.example.net"
    /\ Irc.o_port (Irc.opts h') = Num 6667.
Proof.
  assert (H0 : Network.syncLobbyName
                 (Network.assignArgs (Sample.form "mallory" "IRC.Example.net")
                    Sample.connectedNetwork)
               = Normal _) by (vm_compute; reflexivity).
  match type of H0 with
  | _ = Normal ?n0 =>
      assert (H1 : Network.validate (R := Sample.asciiRuntime)
                     (Sample.config false false) [] 0 n0
                   = Normal (true, _, _))
        by (vm_compute; reflexivity)
  end.
  destruct (edit_accepted_syncs_handle _ _ _ _ _ _ _ _ H0 H1) as [_ Hh].
  destruct (Hh Sample.handle eq_refl)
    as (h' & calls & He & _ & _ & _ & Hhost & Hport & _).
  eexists. eexists. exists h', calls.
  split; [exact He|]. split; [exact Hhost | exact Hport].
Defined.

Lemma edit_accepted_calls_witness :
  exists n1 h',
    Network.edit (R := Sample.asciiRuntime) (Sample.config false false)
      [] 0 (Sample.form "mallory" "IRC.Example.net") Sample.connectedNetwork
    = Normal (Network.set_irc (Some h') n1,
              [IrcChangeNick (JString (lit "mallory"));
               IrcRaw (lit "SETNAME") (lit "The Lounge User");
               ClientSave])
    /\ Irc.o_nick (Irc.opts h') = JString (lit "alice").
Proof.
  assert (H0 : Network.syncLobbyName
                 (Network.assignArgs (Sample.form "mallory" "IRC.Example.net")
                    Sample.connectedNetwork)
               = Normal _) by (vm_compute; reflexivity).
  match type of H0 with
  | _ = Normal ?n0 =>
      assert (H1 : Network.validate (R := Sample.asciiRuntime)
                     (Sample.config false false) [] 0 n0
                   = Normal (true, _, _))
        by (vm_compute; reflexivity)
  end.
  destruct (edit_accepted_calls _ _ _ _ _ _ _ _ Sample.handle H0 H1 eq_refl)
    as (h' & He & Hnick & _).
  eexists. exists h'. split; [exact He | exact Hnick].
Defined.

Lemma splitCommands_lines_witness :
  Network.splitCommands
    (JString (lit "/join #rocq" ++ [13%N; 10%N] ++ lit "/away gone"
              ++ [13%N] ++ [10%N] ++ lit "/msg rocq hi"))
  = [lit "/join #rocq"; lit "/away gone"; lit "/msg rocq hi"].
Proof.
  apply (proj1 splitCommands_lines
           [(lit "/join #rocq", [13%N; 10%N]); (lit "/away gone", [13%N]);
            ([], [10%N])]
           (lit "/msg rocq hi"));
    [ repeat (apply Forall_cons;
              [split; [|split; [|simpl; auto]]|]); try apply Forall_nil
    | | ];
    intros H; vm_compute in H;
    repeat (destruct H as [H|H]; [discriminate|]); exact H.
Defined.

Lemma addChannel_then_getChannel_witness :
  exists found,
    Network.getChannel (R := Sample.asciiRuntime)
      (fst (Network.addChannel (R := Sample.asciiRuntime)
              (Sample.network "Example" "alice" "irc.example.org"
                 [Sample.chan "alpha" Chan.CHANNEL;
                  Sample.chan "zulu" Chan.CHANNEL])
              (Sample.chan "mango" Chan.CHANNEL)))
      (lit "MANGO")
    = Some found
    /\ toLowerCase (Runtime := Sample.asciiRuntime) (Chan.name found)
       = lit "mango".
Proof.
  destruct (addChannel_then_getChannel (R := Sample.asciiRuntime)
              (Sample.network "Example" "alice" "irc.example.org"
                 [Sample.chan "alpha" Chan.CHANNEL;
                  Sample.chan "zulu" Chan.CHANNEL])
              (Sample.chan "Example" Chan.LOBBY)
              [Sample.chan "alpha" Chan.CHANNEL;
               Sample.chan "zulu" Chan.CHANNEL]
              (Sample.chan "mango" Chan.CHANNEL) eq_refl) as (Hfound & _).
  destruct (Hfound (lit "MANGO") eq_refl) as (found & Hf & Hn).
  exists found. split; [exact Hf | exact Hn].
Defined.

Lemma constructed_registry_stays_sorted_witness :
  exists rest,
    Network.channels
      (Network.addChannels (R := Sample.asciiRuntime)
         (Network.Network Sample.attr (lit "6f1c2b1e"))
         [Sample.chan "zulu" Chan.CHANNEL;
          Sample.chan "Channel List" Chan.SPECIAL;
          Sample.chan "alpha" Chan.CHANNEL])
    = Sample.chan "Example" Chan.LOBBY :: rest
    /\ Sorted (Network.sortsAtOrBefore (R := Sample.asciiRuntime))
         (filter Network.isChannelOrQuery rest).
Proof.
  destruct (constructed_registry_stays_sorted (R := Sample.asciiRuntime)
              Sample.attr (lit "6f1c2b1e")
              [Sample.chan "zulu" Chan.CHANNEL;
               Sample.chan "Channel List" Chan.SPECIAL;
               Sample.chan "alpha" Chan.CHANNEL])
    as (rest & Hr & _ & _ & Hs).
  - intros x y. apply compareFolded_total.
  - reflexivity.
  - constructor.
  - exists rest. split; [exact Hr | exact Hs].
Defined.

Lemma export_channels_only_witness :
  Network.export
    (fst (Network.addChannel (R := Sample.asciiRuntime)
            (Sample.network "Example" "alice" "irc.example.org"
               [Sample.chan "alpha" Chan.CHANNEL])
            (Sample.chan "Channel List" Chan.SPECIAL)))
  = Network.export
      (Sample.network "Example" "alice" "irc.example.org"
         [Sample.chan "alpha" Chan.CHANNEL]).
Proof.
  destruct (export_channels_only (R := Sample.asciiRuntime)
              (Sample.network "Example" "alice" "irc.example.org"
                 [Sample.chan "alpha" Chan.CHANNEL])
              (Sample.chan "Example" Chan.LOBBY)
              [Sample.chan "alpha" Chan.CHANNEL]
              (Sample.chan "Channel List" Chan.SPECIAL) eq_refl eq_refl)
    as (_ & _ & Hspecial & _).
  apply Hspecial. reflexivity.
Defined.

Lemma exportForEdit_fields_witness :
  Network.get
    (Network.exportForEdit (P := Sample.nameProjection) false Sample.policies
       10 (Sample.network "Example" "alice" "irc.example.org" []))
    "hasSTSPolicy"
  = Some (Network.VBool true).
Proof.
  destruct (exportForEdit_fields (P := Sample.nameProjection) false
              Sample.policies 10
              (Sample.network "Example" "alice" "irc.example.org" []))
    as (_ & _ & _ & _ & _ & Hflag & _).
  apply Hflag. vm_compute. discriminate.
Defined.

Lemma getNetworkStatus_reads_socket_witness :
  Network.status_secure (Network.getNetworkStatus Sample.connectedNetwork)
  = true.
Proof.
  apply (proj1 (getNetworkStatus_reads_socket Sample.connectedNetwork)).
  eexists. eexists. eexists. eexists.
  repeat split; try reflexivity. left. split; reflexivity.
Defined.

Lemma loadUser_after_answer_witness :
  ClientManager.turn
    (snd (ClientManager.loadUser (J := Sample.textJson) (lit "bob")
            ClientManager.ClientManager),
     [ClientManager.mkRow (lit "bob") (lit "{}")])
  = (ClientManager.mk
       [ClientManager.mkClient (J := Sample.textJson) (lit "bob") (lit "{}")]
       [] [],
     [ClientManager.mkRow (lit "bob") (lit "{}")], None).
Proof.
  exact (proj1 (proj2
    (loadUser_after_answer (J := Sample.textJson) (lit "bob")
       ClientManager.ClientManager
       [ClientManager.mkRow (lit "bob") (lit "{}")]
       (ClientManager.mkRow (lit "bob") (lit "{}")) (lit "{}")
       eq_refl eq_refl eq_refl eq_refl))).
Defined.

Lemma addUser_then_loadUser_witness :
  exists m1,
    ClientManager.addUser (J := Sample.textJson) (lit "carol")
      (JString (lit "x")) (JBool true) ClientManager.ClientManager
    = Normal (true, m1)
    /\ ClientManager.turn (m1, [ClientManager.mkRow (lit "bob") (lit "{}")])
       = (ClientManager.ClientManager,
          [ClientManager.mkRow (lit "bob") (lit "{}");
           ClientManager.mkRow (lit "carol") (lit "{password:x,log:true}")],
          None).
Proof.
  destruct (addUser_then_loadUser (J := Sample.textJson) (lit "carol")
              (JString (lit "x")) (JBool true) ClientManager.ClientManager
              [ClientManager.mkRow (lit "bob") (lit "{}")]
              (lit "{password:x,log:true}")
              eq_refl eq_refl eq_refl eq_refl eq_refl)
    as (m1 & Ha & Ht & _).
  exists m1. split; [exact Ha | exact Ht].
Defined.

Lemma loadUser_twice_caches_twice_witness :
  exists m3 m4,
    ClientManager.turn
      (snd (ClientManager.loadUser (J := Sample.textJson) (lit "bob")
              (snd (ClientManager.loadUser (lit "bob")
                      ClientManager.ClientManager))),
       [ClientManager.mkRow (lit "bob") (lit "{}")])
    = (m3, [ClientManager.mkRow (lit "bob") (lit "{}")], None)
    /\ ClientManager.turn (m3, [ClientManager.mkRow (lit "bob") (lit "{}")])
       = (m4, [ClientManager.mkRow (lit "bob") (lit "{}")], None)
    /\ ClientManager.getUsers m4 = [lit "bob"; lit "bob"].
Proof.
  destruct (loadUser_twice_caches_twice (J := Sample.textJson) (lit "bob")
              ClientManager.ClientManager
              [ClientManager.mkRow (lit "bob") (lit "{}")]
              (ClientManager.mkRow (lit "bob") (lit "{}")) (lit "{}")
              eq_refl eq_refl eq_refl eq_refl)
    as (_ & m3 & m4 & H3 & H4 & _ & _ & Hu).
  exists m3, m4. split; [exact H3|]. split; [exact H4 | exact Hu].
Defined.

Lemma loadUserCallback_rows_witness :
  exists sessions,
    ClientManager.loadUserCallback (J := Sample.textJson)
      (ClientManager.Rows [ClientManager.mkRow (lit "bob") (lit "{}")])
      ClientManager.ClientManager
    = (ClientManager.mk sessions [] [], None)
    /\ map ClientManager.name sessions = [lit "bob"].
Proof.
  destruct (loadUserCallback_rows (J := Sample.textJson)
              ClientManager.ClientManager) as (Hrows & _).
  destruct (Hrows [ClientManager.mkRow (lit "bob") (lit "{}")])
    as (sessions & Hc & Hn).
  - repeat constructor. discriminate.
  - exists sessions. split; [exact Hc | exact Hn].
Defined.

Lemma setNick_pattern_witness :
  escapeRegExp (lit "alice") = lit "alice".
Proof.
  destruct (setNick_pattern (lit "alice")
              (Sample.network "Example" "bob" "irc.example.org" []))
    as (_ & _ & _ & _ & Hplain & _).
  apply Hplain. repeat constructor.
Defined.

Lemma validate_leaves_registry_witness :
  exists b n' es,
    Network.validate (R := Sample.asciiRuntime) (Sample.config false false)
      [] 0
      (Sample.network "Example" "alice" "irc.example.org"
         [Sample.chan "alpha" Chan.CHANNEL])
    = Normal (b, n', es)
    /\ Network.channels n'
       = [Sample.chan "Example" Chan.LOBBY; Sample.chan "alpha" Chan.CHANNEL].
Proof.
  eexists. eexists. eexists.
  match goal with
  | |- ?A /\ _ => assert (H : A) by (vm_compute; reflexivity)
  end.
  split; [exact H|].
  exact (proj1 (validate_leaves_registry _ _ _ _ _ _ _ H)).
Defined.
